(** * conversor-ofx: statement text -> transactions -> OFX document

  A shallow embedding of the extraction-and-serialization pipeline:
    - [GeminiService]: [createChunks], the per-record validation,
      [extractTransactionsFromChunk] with its retry loop and
      [extractTransactionsFromStatement];
    - [OfxService]: [generateUniqueId] and [createOfxContent];
    - [App]: [readFileContent] and [handleFileSelect].

  JavaScript strings are sequences of UTF-16 code units, modelled as
  [list N]; numbers are the exact rational value of the double, or NaN or
  an infinity, and the arithmetic of the code rounds its exact result to
  the nearest double ([binary64]).  What ECMA-262 leaves to the
  implementation (JSON.parse, the legacy date parser, locale collation,
  Number::toString, the text of a TypeError) is a field of the [Engine]
  class; what the outside world answers (the model's
  responses, Math.random, the clock) is a field of the [Oracle] class. *)

From Stdlib Require Import List ZArith NArith QArith Qabs Qround Lia Lqa Bool.
From Stdlib Require Import String Ascii Permutation Sorted.
Import ListNotations.
Close Scope Q_scope.

Set Implicit Arguments.

(** ** JavaScript strings *)

Module JSString.

(** A code unit is a number; a string is the list of its code units. *)
Abbreviation code_unit := N (only parsing).
Abbreviation jsstring := (list N) (only parsing).

(** A literal of the source, as code units. *)
Definition str (s : string) : jsstring :=
  map N_of_ascii (list_ascii_of_string s).

Definition length (s : jsstring) : Z := Z.of_nat (List.length s).

Definition quote : code_unit := 34%N.
Definition newline : code_unit := 10%N.

Fixpoint eqb (a b : jsstring) : bool :=
  match a, b with
  | [], [] => true
  | x :: a', y :: b' => N.eqb x y && eqb a' b'
  | _, _ => false
  end.

(** WhiteSpace and LineTerminator of ECMA-262, the set [trim] strips. *)
Definition is_whitespace (c : code_unit) : bool :=
  ((9 <=? c) && (c <=? 13) || (c =? 32) || (c =? 160) || (c =? 5760)
   || (8192 <=? c) && (c <=? 8202) || (c =? 8232) || (c =? 8233)
   || (c =? 8239) || (c =? 8287) || (c =? 12288) || (c =? 65279))%N.

Fixpoint trimStart (s : jsstring) : jsstring :=
  match s with
  | [] => []
  | c :: s' => if is_whitespace c then trimStart s' else s
  end.

Definition trimEnd (s : jsstring) : jsstring := rev (trimStart (rev s)).

Definition trim (s : jsstring) : jsstring := trimEnd (trimStart s).

Fixpoint startsWith (s prefix : jsstring) : bool :=
  match prefix, s with
  | [], _ => true
  | p :: prefix', c :: s' => N.eqb c p && startsWith s' prefix'
  | _ :: _, [] => false
  end.

Definition endsWith (s suffix : jsstring) : bool :=
  startsWith (rev s) (rev suffix).

(** [s.split(sep)] for a one-character separator: never the empty list. *)
Fixpoint split (sep : code_unit) (s : jsstring) : list jsstring :=
  match s with
  | [] => [[]]
  | c :: s' =>
      if N.eqb c sep then [] :: split sep s'
      else match split sep s' with
           | [] => [[c]]
           | l :: ls => (c :: l) :: ls
           end
  end.

(** [parts.join(sep)]. *)
Fixpoint join (sep : jsstring) (parts : list jsstring) : jsstring :=
  match parts with
  | [] => []
  | [p] => p
  | p :: ps => p ++ sep ++ join sep ps
  end.

(** [s.indexOf(c)] and [s.lastIndexOf(c)] for one character; -1 when absent. *)
Fixpoint indexOf (c : code_unit) (s : jsstring) : Z :=
  match s with
  | [] => -1
  | x :: s' =>
      if N.eqb x c then 0
      else let i := indexOf c s' in if (i <? 0)%Z then -1 else (1 + i)%Z
  end.

Fixpoint lastIndexOf (c : code_unit) (s : jsstring) : Z :=
  match s with
  | [] => -1
  | x :: s' =>
      let i := lastIndexOf c s' in
      if (0 <=? i)%Z then (1 + i)%Z
      else if N.eqb x c then 0 else -1
  end.

(** [s.substring(a, b)]: both ends clamped to the string, swapped when
    out of order. *)
Definition substring (a b : Z) (s : jsstring) : jsstring :=
  let clamp i := Z.to_nat (Z.min (Z.max i 0) (length s)) in
  let lo := Nat.min (clamp a) (clamp b) in
  let hi := Nat.max (clamp a) (clamp b) in
  firstn (hi - lo) (skipn lo s).

(** [s.slice(0, n)] for a literal [n >= 0]. *)
Definition slice0 (n : nat) (s : jsstring) : jsstring := firstn n s.

(** [s.padStart(n, c)] for a one-character filler. *)
Definition padStart (n : nat) (c : code_unit) (s : jsstring) : jsstring :=
  repeat c (n - List.length s) ++ s.

(** [s.replace(/c/g, r)] for a literal character [c]. *)
Definition replaceAll (c : code_unit) (r : jsstring) (s : jsstring) : jsstring :=
  flat_map (fun x => if N.eqb x c then r else [x]) s.

Definition is_digit (c : code_unit) : bool := ((48 <=? c) && (c <=? 57))%N.
Definition is_upper (c : code_unit) : bool := ((65 <=? c) && (c <=? 90))%N.
Definition is_lower (c : code_unit) : bool := ((97 <=? c) && (c <=? 122))%N.
Definition is_alnum (c : code_unit) : bool :=
  is_lower c || is_upper c || is_digit c.

(** Canonicalize of a case-insensitive, non-unicode regular expression,
    on what can match an ASCII pattern character: ASCII letters fold to
    upper case, and no character from U+0080 on folds into ASCII. *)
Definition canonicalize (c : code_unit) : code_unit :=
  if is_lower c then (c - 32)%N else c.

Fixpoint startsWith_ci (s pattern : jsstring) : bool :=
  match pattern, s with
  | [], _ => true
  | p :: pattern', c :: s' =>
      N.eqb (canonicalize c) (canonicalize p) && startsWith_ci s' pattern'
  | _ :: _, [] => false
  end.

(** [/pattern/i.test(s)] for a pattern of literal characters. *)
Fixpoint test_ci (pattern : jsstring) (s : jsstring) : bool :=
  startsWith_ci s pattern
  || match s with
     | [] => false
     | _ :: s' => test_ci pattern s'
     end.

(** Comparison of the code units, lexicographic. *)
Fixpoint compare (a b : jsstring) : comparison :=
  match a, b with
  | [], [] => Eq
  | [], _ :: _ => Lt
  | _ :: _, [] => Gt
  | x :: a', y :: b' =>
      match N.compare x y with
      | Eq => compare a' b'
      | c => c
      end
  end.

(** Decimal digits of a natural number, least significant first. *)
Fixpoint digits_le (fuel : nat) (n : N) : list N :=
  match fuel with
  | O => []
  | S fuel' =>
      if (n <? 10)%N then [n]
      else (n mod 10)%N :: digits_le fuel' (n / 10)%N
  end.

Definition digit_char (d : N) : code_unit := (48 + d)%N.

(** [n.toString()] for an integer [n >= 0]; the fuel covers every digit
    ([N_to_string_fuel] below). *)
Definition N_to_string (n : N) : jsstring :=
  map digit_char (rev (digits_le (S (N.to_nat (N.log2 n))) n)).

(** [n.toString()] for an integer. *)
Definition Z_to_string (z : Z) : jsstring :=
  if (z <? 0)%Z then str "-" ++ N_to_string (Z.to_N (- z))
  else N_to_string (Z.to_N z).

Definition nat_to_string (n : nat) : jsstring := N_to_string (N.of_nat n).

End JSString.

Import JSString.
Arguments str s%_string.

(** ** Numbers, JSON values and the engine *)

Module JS.

(** A Number: the exact value of a finite double, NaN, or an infinity. *)
Inductive number : Type :=
| NaN
| Infinity (negative : bool)
| Finite (q : Q).

(** The values JSON.parse builds.  An object keeps its properties in
    insertion order, each key once. *)
#[warnings="-register-all"]
Inductive json : Type :=
| JNull
| JBool (b : bool)
| JNum (n : number)
| JStr (s : jsstring)
| JArr (items : list json)
| JObj (props : list (jsstring * json)).

(** What ECMA-262 leaves to the implementation. *)
Class Engine : Type := {
  (** JSON.parse: the value, or the message of the SyntaxError. *)
  JSON_parse : jsstring -> jsstring + json;
  (** Date.parse on what is not a date-only ISO string: the time value,
      or [None] for NaN. *)
  Date_parse_legacy : jsstring -> option Z;
  (** String.prototype.localeCompare in the default locale. *)
  localeCompare : jsstring -> jsstring -> Z;
  (** Number::toString of a finite number. *)
  Number_toString : Q -> jsstring;
  (** The message of the TypeError raised on the named property. *)
  TypeError_message : jsstring -> jsstring;
  (** The message of the TypeError raised for an object that has no
      primitive value. *)
  ToPrimitive_message : jsstring;
  (** The message of the TypeError raised by code that uses the amount
      of a record as a number and its description as a string, on
      records that are not all so: its text names the expression that
      fails first, which depends on the records. *)
  member_TypeError_message : list json -> jsstring
}.

(** *** Doubles

    A finite double is the rational it stands for.  An arithmetic
    operation of the code gives the double nearest to its exact result,
    the one with an even significand on a tie: 53 significant bits,
    exponents down to -1074; nothing here reaches 2^1024, where the
    result would be an infinity. *)

(** [2^e]. *)
Definition pow2 (e : Z) : Q :=
  if (0 <=? e)%Z then inject_Z (2 ^ e) else 1 # Z.to_pos (2 ^ (- e)).

(** The floor of the binary logarithm of [q > 0]. *)
Definition ilog2 (q : Q) : Z :=
  let n := Qnum q in
  let d := Zpos (Qden q) in
  if (d <=? n)%Z then Z.log2 (n / d) else (- Z.log2_up ((d + n - 1) / n))%Z.

(** The integer nearest to [x], the even one on a tie. *)
Definition round_half_even (x : Q) : Z :=
  let f := Qfloor x in
  match (x - inject_Z f ?= 1 # 2)%Q with
  | Lt => f
  | Gt => (f + 1)%Z
  | Eq => if Z.even f then f else (f + 1)%Z
  end.

(** The double nearest to [q], in lowest terms. *)
Definition binary64 (q : Q) : Q :=
  if (Qnum q =? 0)%Z then 0%Q
  else
    let e := Z.max (ilog2 (Qabs q) - 52) (-1074) in
    let m := round_half_even (Qabs q / pow2 e)%Q in
    Qred (inject_Z (Z.sgn (Qnum q) * m) * pow2 e)%Q.

Definition is_finite_zero (q : Q) : bool := (Qnum q =? 0)%Z.

(** [x > 0]. *)
Definition gt0 (x : number) : bool :=
  match x with
  | NaN => false
  | Infinity negative => negb negative
  | Finite q => (0 <? Qnum q)%Z
  end.

(** ToBoolean. *)
Definition truthy (v : json) : bool :=
  match v with
  | JNull => false
  | JBool b => b
  | JNum NaN => false
  | JNum (Infinity _) => true
  | JNum (Finite q) => negb (is_finite_zero q)
  | JStr s => negb (JSString.eqb s [])
  | JArr _ | JObj _ => true
  end.

(** A property that is absent reads as [undefined], here [None]. *)
Fixpoint lookup (key : jsstring) (props : list (jsstring * json)) : option json :=
  match props with
  | [] => None
  | (k, v) :: props' => if JSString.eqb k key then Some v else lookup key props'
  end.

Definition truthy_opt (v : option json) : bool :=
  match v with
  | None => false
  | Some v => truthy v
  end.

(** [v.key] for a key no prototype defines: a TypeError on null, the own
    property on an object, [undefined] on every other value. *)
Definition get `{Engine} (v : json) (key : jsstring) : jsstring + option json :=
  match v with
  | JNull => inl (TypeError_message key)
  | JObj props => inr (lookup key props)
  | _ => inr None
  end.

(** [{...props, key: v}]: an existing key keeps its place. *)
Fixpoint assign (key : jsstring) (v : json) (props : list (jsstring * json))
  : list (jsstring * json) :=
  match props with
  | [] => [(key, v)]
  | (k, w) :: props' =>
      if JSString.eqb k key then (k, v) :: props'
      else (k, w) :: assign key v props'
  end.

Definition Array_isArray (v : json) : bool :=
  match v with
  | JArr _ => true
  | _ => false
  end.

(** Number.prototype.toFixed(f), for [0 <= f <= 100]: below 10^21 the
    integer [n] nearest to [x * 10^f] (the larger one on a tie) is
    written with [f] digits after the point. *)
Definition toFixed `{Engine} (f : nat) (x : number) : jsstring :=
  match x with
  | NaN => str "NaN"
  | Infinity negative => if negative then str "-Infinity" else str "Infinity"
  | Finite q =>
      let s := if (Qnum q <? 0)%Z then str "-" else [] in
      let num := Z.abs (Qnum q) in
      let den := Zpos (Qden q) in
      if (10 ^ 21 * den <=? num)%Z then s ++ Number_toString (Qabs q)
      else
        let n := Z.to_N ((2 * num * 10 ^ Z.of_nat f + den) / (2 * den)) in
        let m := N_to_string n in
        let m :=
          match f with
          | O => m
          | _ =>
              let m := repeat 48%N (S f - List.length m) ++ m in
              let k := List.length m in
              firstn (k - f) m ++ str "." ++ skipn (k - f) m
          end in
        s ++ m
  end.

(** ToString of a Number. *)
Definition number_to_string `{Engine} (x : number) : jsstring :=
  match x with
  | NaN => str "NaN"
  | Infinity negative => if negative then str "-Infinity" else str "Infinity"
  | Finite q => Number_toString q
  end.

(** ToString of a JSON value, or the message of the TypeError it throws.
    An object built by JSON.parse has the methods of Object.prototype
    unless an own property hides them, and no property of it is a
    function: with an own [toString] OrdinaryToPrimitive finds no method
    that gives a primitive ([valueOf] answers the object itself) and
    throws; without one the object is [[object Object]].  An array joins
    its elements with commas, null elements as the empty string. *)
Fixpoint ToString `{Engine} (v : json) : jsstring + jsstring :=
  match v with
  | JNull => inr (str "null")
  | JBool b => inr (if b then str "true" else str "false")
  | JNum n => inr (number_to_string n)
  | JStr s => inr s
  | JArr items =>
      let fix elements (items : list json) : jsstring + list jsstring :=
        match items with
        | [] => inr []
        | e :: items' =>
            match match e with
                  | JNull => inr []
                  | _ => ToString e
                  end with
            | inl message => inl message
            | inr s =>
                match elements items' with
                | inl message => inl message
                | inr ss => inr (s :: ss)
                end
            end
        end in
      match elements items with
      | inl message => inl message
      | inr parts => inr (join (str ",") parts)
      end
  | JObj props =>
      match lookup (str "toString") props with
      | Some _ => inl ToPrimitive_message
      | None => inr (str "[object Object]")
      end
  end.

End JS.

Import JS.

(** ** Dates *)

Module JSDate.

Local Open Scope Z_scope.

Definition msPerDay : Z := 86400000.
Definition maxTime : Z := 8640000000000000.

Definition is_leap (y : Z) : bool :=
  ((y mod 4 =? 0) && negb (y mod 100 =? 0)) || (y mod 400 =? 0).

Definition days_in_month (y m : Z) : Z :=
  if m =? 2 then (if is_leap y then 29 else 28)
  else if (m =? 4) || (m =? 6) || (m =? 9) || (m =? 11) then 30
  else 31.

(** Day number (days since 1970-01-01) of a proleptic Gregorian date. *)
Definition days_from_civil (y m d : Z) : Z :=
  let y := if m <=? 2 then y - 1 else y in
  let era := y / 400 in
  let yoe := y - era * 400 in
  let doy := (153 * (if 2 <? m then m - 3 else m + 9) + 2) / 5 + d - 1 in
  let doe := yoe * 365 + yoe / 4 - yoe / 100 + doy in
  era * 146097 + doe - 719468.

(** Year, month (1..12) and day of the month of a day number. *)
Definition civil_from_days (z : Z) : Z * Z * Z :=
  let z := z + 719468 in
  let era := z / 146097 in
  let doe := z - era * 146097 in
  let yoe := (doe - doe / 1460 + doe / 36524 - doe / 146096) / 365 in
  let y := yoe + era * 400 in
  let doy := doe - (365 * yoe + yoe / 4 - yoe / 100) in
  let mp := (5 * doy + 2) / 153 in
  let d := doy - (153 * mp + 2) / 5 + 1 in
  let m := if mp <? 10 then mp + 3 else mp - 9 in
  (if m <=? 2 then y + 1 else y, m, d).

(** TimeClip of a Number: an integral time value within range, or NaN. *)
Definition TimeClip (x : number) : option Z :=
  match x with
  | NaN | Infinity _ => None
  | Finite q =>
      let t := Z.quot (Qnum q) (Zpos (Qden q)) in
      if (Z.abs (Qnum q) <=? maxTime * Zpos (Qden q)) then Some t else None
  end.

(** The value of a string of decimal digits. *)
Fixpoint digits_value (acc : Z) (s : jsstring) : option Z :=
  match s with
  | [] => Some acc
  | c :: s' =>
      if is_digit c then digits_value (10 * acc + (Z.of_N c - 48)) s'
      else None
  end.

Definition fixed_digits (n : nat) (s : jsstring) : option Z :=
  if Nat.eqb (List.length s) n then digits_value 0 s else None.

Definition utc_midnight (y m d : Z) : option Z :=
  if (1 <=? m) && (m <=? 12) && (1 <=? d) && (d <=? days_in_month y m) then
    let t := days_from_civil y m d * msPerDay in
    if Z.abs t <=? maxTime then Some t else None
  else None.

(** After the year: nothing, [-MM] or [-MM-DD]. *)
Definition parse_month_day (y : Z) (rest : jsstring) : option Z :=
  match rest with
  | [] => utc_midnight y 1 1
  | [45%N; m1; m2] =>
      match fixed_digits 2 [m1; m2] with
      | Some m => utc_midnight y m 1
      | None => None
      end
  | [45%N; m1; m2; 45%N; d1; d2] =>
      match fixed_digits 2 [m1; m2], fixed_digits 2 [d1; d2] with
      | Some m, Some d => utc_midnight y m d
      | _, _ => None
      end
  | _ => None
  end.

(** The date-only forms of the Date Time String Format, which are UTC:
    [YYYY], [YYYY-MM], [YYYY-MM-DD], and the same with an expanded year
    [+YYYYYY] or [-YYYYYY] ([-000000] is not a year). *)
Definition parse_iso_date (s : jsstring) : option Z :=
  match s with
  | 43%N :: s' =>
      match fixed_digits 6 (firstn 6 s') with
      | Some y => parse_month_day y (skipn 6 s')
      | None => None
      end
  | 45%N :: s' =>
      match fixed_digits 6 (firstn 6 s') with
      | Some y => if y =? 0 then None else parse_month_day (- y) (skipn 6 s')
      | None => None
      end
  | _ =>
      match fixed_digits 4 (firstn 4 s) with
      | Some y => parse_month_day y (skipn 4 s)
      | None => None
      end
  end.

(** Date.parse. *)
Definition Date_parse `{Engine} (s : jsstring) : option Z :=
  match parse_iso_date s with
  | Some t => Some t
  | None => Date_parse_legacy s
  end.

(** The time value of [new Date(v)] for a JSON value [v], or the message
    of the TypeError it throws; [None] is the invalid date.  A string is
    parsed; an array or an object is first converted to a primitive,
    which is its ToString or throws as its ToString does, and that
    string is parsed; every other value is converted to a Number. *)
Definition new_Date `{Engine} (v : json) : jsstring + option Z :=
  match v with
  | JStr s => inr (Date_parse s)
  | JArr _ | JObj _ =>
      match ToString v with
      | inl message => inl message
      | inr s => inr (Date_parse s)
      end
  | JNum n => inr (TimeClip n)
  | JBool b => inr (Some (if b then 1 else 0))
  | JNull => inr (Some 0)
  end.

Definition pad (n : nat) (z : Z) : jsstring :=
  padStart n 48%N (N_to_string (Z.to_N z)).

(** The year of toISOString: four digits from 0 to 9999, a sign and six
    digits otherwise. *)
Definition iso_year (y : Z) : jsstring :=
  if (0 <=? y) && (y <=? 9999) then pad 4 y
  else (if y <? 0 then str "-" else str "+") ++ pad 6 (Z.abs y).

(** Date.prototype.toISOString of a valid time value. *)
Definition toISOString (t : Z) : jsstring :=
  let '(y, m, d) := civil_from_days (t / msPerDay) in
  let ms := t mod msPerDay in
  iso_year y ++ str "-" ++ pad 2 m ++ str "-" ++ pad 2 d ++ str "T"
    ++ pad 2 (ms / 3600000) ++ str ":" ++ pad 2 (ms / 60000 mod 60)
    ++ str ":" ++ pad 2 (ms / 1000 mod 60) ++ str "."
    ++ pad 3 (ms mod 1000) ++ str "Z".

(** The local clock reading behind [new Date()], as its getters return it. *)
Record LocalTime : Type := {
  getFullYear : Z;
  getMonth : Z;
  getDate : Z;
  getHours : Z;
  getMinutes : Z;
  getSeconds : Z;
  getMilliseconds : Z
}.

End JSDate.

Import JSDate.

(** ** The outside world and tasks *)

Module Effects.

(** What a call of the model returns: a response whose [text] may be
    undefined, or a rejection, of which only the message is read. *)
Inductive response : Type :=
| Response (text : option jsstring)
| Rejected (message : jsstring).

(** The answers of the outside world: the n-th call of
    [ai.models.generateContent] with a prompt, the n-th value of
    [Math.random()], and the clock. *)
Class Oracle : Type := {
  generateContent : nat -> jsstring -> response;
  Math_random : nat -> Q;
  Date_now : LocalTime
}.

Inductive event : Type :=
| Request (prompt : jsstring)
| Progress (message : jsstring)
| Wait (milliseconds : Q)
| ConsoleError.

(** How many oracle answers were consumed, and what happened so far. *)
Record World : Type := {
  api_calls : nat;
  random_draws : nat;
  events : list event
}.

Definition initial_world : World :=
  {| api_calls := 0; random_draws := 0; events := [] |}.

(** An async function: it runs in a world and returns or throws. *)
Definition Task (A : Type) : Type := World -> World * (jsstring + A).

Definition ret {A} (a : A) : Task A := fun w => (w, inr a).

Definition throw {A} (message : jsstring) : Task A := fun w => (w, inl message).

Definition bind {A B} (t : Task A) (k : A -> Task B) : Task B :=
  fun w =>
    match t w with
    | (w', inr a) => k a w'
    | (w', inl e) => (w', inl e)
    end.

(** [try { body } catch (error) { handler(error.message) }]. *)
Definition try_catch {A} (body : Task A) (handler : jsstring -> Task A) : Task A :=
  fun w =>
    match body w with
    | (w', inr a) => (w', inr a)
    | (w', inl e) => handler e w'
    end.

Definition lift {A} (r : jsstring + A) : Task A := fun w => (w, r).

Definition log (e : event) : Task unit :=
  fun w => ({| api_calls := api_calls w;
               random_draws := random_draws w;
               events := events w ++ [e] |}, inr tt).

Definition log_all (es : list event) : Task unit :=
  fun w => ({| api_calls := api_calls w;
               random_draws := random_draws w;
               events := events w ++ es |}, inr tt).

Definition call_generateContent `{Oracle} (prompt : jsstring) : Task (option jsstring) :=
  fun w =>
    let w' := {| api_calls := S (api_calls w);
                 random_draws := random_draws w;
                 events := events w ++ [Request prompt] |} in
    match generateContent (api_calls w) prompt with
    | Response text => (w', inr text)
    | Rejected message => (w', inl message)
    end.

Definition call_Math_random `{Oracle} : Task Q :=
  fun w =>
    ({| api_calls := api_calls w;
        random_draws := S (random_draws w);
        events := events w |}, inr (Math_random (random_draws w))).

(** [await new Promise(resolve => setTimeout(resolve, ms))]. *)
Definition sleep (ms : Q) : Task unit := log (Wait ms).

Definition waits (trace : list event) : list Q :=
  flat_map (fun e => match e with Wait ms => [ms] | _ => [] end) trace.

Definition requests (trace : list event) : list jsstring :=
  flat_map (fun e => match e with Request p => [p] | _ => [] end) trace.

Definition progress_messages (trace : list event) : list jsstring :=
  flat_map (fun e => match e with Progress m => [m] | _ => [] end) trace.

(** The events of a run from [before] to [after]. *)
Definition new_events (before after : World) : list event :=
  skipn (List.length (events before)) (events after).

End Effects.

Import Effects.

Declare Scope task_scope.
Delimit Scope task_scope with task.
Notation "x <- t ;; k" := (bind t (fun x => k))
(at level 61, t at next level, right associativity) : task_scope.
Notation "t ;;; k" := (bind t (fun _ => k))
(at level 61, right associativity) : task_scope.

(** ** services/geminiService.ts *)

Module GeminiService.

(** [s.trim().length > 0]. *)
Definition has_content (s : jsstring) : bool :=
  (0 <? JSString.length (trim s))%Z.

Definition push_if_content (chunks : list jsstring) (currentChunk : jsstring)
  : list jsstring :=
  if has_content currentChunk then chunks ++ [currentChunk] else chunks.

(** One turn of [for (const line of lines)], on [(chunks, currentChunk)]. *)
Definition chunk_step (chunkSize : Z) (st : list jsstring * jsstring)
           (line : jsstring) : list jsstring * jsstring :=
  let '(chunks, currentChunk) := st in
  if (JSString.length currentChunk + JSString.length line + 1 >? chunkSize)%Z
  then (push_if_content chunks currentChunk, line ++ [newline])
  else (chunks, currentChunk ++ line ++ [newline]).

(** Splits a large string into smaller chunks based on a character limit,
    at newline characters, so that lines stay intact. *)
Definition createChunks (text : jsstring) (chunkSize : Z) : list jsstring :=
  if (JSString.length text <=? chunkSize)%Z then [text]
  else
    let lines := split newline text in
    let '(chunks, currentChunk) := fold_left (chunk_step chunkSize) lines ([], []) in
    push_if_content chunks currentChunk.

Definition MAX_RETRIES : nat := 3.
Definition INITIAL_BACKOFF_MS : Q := 2000 # 1.
Definition MAX_CHUNK_SIZE : Z := 150000.

Definition prompt_of (statementChunk fileName : jsstring)
           (chunkNumber totalChunks : nat) : jsstring :=
  str "
    Analyze the following portion of a financial statement from the file named "
  ++ [quote] ++ fileName ++ [quote] ++ str ".
    This is part " ++ nat_to_string chunkNumber ++ str " of "
  ++ nat_to_string totalChunks ++ str ".
    The content could be from a PDF, CSV, or TXT file.
    Your task is to meticulously extract all individual financial transactions found ONLY within this specific portion of the text.
    For each transaction, identify the date, a clean description, and the amount.
    Ensure that debits, withdrawals, and payments are represented as negative numbers, and credits or deposits are positive numbers.
    Do not include any opening or closing balance rows, summary information, or page headers/footers in the list of transactions.
    If no transactions are present in this chunk, return an empty array.
    Provide the output in the specified JSON format.

    Statement Portion:
    ---
    " ++ statementChunk ++ str "
    ---
  ".

(** The own properties [{...tx}] copies; only an object gets this far. *)
Definition own_properties (tx : json) : list (jsstring * json) :=
  match tx with
  | JObj props => props
  | _ => []
  end.

(** [date.toISOString().slice(0, 10).replace(/-/g, "")]. *)
Definition compact_date (t : Z) : jsstring :=
  replaceAll 45%N [] (slice0 10 (toISOString t)).

(** The callback of [parsedJson.transactions.map]: [None] is [null]; a
    TypeError escapes when [tx] itself is null, or when its date has no
    primitive value. *)
Definition validateTransaction `{Engine} (tx : json) : jsstring + option json :=
  match get tx (str "date") with
  | inl e => inl e
  | inr date =>
      if negb (truthy_opt date) then inr None
      else
        match get tx (str "description") with
        | inl e => inl e
        | inr description =>
            if negb (truthy_opt description) then inr None
            else
              match get tx (str "amount") with
              | inl e => inl e
              | inr None => inr None
              | inr (Some _) =>
                  match match date with
                        | Some d => new_Date d
                        | None => inr None
                        end with
                  | inl message => inl message
                  | inr None => inr None
                  | inr (Some t) =>
                      inr (Some (JObj (assign (str "date")
                                              (JStr (compact_date t))
                                              (own_properties tx))))
                  end
              end
        end
  end.

(** [items.map(validateTransaction)], stopping at the first throw. *)
Fixpoint map_validate `{Engine} (items : list json) : jsstring + list (option json) :=
  match items with
  | [] => inr []
  | tx :: items' =>
      match validateTransaction tx with
      | inl e => inl e
      | inr r =>
          match map_validate items' with
          | inl e => inl e
          | inr rs => inr (r :: rs)
          end
      end
  end.

(** [.filter(tx => tx !== null)]. *)
Definition filter_not_null (rs : list (option json)) : list json :=
  flat_map (fun r => match r with Some tx => [tx] | None => [] end) rs.

(** The body of the [try] after the call returned: from [response.text]
    to the validated transactions, or the message of what it throws. *)
Definition parseResponse `{Engine} (text : option jsstring) : jsstring + list json :=
  match text with
  | None | Some [] =>
      inl (str "The AI model returned an empty response. This may be due to the file content or safety filters.")
  | Some text =>
      let jsonStartIndex := indexOf 123%N text in
      let jsonEndIndex := lastIndexOf 125%N text in
      if (jsonStartIndex =? -1)%Z || (jsonEndIndex =? -1)%Z
         || (jsonEndIndex <? jsonStartIndex)%Z
      then inl (str "The AI returned data in an unexpected format.")
      else
        let jsonString := substring jsonStartIndex (jsonEndIndex + 1) text in
        match JSON_parse jsonString with
        | inl e => inl e
        | inr parsedJson =>
            match get parsedJson (str "transactions") with
            | inl e => inl e
            | inr transactions =>
                if negb (truthy_opt transactions)
                   || negb (match transactions with
                            | Some v => Array_isArray v
                            | None => false
                            end)
                then inr []
                else
                  match transactions with
                  | Some (JArr items) =>
                      match map_validate items with
                      | inl e => inl e
                      | inr rs => inr (filter_not_null rs)
                      end
                  | _ => inr []
                  end
            end
        end
  end.

(** The [console.error] of the two guards of the [try], which
    [parseResponse] leaves out: one call when the text is missing or
    empty, one when it has no opening brace followed by a closing one. *)
Definition guard_errors (text : option jsstring) : list event :=
  match text with
  | None | Some [] => [ConsoleError]
  | Some text =>
      let jsonStartIndex := indexOf 123%N text in
      let jsonEndIndex := lastIndexOf 125%N text in
      if (jsonStartIndex =? -1)%Z || (jsonEndIndex =? -1)%Z
         || (jsonEndIndex <? jsonStartIndex)%Z
      then [ConsoleError]
      else []
  end.

(** [/rate limit|429/i.test(errorMessage)]. *)
Definition isRateLimitError (errorMessage : jsstring) : bool :=
  test_ci (str "rate limit") errorMessage || test_ci (str "429") errorMessage.

(** [INITIAL_BACKOFF_MS * Math.pow(2, attempt) + Math.random() * 1000],
    in doubles: the product on the left, the product on the right and
    their sum are each rounded. *)
Definition backoff_delay (attempt : nat) (random : Q) : Q :=
  binary64 (binary64 (INITIAL_BACKOFF_MS * inject_Z (2 ^ Z.of_nat attempt))
            + binary64 (random * (1000 # 1)))%Q.

Definition onProgress (message : jsstring) : Task unit := log (Progress message).

(** The message with [(delay / 1000).toFixed(1)]: the quotient is a
    double. *)
Arguments binary64 : simpl never.
Arguments backoff_delay : simpl never.

Definition retry_message `{Engine} (delay : Q) (attempt : nat) : jsstring :=
  str "API is busy. Retrying in "
  ++ toFixed 1 (Finite (binary64 (delay / (1000 # 1))%Q))
  ++ str "s... (Attempt " ++ nat_to_string (attempt + 2) ++ str "/"
  ++ nat_to_string MAX_RETRIES ++ str ")".

(** [for (let attempt = ...; attempt < MAX_RETRIES; attempt++)], with
    [remaining = MAX_RETRIES - attempt] turns left. *)
Fixpoint attempts `{Engine} `{Oracle} (remaining attempt : nat) (prompt : jsstring)
  : Task (list json) :=
  match remaining with
  | O => throw (str "Failed to process a document chunk after multiple retries.")
  | S remaining' =>
      try_catch
        (text <- call_generateContent prompt ;;
         log_all (guard_errors text) ;;;
         lift (parseResponse text))%task
        (fun errorMessage =>
           if isRateLimitError errorMessage && (attempt <? MAX_RETRIES - 1)%nat
           then
             (random <- call_Math_random ;;
              let delay := backoff_delay attempt random in
              onProgress (retry_message delay attempt) ;;;
              sleep delay ;;;
              attempts remaining' (S attempt) prompt)%task
           else (log ConsoleError ;;; throw errorMessage)%task)
  end.

Definition extractTransactionsFromChunk `{Engine} `{Oracle}
           (statementChunk fileName : jsstring) (chunkNumber totalChunks : nat)
  : Task (list json) :=
  attempts MAX_RETRIES 0 (prompt_of statementChunk fileName chunkNumber totalChunks).

(** [for (let i = ...; i < chunks.length; i++)] over the chunks from
    index [i] on, with [allTransactions] so far. *)
Fixpoint process_chunks `{Engine} `{Oracle} (rest : list jsstring) (i total : nat)
         (fileName : jsstring) (allTransactions : list json) : Task (list json) :=
  match rest with
  | [] => ret allTransactions
  | chunk :: rest' =>
      let isMultiChunk := (1 <? total)%nat in
      ((if isMultiChunk
        then onProgress (str "Processing part " ++ nat_to_string (i + 1)
                         ++ str " of " ++ nat_to_string total ++ str "...")
        else ret tt) ;;;
       transactions <-
         try_catch
           (extractTransactionsFromChunk chunk fileName (i + 1) total)
           (fun message =>
              throw (str "Failed to process part " ++ nat_to_string (i + 1)
                     ++ str " of the document. Original error: " ++ message)) ;;
       (if isMultiChunk
        then onProgress (str "Processing part " ++ nat_to_string (i + 1)
                         ++ str " of " ++ nat_to_string total ++ str "... done.") ;;;
             sleep (500 # 1)
        else ret tt) ;;;
       process_chunks rest' (S i) total fileName (allTransactions ++ transactions))%task
  end.

Definition extractTransactionsFromStatement `{Engine} `{Oracle}
           (statementContent fileName : jsstring) : Task (list json) :=
  (onProgress (str "Analyzing statement...") ;;;
   let chunks := createChunks statementContent MAX_CHUNK_SIZE in
   (if (1 <? List.length chunks)%nat
    then onProgress (str "Large file detected. Splitting into "
                     ++ nat_to_string (List.length chunks) ++ str " parts.") ;;;
         sleep (1500 # 1)
    else ret tt) ;;;
   allTransactions <- process_chunks chunks 0 (List.length chunks) fileName [] ;;
   onProgress (str "Finalizing conversion...") ;;;
   ret allTransactions)%task.

End GeminiService.

Import GeminiService.

(** ** types.ts and services/ofxService.ts *)

Module OfxService.

Record Transaction : Type := {
  date : jsstring;         (* YYYYMMDD *)
  description : jsstring;
  amount : number
}.

(** [description.replace(/[^a-zA-Z0-9]/g, '')]. *)
Definition strip_non_alnum (s : jsstring) : jsstring := filter is_alnum s.

Definition generateUniqueId `{Engine} (transaction : Transaction) (index : nat)
  : jsstring :=
  let cleanDesc := slice0 50 (strip_non_alnum (description transaction)) in
  slice0 255 (date transaction ++ str "-" ++ toFixed 2 (amount transaction)
              ++ str "-" ++ cleanDesc ++ str "-" ++ nat_to_string index).

(** [[...transactions].sort((a, b) => a.date.localeCompare(b.date))].
    Array.prototype.sort is stable, and for a consistent comparator its
    result is the one an insertion sort builds: [t] goes before the first
    [u] with [compare(t, u) <= 0]. *)
Fixpoint insert_by_date `{Engine} (t : Transaction) (sorted : list Transaction)
  : list Transaction :=
  match sorted with
  | [] => [t]
  | u :: sorted' =>
      if (localeCompare (date t) (date u) <=? 0)%Z then t :: sorted
      else u :: insert_by_date t sorted'
  end.

Definition sort_by_date `{Engine} (transactions : list Transaction)
  : list Transaction :=
  fold_right insert_by_date [] transactions.

(** [array.map((t, index) => f(t, index))], from [index] on. *)
Fixpoint map_indexed {A B} (f : A -> nat -> B) (index : nat) (l : list A) : list B :=
  match l with
  | [] => []
  | x :: l' => f x index :: map_indexed f (S index) l'
  end.

Definition escape_markup (s : jsstring) : jsstring :=
  replaceAll 62%N (str "&gt;")
    (replaceAll 60%N (str "&lt;") (replaceAll 38%N (str "&amp;") s)).

Definition render_transaction `{Engine} (t : Transaction) (index : nat) : jsstring :=
  str "
<STMTTRN>
<TRNTYPE>" ++ (if gt0 (amount t) then str "CREDIT" else str "DEBIT") ++ str "</TRNTYPE>
<DTPOSTED>" ++ date t ++ str "</DTPOSTED>
<TRNAMT>" ++ toFixed 2 (amount t) ++ str "</TRNAMT>
<FITID>" ++ generateUniqueId t index ++ str "</FITID>
<MEMO>" ++ escape_markup (description t) ++ str "</MEMO>
</STMTTRN>".

Definition dateCreated_of (now : LocalTime) : jsstring :=
  Z_to_string (getFullYear now)
  ++ padStart 2 48%N (Z_to_string (getMonth now + 1))
  ++ padStart 2 48%N (Z_to_string (getDate now)).

Definition bankId : jsstring := str "001".
Definition acctId : jsstring := str "999999-9".
Definition acctType : jsstring := str "CHECKING".
Definition currency : jsstring := str "BRL".

(** The document up to the content of [<DTSTART>]. *)
Definition document_head (dateCreated : jsstring) : jsstring :=
  str "OFXHEADER:100
DATA:OFXSGML
VERSION:102
SECURITY:NONE
ENCODING:USASCII
CHARSET:1252
COMPRESSION:NONE
OLDFILEUID:NONE
NEWFILEUID:NONE
<OFX>
<SIGNONMSGSRSV1>
<SONRS>
<STATUS>
<CODE>0</CODE>
<SEVERITY>INFO</SEVERITY>
</STATUS>
<DTSERVER>" ++ dateCreated ++ str "</DTSERVER>
<LANGUAGE>POR</LANGUAGE>
</SONRS>
</SIGNONMSGSRSV1>
<BANKMSGSRSV1>
<STMTTRNRS>
<TRNUID>1</TRNUID>
<STATUS>
<CODE>0</CODE>
<SEVERITY>INFO</SEVERITY>
</STATUS>
<STMTRS>
<CURDEF>" ++ currency ++ str "</CURDEF>
<BANKACCTFROM>
<BANKID>" ++ bankId ++ str "</BANKID>
<ACCTID>" ++ acctId ++ str "</ACCTID>
<ACCTTYPE>" ++ acctType ++ str "</ACCTTYPE>
</BANKACCTFROM>
<BANKTRANLIST>
<DTSTART>".

(** The document after the transaction list, before [trim]. *)
Definition document_tail (dateCreated : jsstring) : jsstring :=
  str "
</BANKTRANLIST>
<LEDGERBAL>
<BALAMT>0.00</BALAMT>
<DTASOF>" ++ dateCreated ++ str "</DTASOF>
</LEDGERBAL>
</STMTRS>
</STMTTRNRS>
</BANKMSGSRSV1>
</OFX>
".

(** [createOfxContent(transactions)] when [new Date()] reads [now]. *)
Definition createOfxContent `{Engine} (now : LocalTime)
           (transactions : list Transaction) : jsstring :=
  let dateCreated := dateCreated_of now in
  let sortedTransactions := sort_by_date transactions in
  let startDate :=
    match sortedTransactions with
    | first :: _ => date first
    | [] => dateCreated
    end in
  let endDate :=
    if (0 <? List.length sortedTransactions)%nat
    then match nth_error sortedTransactions (List.length sortedTransactions - 1) with
         | Some last => date last
         | None => dateCreated
         end
    else dateCreated in
  let transactionListString :=
    List.concat (map_indexed render_transaction 0 sortedTransactions) in
  trim (document_head dateCreated ++ startDate ++ str "</DTSTART>
<DTEND>" ++ endDate ++ str "</DTEND>" ++ transactionListString
        ++ document_tail dateCreated).

End OfxService.

Import OfxService.

(** ** App.tsx *)

Module App.

Inductive ConversionStatus : Type := Idle | Processing | Success | Error.

(** What pdf.js answers for a file: per page the [str] of its text
    items, or the name of the exception it raises. *)
Inductive pdf_outcome : Type :=
| PdfPages (pages : list (list jsstring))
| PdfException (name : jsstring).

(** What the FileReader answers: [onload] with a result that may be
    missing, or [onerror] with the type of the event. *)
Inductive reader_outcome : Type :=
| Loaded (result : option jsstring)
| ReaderError (type : jsstring).

Record File : Type := {
  name : jsstring;
  type : jsstring;
  pdf : pdf_outcome;
  reader : reader_outcome
}.

Record AppState : Type := {
  file : option File;
  status : ConversionStatus;
  statusMessage : jsstring;
  errorMessage : option jsstring;
  ofxContent : option jsstring
}.

Definition initial_state : AppState :=
  {| file := None; status := Idle;
     statusMessage := str "Ready to convert your file.";
     errorMessage := None; ofxContent := None |}.

Definition pdf_failure : jsstring :=
  str "Failed to process the PDF file. It may be corrupted or in an unsupported format.".

Definition readFileContent (fileToRead : File) : jsstring + jsstring :=
  if JSString.eqb (type fileToRead) (str "application/pdf") then
    match pdf fileToRead with
    | PdfPages pages =>
        let fullText :=
          List.concat (map (fun items =>
                         join (str " ")
                              (filter (fun s => (0 <? JSString.length (trim s))%Z) items)
                         ++ [newline; newline]) pages) in
        (* the error thrown for an empty text is caught and replaced *)
        if JSString.eqb (trim fullText) [] then inl pdf_failure else inr fullText
    | PdfException name =>
        if JSString.eqb name (str "PasswordException")
        then inl (str "The PDF file is password-protected. Please provide an unprotected file.")
        else inl pdf_failure
    end
  else if JSString.eqb (type fileToRead) (str "text/csv")
          || JSString.eqb (type fileToRead) (str "text/plain")
          || endsWith (name fileToRead) (str ".txt") then
    match reader fileToRead with
    | Loaded (Some (c :: result)) => inr (c :: result)
    | Loaded _ => inl (str "Failed to read file content.")
    | ReaderError type => inl (str "File reading error: " ++ type)
    end
  else
    inl (str "Unsupported file type: '"
         ++ (match type fileToRead with [] => str "unknown" | t => t end)
         ++ str "'. Please upload a PDF, CSV, or TXT file.").

(** [await readFileContent(fileToRead)], with the [console.error] of the
    [catch] around the reading of a PDF, which [readFileContent] leaves
    out. *)
Definition call_readFileContent (fileToRead : File) : Task jsstring :=
  match readFileContent fileToRead with
  | inr fileContent => ret fileContent
  | inl message =>
      if JSString.eqb (type fileToRead) (str "application/pdf")
      then (log ConsoleError ;;; throw message)%task
      else throw message
  end.

(** The records as the serializer reads them.  The cast of the source
    checks nothing: a description that is not a string or an amount that
    is not a number makes [createOfxContent] throw a TypeError, whose
    message is the engine's.  The date of a record that the extraction
    hands over is the string [validateTransaction] wrote. *)
Definition as_Transaction (tx : json) : option Transaction :=
  match tx with
  | JObj props =>
      match lookup (str "date") props, lookup (str "description") props,
            lookup (str "amount") props with
      | Some (JStr d), Some (JStr s), Some (JNum a) =>
          Some {| date := d; description := s; amount := a |}
      | _, _, _ => None
      end
  | _ => None
  end.

Fixpoint as_Transactions (txs : list json) : option (list Transaction) :=
  match txs with
  | [] => Some []
  | tx :: txs' =>
      match as_Transaction tx, as_Transactions txs' with
      | Some t, Some ts => Some (t :: ts)
      | _, _ => None
      end
  end.

Definition call_createOfxContent `{Engine} `{Oracle} (transactions : list json)
  : Task jsstring :=
  match as_Transactions transactions with
  | Some txs => ret (createOfxContent Date_now txs)
  | None => throw (member_TypeError_message transactions)
  end.

(** The message [setStatusMessage] last received from [onProgress]. *)
Definition last_progress (default : jsstring) (trace : list event) : jsstring :=
  last (progress_messages trace) default.

Definition handleFileSelect `{Engine} `{Oracle} (selectedFile : File)
  : World -> World * AppState :=
  fun w =>
    let reading := str "Reading file..." in
    let body : Task AppState :=
      (fileContent <- call_readFileContent selectedFile ;;
       if startsWith (trim fileContent) (str "OFXHEADER:") then
         ret {| file := Some selectedFile; status := Success;
                statusMessage := str "Success! This file is already in OFX format.";
                errorMessage := None; ofxContent := Some fileContent |}
       else
         transactions <-
           extractTransactionsFromStatement fileContent (name selectedFile) ;;
         if Nat.eqb (List.length transactions) 0 then
           throw (str "No transactions could be found in the document. Please check the file content and try again.")
         else
           ofxResult <- call_createOfxContent transactions ;;
           ret {| file := Some selectedFile; status := Success;
                  statusMessage :=
                    str "Success! " ++ nat_to_string (List.length transactions)
                    ++ str " transactions converted.";
                  errorMessage := None; ofxContent := Some ofxResult |})%task in
    match body w with
    | (w', inr st) => (w', st)
    | (w', inl message) =>
        let w'' := fst (log ConsoleError w') in
        (w'', {| file := Some selectedFile; status := Error;
                 statusMessage := last_progress reading (new_events w w');
                 errorMessage :=
                   Some (match message with
                         | [] => str "An unknown error occurred."
                         | _ => message
                         end);
                 ofxContent := None |})
    end.

(** [resetState()], the handler of the button "Try Again". *)
Definition resetState (st : AppState) : AppState :=
  {| file := None; status := Idle;
     statusMessage := str "Ready to convert your file.";
     errorMessage := None; ofxContent := None |}.

(** What a click on the link built by [handleDownload] saves. *)
Record Download : Type := {
  download : jsstring;
  blob : jsstring;
  blob_type : jsstring
}.

(** [handleDownload()]: nothing without a content (null or empty) or
    without a file. *)
Definition handleDownload (st : AppState) : option Download :=
  match ofxContent st, file st with
  | Some (c :: content), Some f =>
      let baseName := substring 0 (lastIndexOf 46%N (name f)) (name f) in
      Some {| download := baseName ++ str ".ofx";
              blob := c :: content;
              blob_type := str "application/octet-stream" |}
  | _, _ => None
  end.

(** What [renderStatusDisplay()] shows under the name of the file. *)
Inductive StatusDisplay : Type :=
| Spinner (message : jsstring)
| DownloadButton (message : jsstring)
| TryAgainButton (message : option jsstring).

Definition renderStatusDisplay (st : AppState) : option (jsstring * StatusDisplay) :=
  match status st, file st with
  | Idle, _ | _, None => None
  | Processing, Some f => Some (name f, Spinner (statusMessage st))
  | Success, Some f => Some (name f, DownloadButton (statusMessage st))
  | Error, Some f => Some (name f, TryAgainButton (errorMessage st))
  end.

(** The [disabled] that [App] hands to the uploader. *)
Definition uploader_disabled (st : AppState) : bool :=
  match status st with
  | Processing => true
  | _ => false
  end.

End App.

Import App.

(** ** components/FileUploader.tsx *)

Module FileUploader.

(** What a handler of the component does outside of it: it hands a file
    to [onFileSelect], or opens the dialog of the hidden input. *)
Inductive effect : Type :=
| onFileSelect (selected : File)
| openDialog.

(** [files && files[0]]. *)
Definition first_file (files : option (list File)) : option File :=
  match files with
  | Some (first :: _) => Some first
  | _ => None
  end.

Definition forward (files : option (list File)) : list effect :=
  match first_file files with
  | Some first => [onFileSelect first]
  | None => []
  end.

(** The handlers, on the state [isDragging], for the prop [disabled]. *)
Definition handleFileChange (files : option (list File)) : list effect :=
  forward files.

Definition handleDragEnter (disabled isDragging : bool) : bool :=
  if negb disabled then true else isDragging.

Definition handleDragLeave (isDragging : bool) : bool := false.

Definition handleDragOver (isDragging : bool) : bool := isDragging.

Definition handleDrop (disabled : bool) (files : option (list File))
  : bool * list effect :=
  (false, if negb disabled then forward files else []).

Definition handleClick (disabled : bool) : list effect :=
  if negb disabled then [openDialog] else [].

Inductive classes : Type := disabledClasses | draggingClasses | idleClasses.

Definition getDynamicClasses (disabled isDragging : bool) : classes :=
  if disabled then disabledClasses
  else if isDragging then draggingClasses
  else idleClasses.

(** The events of the drop zone. *)
Inductive zone_event : Type :=
| Click
| Drop (files : option (list File))
| DragOver
| DragEnter
| DragLeave.

Definition handle (disabled isDragging : bool) (e : zone_event)
  : bool * list effect :=
  match e with
  | Click => (isDragging, handleClick disabled)
  | Drop files => handleDrop disabled files
  | DragOver => (handleDragOver isDragging, [])
  | DragEnter => (handleDragEnter disabled isDragging, [])
  | DragLeave => (handleDragLeave isDragging, [])
  end.

(** A sequence of events on the zone, each with the [disabled] of its
    render. *)
Fixpoint handle_all (isDragging : bool) (es : list (bool * zone_event))
  : bool * list effect :=
  match es with
  | [] => (isDragging, [])
  | (disabled, e) :: es' =>
      let '(isDragging', done) := handle disabled isDragging e in
      let '(final, done') := handle_all isDragging' es' in
      (final, done ++ done')
  end.

End FileUploader.

(** ** The vocabulary of the specification *)

Module Spec.

(** A line of whitespace only (the empty line included). *)
Definition blank (line : jsstring) : bool := forallb is_whitespace line.


(** Lines, each closed by a newline. *)
Definition unlines (lines : list jsstring) : jsstring :=
  List.concat (map (fun line => line ++ [newline]) lines).

(** The canonical date: eight ASCII digits. *)
Definition is_YYYYMMDD (s : jsstring) : bool :=
  Nat.eqb (List.length s) 8 && forallb is_digit s.

(** The default collation orders canonical dates as their code units do. *)
Definition collates_dates (E : Engine) : Prop :=
  forall a b, is_YYYYMMDD a = true -> is_YYYYMMDD b = true ->
              (localeCompare a b ?= 0)%Z = JSString.compare a b.

(** Number::toString never needs more than 25 characters. *)
Definition short_numbers (E : Engine) : Prop :=
  forall q, (List.length (Number_toString q) <= 25)%nat.

(** Math.random() is in [0, 1). *)
Definition fair_random (O : Oracle) : Prop :=
  forall n, (0 <= Math_random n)%Q /\ (Math_random n < 1)%Q.

Definition date_le (a b : Transaction) : Prop :=
  JSString.compare (date a) (date b) <> Gt.

Definition free (line : jsstring) : Prop := ~ In newline line.



(** What the [k]-th attempt made from world [w] comes to: the validated
    transactions, or the message the [catch] receives. *)
Definition attempt_outcome `{Engine} `{Oracle} (w : World) (k : nat)
           (prompt : jsstring) : jsstring + list json :=
  match generateContent (api_calls w + k) prompt with
  | Response text => parseResponse text
  | Rejected message => inl message
  end.

(** What the guards of the [k]-th attempt made from world [w] write to
    the console. *)
Definition attempt_log `{Oracle} (w : World) (k : nat) (prompt : jsstring)
  : list event :=
  match generateContent (api_calls w + k) prompt with
  | Response text => guard_errors text
  | Rejected _ => []
  end.

(** The jitter-free part of the backoff before the retry that follows
    attempt [k]. *)
Definition base_delay (k : nat) : Q := inject_Z (2000 * 2 ^ Z.of_nat k).

(** The UTC calendar day of a time value, and its year. *)
Definition utc_day (t : Z) : Z * Z * Z := civil_from_days (t / msPerDay).

Definition utc_year (t : Z) : Z := fst (fst (utc_day t)).

(** The canonical date of a time value: year, month and day of the UTC day
    on four, two and two digits. *)
Definition YYYYMMDD_of (t : Z) : jsstring :=
  let '(y, m, d) := utc_day t in pad 4 y ++ pad 2 m ++ pad 2 d.


(** A transaction of the data model: its date is canonical. *)
Definition canonical (t : Transaction) : Prop := is_YYYYMMDD (date t) = true.

(** A run of lines that is not blank once joined. *)
Definition kept (group : list jsstring) : bool := negb (blank (unlines group)).

(** A chunk within the size, or made of one line only. *)
Definition within (chunkSize : Z) (chunk : jsstring) : Prop :=
  (JSString.length chunk <= chunkSize)%Z
  \/ exists line, ~ In newline line /\ chunk = line ++ [newline].

(** What the loop of [createChunks] maintains, in full: the lines met so far
    are cut into consecutive runs, the last one still open; the chunks
    pushed are the runs with content, in order; every chunk is within the
    size or a single line. *)
Definition parts_inv (chunkSize : Z) (seen : list jsstring)
           (st : list jsstring * jsstring) : Prop :=
  exists (parts : list (list jsstring)) (current : list jsstring),
    List.concat parts ++ current = seen
    /\ fst st = map unlines (filter kept parts)
    /\ snd st = unlines current
    /\ Forall (within chunkSize) (fst st)
    /\ (current = [] \/ within chunkSize (snd st)).

(** The two guards of the [try] before JSON.parse: no text, or no opening
    brace followed by a closing brace. *)
Definition no_json_object (text : option jsstring) : bool :=
  match text with
  | None | Some [] => true
  | Some text =>
      (indexOf 123%N text =? -1)%Z || (lastIndexOf 125%N text =? -1)%Z
      || (lastIndexOf 125%N text <? indexOf 123%N text)%Z
  end.

(** What a record that passed the validation looks like. *)
Definition survivor (tx : json) : Prop :=
  exists (props : list (jsstring * json)) (d : jsstring),
    tx = JObj props
    /\ lookup (str "date") props = Some (JStr d)
    /\ (List.length d <= 10)%nat /\ ~ In 45%N d
    /\ truthy_opt (lookup (str "description") props) = true
    /\ lookup (str "amount") props <> None.

(** The prompts of the parts of a document, from part [i + 1] on. *)
Fixpoint part_prompts (fileName : jsstring) (total i : nat) (chunks : list jsstring)
  : list jsstring :=
  match chunks with
  | [] => []
  | chunk :: chunks' =>
      prompt_of chunk fileName (i + 1) total :: part_prompts fileName total (S i) chunks'
  end.

(** What one character of a description becomes in a MEMO. *)
Definition entity (c : code_unit) : jsstring :=
  if N.eqb c 38 then str "&amp;"
  else if N.eqb c 60 then str "&lt;"
  else if N.eqb c 62 then str "&gt;"
  else [c].

(** A value without a primitive value: an object with an own property
    [toString], or an array that holds such a value. *)
Fixpoint unconvertible (v : json) : bool :=
  match v with
  | JArr items => existsb unconvertible items
  | JObj props =>
      match lookup (str "toString") props with
      | Some _ => true
      | None => false
      end
  | _ => false
  end.

(** The TypeError an entry of the answer makes the validation throw, if
    any: the entry is null, or it passes the three tests and its date
    has no primitive value. *)
Definition thrown `{Engine} (tx : json) : option jsstring :=
  match tx with
  | JNull => Some (TypeError_message (str "date"))
  | JObj props =>
      match lookup (str "date") props with
      | Some d =>
          if truthy_opt (lookup (str "description") props)
             && match lookup (str "amount") props with
                | Some _ => true
                | None => false
                end
             && unconvertible d
          then Some ToPrimitive_message
          else None
      | None => None
      end
  | _ => None
  end.


End Spec.

Import Spec.

(** ** A reference engine and sample inputs *)

Module Sample.

(** [{}] *)
Definition empty_object_text : jsstring := str "{}".

(** [{"transactions":[]}] *)
Definition no_transactions_text : jsstring :=
  str "{" ++ [quote] ++ str "transactions" ++ [quote] ++ str ":[]}".

(** An engine that knows two JSON texts, has no legacy date parser,
    collates by code units, writes large numbers as [1e+21] and reports
    every record of another type than declared as one whose amount is
    [null]. *)
Definition engine : Engine :=
  {| JSON_parse := fun s =>
       if JSString.eqb s empty_object_text then inr (JObj [])
       else if JSString.eqb s no_transactions_text
            then inr (JObj [(str "transactions", JArr [])])
            else inl (str "Unexpected token in JSON");
     Date_parse_legacy := fun _ => None;
     localeCompare := fun a b =>
       match JSString.compare a b with
       | Lt => (-1)%Z
       | Eq => 0%Z
       | Gt => 1%Z
       end;
     Number_toString := fun _ => str "1e+21";
     TypeError_message := fun key =>
       str "Cannot read properties of null (reading '" ++ key ++ str "')";
     ToPrimitive_message := str "Cannot convert object to primitive value";
     member_TypeError_message := fun _ =>
       str "Cannot read properties of null (reading 'toFixed')" |}.

Definition clock : LocalTime :=
  {| getFullYear := 2024; getMonth := 2; getDate := 5; getHours := 9;
     getMinutes := 30; getSeconds := 0; getMilliseconds := 0 |}.

Definition next_day : LocalTime :=
  {| getFullYear := 2024; getMonth := 2; getDate := 6; getHours := 9;
     getMinutes := 30; getSeconds := 0; getMilliseconds := 0 |}.

Definition later_that_day : LocalTime :=
  {| getFullYear := 2024; getMonth := 2; getDate := 5; getHours := 17;
     getMinutes := 45; getSeconds := 12; getMilliseconds := 250 |}.

(** The model is throttled twice, then answers with no transactions. *)
Definition throttled_twice : Oracle :=
  {| generateContent := fun n _ =>
       match n with
       | 0 => Rejected (str "429 Too Many Requests")
       | 1 => Rejected (str "Rate limit exceeded")
       | _ => Response (Some (str "Here is the JSON: " ++ no_transactions_text))
       end;
     Math_random := fun _ => (1 # 2)%Q;
     Date_now := clock |}.

(** The model refuses the first call for a reason that is not a rate limit. *)
Definition refusing : Oracle :=
  {| generateContent := fun _ _ => Rejected (str "API key not valid");
     Math_random := fun _ => (1 # 2)%Q;
     Date_now := clock |}.

Definition text_file (content : jsstring) : File :=
  {| name := str "statement.txt"; type := str "text/plain";
     pdf := PdfException []; reader := Loaded (Some content) |}.

Definition record (d s : jsstring) (a : number) : json :=
  JObj [(str "date", JStr d); (str "description", JStr s); (str "amount", JNum a)].

Definition coffee : json :=
  record (str "2024-03-05") (str "Coffee") (Finite (-45 # 10)).

Definition march_10 : Transaction :=
  {| date := str "20240310"; description := str "Rent & utilities";
     amount := Finite (-1250 # 1) |}.

Definition january_5 : Transaction :=
  {| date := str "20240105"; description := str "Salary";
     amount := Finite (320050 # 100) |}.

Definition january_5_coffee : Transaction :=
  {| date := str "20240105"; description := str "Coffee";
     amount := Finite (-45 # 10) |}.

Definition huge_salary : Transaction :=
  {| date := str "20240105"; description := str "Salary";
     amount := Finite (1000000000000000000000 # 1) |}.

(** A date of 255 characters, more than an identifier can hold. *)
Definition long_date : jsstring := repeat 57%N 255.

Definition long_credit : Transaction :=
  {| date := long_date; description := str "Deposit"; amount := Finite (100 # 1) |}.

Definition long_debit : Transaction :=
  {| date := long_date; description := str "Withdrawal"; amount := Finite (-20 # 1) |}.

(** Two lines that do not fit one chunk of three characters. *)
Definition two_lines : jsstring := str "ab
cd".

(** A page of spaces, longer than a chunk may be. *)
Definition blank_page : jsstring := repeat 32%N 150001.

(** The model answers in prose, without any JSON. *)
Definition chatty : Oracle :=
  {| generateContent := fun _ _ =>
       Response (Some (str "Sorry, I cannot read this statement."));
     Math_random := fun _ => (1 # 2)%Q;
     Date_now := clock |}.

Definition quoted (s : jsstring) : jsstring := [quote] ++ s ++ [quote].

(** ["transactions":[{"date":"2024-03-05","description":"Coffee","amount":-4.5}]] *)
Definition coffee_members : jsstring :=
  quoted (str "transactions") ++ str ":[{" ++ quoted (str "date")
  ++ str ":" ++ quoted (str "2024-03-05") ++ str "," ++ quoted (str "description")
  ++ str ":" ++ quoted (str "Coffee") ++ str "," ++ quoted (str "amount")
  ++ str ":-4.5}]".

Definition coffee_text : jsstring := str "{" ++ coffee_members ++ str "}".

(** [{"transactions":[null]}] *)
Definition null_entry_text : jsstring :=
  str "{" ++ quoted (str "transactions") ++ str ":[null]}".

(** An engine like [engine] that knows these two JSON texts instead. *)
Definition reading_engine : Engine :=
  {| JSON_parse := fun s =>
       if JSString.eqb s coffee_text
       then inr (JObj [(str "transactions", JArr [coffee])])
       else if JSString.eqb s null_entry_text
            then inr (JObj [(str "transactions", JArr [JNull])])
            else inl (str "Unexpected token in JSON");
     Date_parse_legacy := fun _ => None;
     localeCompare := @localeCompare engine;
     Number_toString := @Number_toString engine;
     TypeError_message := @TypeError_message engine;
     ToPrimitive_message := @ToPrimitive_message engine;
     member_TypeError_message := @member_TypeError_message engine |}.

(** The model answers with the coffee, wrapped in prose. *)
Definition helpful : Oracle :=
  {| generateContent := fun _ _ =>
       Response (Some (str "Here you are: " ++ coffee_text ++ str " Anything else?"));
     Math_random := fun _ => (1 # 2)%Q;
     Date_now := clock |}.

(** A spreadsheet, which the converter does not read. *)
Definition spreadsheet : File :=
  {| name := str "statement.xls"; type := str "application/vnd.ms-excel";
     pdf := PdfException []; reader := Loaded (Some (str "05/03;Coffee;-4,50")) |}.

(** The model is throttled twice as for [throttled_twice], and
    Math.random() answers the largest double below 1 it can:
    1 - 2^-52. *)
Definition full_jitter : Oracle :=
  {| generateContent := @generateContent throttled_twice;
     Math_random := fun _ => (4503599627370495 # 4503599627370496)%Q;
     Date_now := clock |}.


End Sample.

(** * Proofs *)

(** ** Strings *)

Section StringFacts.

Lemma eqb_eq (a b : jsstring) : JSString.eqb a b = true <-> a = b.
Proof.
  revert b; induction a as [|x a IH]; intros [|y b]; simpl; split;
    try congruence; try reflexivity.
  - intros H. apply andb_true_iff in H as [Hx Hab].
    apply N.eqb_eq in Hx. apply IH in Hab. congruence.
  - intros H. injection H as -> ->.
    rewrite N.eqb_refl. simpl. now apply IH.
Qed.

Lemma eqb_refl (a : jsstring) : JSString.eqb a a = true.
Proof. now apply eqb_eq. Qed.

Lemma blank_app (a b : jsstring) : blank (a ++ b) = blank a && blank b.
Proof. unfold blank. apply forallb_app. Qed.

Lemma blank_rev (a : jsstring) : blank (rev a) = blank a.
Proof.
  induction a as [|x a IH]; simpl; [reflexivity|].
  rewrite blank_app, IH. simpl. rewrite andb_true_r. apply andb_comm.
Qed.

Lemma blank_trimStart (s : jsstring) : blank (trimStart s) = blank s.
Proof.
  induction s as [|c s IH]; simpl; [reflexivity|].
  destruct (is_whitespace c) eqn:Hc; simpl; rewrite ?Hc; auto.
Qed.

Lemma trimStart_nil (s : jsstring) : trimStart s = [] <-> blank s = true.
Proof.
  induction s as [|c s IH]; simpl; [tauto|].
  destruct (is_whitespace c) eqn:Hc; simpl; [exact IH|].
  split; discriminate.
Qed.

Lemma trim_nil (s : jsstring) : trim s = [] <-> blank s = true.
Proof.
  unfold trim, trimEnd.
  rewrite <- (blank_trimStart s), <- (blank_rev (trimStart s)), <- trimStart_nil.
  split; intros H.
  - apply (f_equal (@rev _)) in H. now rewrite rev_involutive in H.
  - now rewrite H.
Qed.

Lemma has_content_blank (s : jsstring) : has_content s = negb (blank s).
Proof.
  unfold has_content, JSString.length.
  destruct (blank s) eqn:Hb; simpl.
  - apply trim_nil in Hb. now rewrite Hb.
  - destruct (trim s) eqn:Ht.
    + apply trim_nil in Ht. congruence.
    + simpl. apply Z.ltb_lt. lia.
Qed.

Lemma split_not_nil (sep : code_unit) (s : jsstring) : split sep s <> [].
Proof.
  induction s as [|c s IH]; simpl; [discriminate|].
  destruct (N.eqb c sep); [discriminate|].
  destruct (split sep s); [contradiction|discriminate].
Qed.

Lemma split_free (sep : code_unit) (s : jsstring) :
  Forall (fun line => ~ In sep line) (split sep s).
Proof.
  induction s as [|c s IH]; simpl.
  - constructor; auto.
  - destruct (N.eqb_spec c sep) as [->|Hne].
    + constructor; auto.
    + destruct (split sep s) as [|l ls].
      * constructor; [|constructor]. intros [H|[]]. congruence.
      * inversion IH; subst. constructor; auto.
        intros [H|H]; [congruence|auto].
Qed.



Lemma unlines_app (a b : list jsstring) : unlines (a ++ b) = unlines a ++ unlines b.
Proof. unfold unlines. now rewrite map_app, concat_app. Qed.


End StringFacts.

(** ** The chunker *)





(** ** Doubles *)

Lemma pow2_nonpos (e : Z) :
  (e <= 0)%Z -> (pow2 e * inject_Z (2 ^ (- e)) == 1)%Q /\ (0 < 2 ^ (- e))%Z.
Proof.
  intros He. assert (Hpos : (0 < 2 ^ (- e))%Z) by (apply Z.pow_pos_nonneg; lia).
  split; [|exact Hpos]. unfold pow2.
  destruct (Z.leb_spec 0 e).
  - assert (e = 0)%Z by lia. subst e. reflexivity.
  - unfold Qeq, Qmult, inject_Z. cbn [Qnum Qden].
    rewrite Pos2Z.inj_mul, Z2Pos.id by exact Hpos. lia.
Qed.

Lemma round_half_even_ge (k : Z) (x : Q) :
  (inject_Z k <= x)%Q -> (k <= round_half_even x)%Z.
Proof.
  intros Hk. apply Qfloor_resp_le in Hk. rewrite Qfloor_Z in Hk.
  unfold round_half_even.
  destruct (x - inject_Z (Qfloor x) ?= 1 # 2)%Q; [destruct (Z.even _)| |]; lia.
Qed.

Lemma round_half_even_le (k : Z) (x : Q) :
  (x <= inject_Z k)%Q -> (round_half_even x <= k)%Z.
Proof.
  intros Hk. unfold round_half_even.
  pose proof (Qfloor_le x) as Hfloor.
  assert (Hf : (Qfloor x <= k)%Z).
  { apply Qfloor_resp_le in Hk. now rewrite Qfloor_Z in Hk. }
  destruct (Z.eq_dec (Qfloor x) k) as [Heq|Hne].
  - assert (Hx : (x - inject_Z (Qfloor x) <= 0)%Q) by (rewrite Heq; lra).
    destruct (Qcompare_spec (x - inject_Z (Qfloor x)) (1 # 2)) as [H|H|H];
      [lra|lia|lra].
  - destruct (x - inject_Z (Qfloor x) ?= 1 # 2)%Q; [destruct (Z.even _)| |]; lia.
Qed.

Lemma ilog2_small (q : Q) :
  (0 < q)%Q -> (q < inject_Z (2 ^ 53))%Q -> (ilog2 q <= 52)%Z.
Proof.
  intros Hpos Hq. unfold ilog2. destruct q as [n d]. cbn [Qnum Qden].
  unfold Qlt in *. cbn [Qnum Qden inject_Z] in *.
  destruct (Z.leb_spec (Z.pos d) n).
  - assert (Hdiv : (n / Z.pos d < 2 ^ 53)%Z)
      by (apply Z.div_lt_upper_bound; lia).
    assert (H1 : (0 < n / Z.pos d)%Z) by (apply Z.div_str_pos; lia).
    assert (Z.log2 (n / Z.pos d) < 53)%Z by (apply Z.log2_lt_pow2; lia).
    lia.
  - pose proof (Z.log2_up_nonneg ((Z.pos d + n - 1) / n)). lia.
Qed.

(** Rounding never crosses an integer: below 2^53 every integer is a
    double. *)
Lemma binary64_integer (q : Q) (n : Z) :
  (0 <= q)%Q -> (q < inject_Z (2 ^ 53))%Q ->
  ((inject_Z n <= q)%Q -> (inject_Z n <= binary64 q)%Q)
  /\ ((q <= inject_Z n)%Q -> (binary64 q <= inject_Z n)%Q).
Proof.
  intros Hq Hsmall. unfold binary64.
  destruct (Z.eqb_spec (Qnum q) 0) as [Hzero|Hnonzero].
  - assert (Heq : (q == 0)%Q) by (unfold Qeq; simpl; lia).
    split; intros H; lra.
  - assert (Hpos : (0 < q)%Q).
    { unfold Qle, Qlt in *. cbn [Qnum Qden] in *. lia. }
    assert (Habs : Qabs q = q).
    { destruct q as [num den]. unfold Qabs. f_equal.
      unfold Qlt in Hpos. cbn [Qnum Qden] in Hpos. lia. }
    assert (Hsgn : Z.sgn (Qnum q) = 1%Z).
    { unfold Qlt in Hpos. cbn [Qnum Qden] in Hpos. lia. }
    rewrite Habs, Hsgn, Z.mul_1_l.
    set (e := Z.max (ilog2 q - 52) (-1074)).
    assert (He : (e <= 0)%Z) by (pose proof (ilog2_small Hpos Hsmall); lia).
    destruct (pow2_nonpos He) as [Hscale Hs].
    set (s := (2 ^ (- e))%Z) in *.
    assert (Hp : (0 < pow2 e)%Q).
    { destruct (Qlt_le_dec 0 (pow2 e)) as [|Hneg]; [assumption|].
      exfalso. assert (0 < inject_Z s)%Q by (unfold Qlt; simpl; lia). nra. }
    assert (Hdiv : (q / pow2 e == q * inject_Z s)%Q).
    { unfold Qdiv. apply Qmult_comp; [reflexivity|].
      rewrite <- (Qmult_1_l (/ pow2 e)), <- Hscale.
      rewrite (Qmult_comm (pow2 e)), <- Qmult_assoc, Qmult_inv_r by lra. ring. }
    rewrite Qred_correct.
    set (m := round_half_even (q / pow2 e)).
    assert (Hback : forall k : Z, (inject_Z (k * s) * pow2 e == inject_Z k)%Q).
    { intros k. rewrite inject_Z_mult. rewrite <- Qmult_assoc.
      rewrite (Qmult_comm (inject_Z s)), Hscale. ring. }
    split; intros Hn.
    + assert (Hm : (n * s <= m)%Z).
      { apply round_half_even_ge. rewrite Hdiv, inject_Z_mult.
        assert (0 < inject_Z s)%Q by (unfold Qlt; simpl; lia). nra. }
      rewrite <- (Hback n). apply Qmult_le_compat_r; [|lra].
      rewrite <- Zle_Qle. exact Hm.
    + assert (Hm : (m <= n * s)%Z).
      { apply round_half_even_le. rewrite Hdiv, inject_Z_mult.
        assert (0 < inject_Z s)%Q by (unfold Qlt; simpl; lia). nra. }
      rewrite <- (Hback n). apply Qmult_le_compat_r; [|lra].
      rewrite <- Zle_Qle. exact Hm.
Qed.

(** ** The retry loop *)

Lemma new_events_app (w w' : World) (tr : list event) :
  events w' = events w ++ tr -> new_events w w' = tr.
Proof.
  intros E. unfold new_events. rewrite E, skipn_app, skipn_all, Nat.sub_diag.
  reflexivity.
Qed.

Lemma backoff_delay_bounds (k : nat) (r : Q) :
  (k <= 40)%nat -> (0 <= r)%Q -> (r < 1)%Q ->
  (inject_Z (2000 * 2 ^ Z.of_nat k) <= backoff_delay k r)%Q
  /\ (backoff_delay k r <= inject_Z (2000 * 2 ^ Z.of_nat k + 1000))%Q.
Proof.
  intros Hk H0 H1. unfold backoff_delay, INITIAL_BACKOFF_MS.
  set (base := (2000 * 2 ^ Z.of_nat k)%Z).
  assert (Hbase : (2000 <= base <= 2000 * 2 ^ 40)%Z).
  { subst base. split.
    - assert (0 < 2 ^ Z.of_nat k)%Z by (apply Z.pow_pos_nonneg; lia). lia.
    - apply Z.mul_le_mono_nonneg_l; [lia|]. apply Z.pow_le_mono_r; lia. }
  change (2 ^ 40)%Z with 1099511627776%Z in Hbase.
  assert (Hexact : ((2000 # 1) * inject_Z (2 ^ Z.of_nat k) == inject_Z base)%Q).
  { subst base. rewrite inject_Z_mult. reflexivity. }
  assert (Hsmall : forall q : Q, (q <= inject_Z (base + 1000))%Q ->
                     (q < inject_Z (2 ^ 53))%Q).
  { intros q Hq. apply Qle_lt_trans with (inject_Z (base + 1000)); [exact Hq|].
    rewrite <- Zlt_Qlt. change (2 ^ 53)%Z with 9007199254740992%Z. lia. }
  assert (Hpos : (0 <= inject_Z base)%Q) by (rewrite <- (Zle_Qle 0); lia).
  assert (Hstep : (inject_Z (base + 1000) == inject_Z base + (1000 # 1))%Q)
    by (rewrite inject_Z_plus; reflexivity).
  assert (Hleft : (binary64 ((2000 # 1) * inject_Z (2 ^ Z.of_nat k))
                   == inject_Z base)%Q).
  { destruct (@binary64_integer ((2000 # 1) * inject_Z (2 ^ Z.of_nat k)) base)
      as [Hge Hle].
    - rewrite Hexact. exact Hpos.
    - apply Hsmall. rewrite Hexact, Hstep. lra.
    - apply Qle_antisym; [apply Hle|apply Hge]; rewrite Hexact; apply Qle_refl. }
  assert (Hright : (0 <= binary64 (r * (1000 # 1)) <= 1000 # 1)%Q).
  { assert (Hr0 : (0 <= r * (1000 # 1))%Q) by lra.
    assert (Hr1 : (r * (1000 # 1) < inject_Z (2 ^ 53))%Q).
    { apply Hsmall. rewrite Hstep. lra. }
    split.
    - apply (proj1 (@binary64_integer _ 0 Hr0 Hr1)). exact Hr0.
    - apply (proj2 (@binary64_integer _ 1000 Hr0 Hr1)).
      change (inject_Z 1000) with (1000 # 1)%Q. lra. }
  set (l := binary64 ((2000 # 1) * inject_Z (2 ^ Z.of_nat k))) in *.
  set (x := binary64 (r * (1000 # 1))) in *.
  assert (Hsum0 : (0 <= l + x)%Q) by lra.
  assert (Hsum1 : (l + x < inject_Z (2 ^ 53))%Q)
    by (apply Hsmall; rewrite Hstep; lra).
  split.
  - apply (proj1 (@binary64_integer _ base Hsum0 Hsum1)). lra.
  - apply (proj2 (@binary64_integer _ (base + 1000) Hsum0 Hsum1)).
    rewrite Hstep. lra.
Qed.

(** Closes the conjuncts of the policy once the run is in closed form. *)
Ltac retry_cases Hjit :=
  repeat split; intros;
  repeat match goal with
    | H : inl _ = inl _ |- _ => injection H as H; subst
    | H : inr _ = inr _ |- _ => injection H as H; subst
    | H : inl _ = inr _ |- _ => discriminate H
    | H : inr _ = inl _ |- _ => discriminate H
    | H : Some _ = Some _ |- _ => injection H as H; subst
    | H : None = Some _ |- _ => discriminate H
    | H : nth_error [] ?k = Some _ |- _ => destruct k; discriminate H
    | H : nth_error (_ :: _) ?k = Some _ |- _ => destruct k; simpl in H
    | H : (?k < _)%nat |- exists e, attempt_outcome _ ?k _ = _ /\ _ =>
        destruct k as [|[|k]]; first [solve [eauto] | exfalso; simpl in H; lia]
    | H : (_ < 0)%nat |- _ => inversion H
    | |- backoff_delay _ _ = binary64 _ =>
        rewrite ?Nat.add_0_r, ?Nat.add_1_r; reflexivity
    | |- (_ <= backoff_delay _ _)%Q => apply Hjit; lia
    | |- (backoff_delay _ _ <= _)%Q => apply Hjit; lia
    end;
  try (unfold MAX_RETRIES; lia); try congruence; auto.

Section Retry.
Context `{E : Engine} `{O : Oracle}.

(** A guard that writes to the console fails the attempt with a
    message that is no rate limit. *)
Lemma guard_errors_cases (text : option jsstring) :
  (guard_errors text = [] \/
   guard_errors text = [ConsoleError]
   /\ exists e, parseResponse text = inl e /\ isRateLimitError e = false)
  /\ (forall txs, parseResponse text = inr txs -> guard_errors text = []).
Proof.
  unfold guard_errors, parseResponse.
  destruct text as [[|c text]|].
  - split; [right; split; [reflexivity|]; eexists; split; reflexivity|discriminate].
  - cbv zeta. destruct (_ || _).
    + split; [right; split; [reflexivity|]; eexists; split; reflexivity|discriminate].
    + split; [now left|reflexivity].
  - split; [right; split; [reflexivity|]; eexists; split; reflexivity|discriminate].
Qed.

Lemma attempts_S (remaining attempt : nat) (prompt : jsstring) (w : World) :
  attempts (S remaining) attempt prompt w =
  match attempt_outcome w 0 prompt with
  | inr txs =>
      ({| api_calls := S (api_calls w); random_draws := random_draws w;
          events := events w ++ [Request prompt] |}, inr txs)
  | inl errorMessage =>
      if isRateLimitError errorMessage && (attempt <? MAX_RETRIES - 1)%nat then
        let delay := backoff_delay attempt (Math_random (random_draws w)) in
        attempts remaining (S attempt) prompt
                 {| api_calls := S (api_calls w); random_draws := S (random_draws w);
                    events := events w ++ [Request prompt;
                                           Progress (retry_message delay attempt);
                                           Wait delay] |}
      else ({| api_calls := S (api_calls w); random_draws := random_draws w;
               events := events w ++ [Request prompt] ++ attempt_log w 0 prompt
                         ++ [ConsoleError] |},
            inl errorMessage)
  end.
Proof.
  unfold attempt_outcome, attempt_log. rewrite Nat.add_0_r. simpl.
  unfold try_catch, bind, call_generateContent, lift, log_all.
  destruct (generateContent (api_calls w) prompt) as [text|message].
  - destruct (guard_errors_cases text) as [[Hquiet|(Hloud & e & He & Hrate)] Hok].
    + rewrite Hquiet. cbn [api_calls random_draws events]. rewrite app_nil_r.
      destruct (parseResponse text) as [e|txs]; [|reflexivity].
      destruct (isRateLimitError e && _); simpl; rewrite <- ?app_assoc; reflexivity.
    + rewrite Hloud, He, Hrate. simpl. rewrite <- ?app_assoc. reflexivity.
  - destruct (isRateLimitError message && _); simpl; rewrite <- ?app_assoc; reflexivity.
Qed.

Lemma attempt_log_quiet (w : World) (k : nat) (prompt : jsstring) :
  waits (attempt_log w k prompt) = []
  /\ requests (attempt_log w k prompt) = []
  /\ progress_messages (attempt_log w k prompt) = [].
Proof.
  unfold attempt_log. destruct (generateContent _ prompt) as [text|message];
    [|repeat split].
  destruct (guard_errors_cases text) as [[->|[-> _]] _]; repeat split.
Qed.

Lemma attempt_log_shift (w w' : World) (k : nat) (prompt : jsstring) :
  api_calls w' = api_calls w + k ->
  attempt_log w' 0 prompt = attempt_log w k prompt.
Proof. unfold attempt_log. intros ->. now rewrite Nat.add_0_r. Qed.

Lemma attempt_outcome_shift (w w' : World) (k : nat) (prompt : jsstring) :
  api_calls w' = api_calls w + k ->
  attempt_outcome w' 0 prompt = attempt_outcome w k prompt.
Proof. unfold attempt_outcome. intros ->. now rewrite Nat.add_0_r. Qed.

(** The loop in closed form: what the three attempts come to decides the
    world and the result. *)
Lemma extractTransactionsFromChunk_cases (statementChunk fileName : jsstring)
      (chunkNumber totalChunks : nat) (w : World) :
  let prompt := prompt_of statementChunk fileName chunkNumber totalChunks in
  let run := extractTransactionsFromChunk statementChunk fileName chunkNumber totalChunks w in
  let d0 := backoff_delay 0 (Math_random (random_draws w)) in
  let d1 := backoff_delay 1 (Math_random (S (random_draws w))) in
  let stop n tr r :=
    api_calls (fst run) = api_calls w + n /\ new_events w (fst run) = tr
    /\ snd run = r in
  match attempt_outcome w 0 prompt with
  | inr txs => stop 1 [Request prompt] (inr txs)
  | inl e0 =>
      if isRateLimitError e0 then
        match attempt_outcome w 1 prompt with
        | inr txs =>
            stop 2 [Request prompt; Progress (retry_message d0 0); Wait d0;
                    Request prompt] (inr txs)
        | inl e1 =>
            if isRateLimitError e1 then
              stop 3 ([Request prompt; Progress (retry_message d0 0); Wait d0;
                       Request prompt; Progress (retry_message d1 1); Wait d1;
                       Request prompt]
                        ++ match attempt_outcome w 2 prompt with
                           | inr _ => []
                           | inl _ => attempt_log w 2 prompt ++ [ConsoleError]
                           end)
                   (attempt_outcome w 2 prompt)
            else
              stop 2 ([Request prompt; Progress (retry_message d0 0); Wait d0;
                       Request prompt] ++ attempt_log w 1 prompt ++ [ConsoleError])
                   (inl e1)
        end
      else stop 1 ([Request prompt] ++ attempt_log w 0 prompt ++ [ConsoleError])
                  (inl e0)
  end.
Proof.
  intros prompt run d0 d1 stop. subst run stop.
  unfold extractTransactionsFromChunk. fold prompt.
  change MAX_RETRIES with 3. rewrite attempts_S.
  destruct (attempt_outcome w 0 prompt) as [e0|txs0] eqn:E0.
  2: { simpl. repeat split; [lia|]. now apply new_events_app. }
  change (0 <? MAX_RETRIES - 1)%nat with true. rewrite andb_true_r.
  destruct (isRateLimitError e0).
  2: { cbn [fst snd api_calls events]. repeat split; [lia|]. now apply new_events_app. }
  cbv zeta. rewrite attempts_S.
  rewrite (@attempt_outcome_shift w _ 1), (@attempt_log_shift w _ 1)
    by (simpl; lia).
  destruct (attempt_outcome w 1 prompt) as [e1|txs1] eqn:E1.
  2: { simpl. repeat split; [lia|]. apply new_events_app. simpl.
       now rewrite <- app_assoc. }
  change (1 <? MAX_RETRIES - 1)%nat with true. rewrite andb_true_r.
  destruct (isRateLimitError e1).
  2: { cbn [fst snd api_calls events]. repeat split; [lia|]. apply new_events_app.
       now rewrite <- app_assoc. }
  cbv zeta. rewrite attempts_S.
  rewrite (@attempt_outcome_shift w _ 2), (@attempt_log_shift w _ 2)
    by (simpl; lia).
  destruct (attempt_outcome w 2 prompt) as [e2|txs2] eqn:E2.
  - change (2 <? MAX_RETRIES - 1)%nat with false. rewrite andb_false_r.
    cbn [fst snd api_calls events]. repeat split; [lia|].
    apply new_events_app. now rewrite <- !app_assoc.
  - simpl. repeat split; [lia|].
    apply new_events_app. simpl. now rewrite <- !app_assoc.
Qed.

(** C1, as the code has it: a chunk extraction calls the model at most
    three times; an attempt is followed by another one only when it failed
    with a message classified as a rate limit, after one wait; the wait
    before the retry of attempt [k] is the double
    2000 * 2^k + Math.random() * 1000 as the code computes it, each
    operation rounded, which lies between 2000 * 2^k and 2000 * 2^k + 1000,
    both included: the rounding of the sum lets the jitter reach 1000.  The
    result is what the last attempt made comes to, so a failure that is
    not a rate limit is raised at once, without a wait, and the failure of
    the third attempt is raised as it is.  Two rate-limit failures
    followed by a success give the success after exactly two waits. *)
Theorem retry_policy (statementChunk fileName : jsstring)
        (chunkNumber totalChunks : nat) (w : World) :
  fair_random O ->
  let prompt := prompt_of statementChunk fileName chunkNumber totalChunks in
  let run := extractTransactionsFromChunk statementChunk fileName chunkNumber totalChunks w in
  let made := (api_calls (fst run) - api_calls w)%nat in
  let trace := new_events w (fst run) in
  let pauses := waits trace in
  (1 <= made <= MAX_RETRIES)%nat
  /\ requests trace = repeat prompt made
  /\ (forall k, (k < made - 1)%nat ->
       exists e, attempt_outcome w k prompt = inl e /\ isRateLimitError e = true)
  /\ snd run = attempt_outcome w (made - 1) prompt
  /\ (forall e, snd run = inl e -> isRateLimitError e = false \/ made = MAX_RETRIES)
  /\ List.length pauses = (made - 1)%nat
  /\ (forall k d, nth_error pauses k = Some d ->
       d = binary64 (binary64 ((2000 # 1) * inject_Z (2 ^ Z.of_nat k))
                     + binary64 (Math_random (random_draws w + k) * (1000 # 1)))%Q
       /\ (inject_Z (2000 * 2 ^ Z.of_nat k) <= d)%Q
       /\ (d <= inject_Z (2000 * 2 ^ Z.of_nat k + 1000))%Q)
  /\ (forall e0 e1 txs,
       attempt_outcome w 0 prompt = inl e0 -> isRateLimitError e0 = true ->
       attempt_outcome w 1 prompt = inl e1 -> isRateLimitError e1 = true ->
       attempt_outcome w 2 prompt = inr txs ->
       snd run = inr txs /\ List.length pauses = 2%nat)
  /\ (forall e, attempt_outcome w 0 prompt = inl e -> isRateLimitError e = false ->
       snd run = inl e /\ made = 1%nat /\ pauses = []).
Proof.
  intros Hfair prompt run made trace pauses.
  pose proof (extractTransactionsFromChunk_cases statementChunk fileName
                chunkNumber totalChunks w) as Hcases.
  cbv zeta in Hcases. fold prompt run in Hcases.
  assert (Hjit : forall k n, (k <= 40)%nat ->
               (inject_Z (2000 * 2 ^ Z.of_nat k) <= backoff_delay k (Math_random n))%Q
               /\ (backoff_delay k (Math_random n)
                   <= inject_Z (2000 * 2 ^ Z.of_nat k + 1000))%Q).
  { intros k n Hk. destruct (Hfair n). now apply backoff_delay_bounds. }
  destruct (attempt_log_quiet w 0 prompt) as (Hw0 & Hr0 & _).
  destruct (attempt_log_quiet w 1 prompt) as (Hw1 & Hr1 & _).
  destruct (attempt_log_quiet w 2 prompt) as (Hw2 & Hr2 & _).
  unfold waits, requests in Hw0, Hr0, Hw1, Hr1, Hw2, Hr2.
  destruct (attempt_outcome w 0 prompt) as [e0|txs0] eqn:E0.
  2: { destruct Hcases as (Hc & Ht & Hr).
       assert (Hm : made = 1%nat) by (subst made; lia).
       subst pauses trace. rewrite Ht, Hm, Hr. simpl. retry_cases Hjit. }
  destruct (isRateLimitError e0) eqn:R0.
  2: { destruct Hcases as (Hc & Ht & Hr).
       assert (Hm : made = 1%nat) by (subst made; lia).
       subst pauses trace. rewrite Ht, Hm, Hr.
       unfold waits, requests. rewrite !flat_map_app, Hw0, Hr0. simpl.
       retry_cases Hjit. }
  destruct (attempt_outcome w 1 prompt) as [e1|txs1] eqn:E1.
  2: { destruct Hcases as (Hc & Ht & Hr).
       assert (Hm : made = 2%nat) by (subst made; lia).
       subst pauses trace. rewrite Ht, Hm, Hr. simpl. retry_cases Hjit. }
  destruct (isRateLimitError e1) eqn:R1.
  2: { destruct Hcases as (Hc & Ht & Hr).
       assert (Hm : made = 2%nat) by (subst made; lia).
       subst pauses trace. rewrite Ht, Hm, Hr.
       unfold waits, requests. rewrite !flat_map_app, Hw1, Hr1. simpl.
       retry_cases Hjit. }
  destruct Hcases as (Hc & Ht & Hr).
  assert (Hm : made = 3%nat) by (subst made; lia).
  subst pauses trace. rewrite Ht, Hm, Hr.
  unfold waits, requests. rewrite !flat_map_app.
  destruct (attempt_outcome w 2 prompt) as [e2|txs2] eqn:E2;
    rewrite ?flat_map_app, ?Hw2, ?Hr2; simpl; retry_cases Hjit.
Qed.
End Retry.

Lemma fair_half (O : Oracle) :
  (forall n, Math_random n = (1 # 2)%Q) -> fair_random O.
Proof. intros Hhalf n. rewrite Hhalf. unfold Qle, Qlt. simpl. lia. Qed.

Lemma retry_policy_witness :
  fair_random Sample.throttled_twice
  /\ (let run := @extractTransactionsFromChunk Sample.engine Sample.throttled_twice
                   (str "05/03 Coffee -4,50") (str "statement.txt") 1 1 initial_world in
      snd run = inr []
      /\ List.length (waits (new_events initial_world (fst run))) = 2%nat).
Proof.
  assert (Hfair : fair_random Sample.throttled_twice)
    by (apply fair_half; reflexivity).
  split; [exact Hfair|].
  pose proof (@retry_policy Sample.engine Sample.throttled_twice
                (str "05/03 Coffee -4,50") (str "statement.txt") 1 1
                initial_world Hfair) as H.
  cbv zeta in H. cbv zeta.
  destruct H as (_ & _ & _ & _ & _ & _ & _ & Hscenario & _).
  eapply Hscenario; reflexivity.
Defined.

(** C1, as the claim states it, fails at the edge of the jitter: when
    Math.random() answers 1 - 2^-52, a double below 1, the first wait is
    3000 ms and the second 5000 ms, so the jitter is 1000 both times and
    not below it. *)
Lemma retry_policy_jitter_reaches_1000 :
  let r := @Math_random Sample.full_jitter 0 in
  let run := @extractTransactionsFromChunk Sample.engine Sample.full_jitter
               (str "05/03 Coffee -4,50") (str "statement.txt") 1 1 initial_world in
  ((0 <= r)%Q /\ (r < 1)%Q /\ binary64 r = r)
  /\ snd run = inr []
  /\ waits (new_events initial_world (fst run)) = [3000 # 1; 5000 # 1]%Q.
Proof.
  split; [split; [|split]|split].
  - unfold Qle. simpl. lia.
  - unfold Qlt. simpl. lia.
  - vm_compute. reflexivity.
  - vm_compute. reflexivity.
  - vm_compute. reflexivity.
Qed.

(** The seconds announced are the double [delay / 1000] written with one
    decimal: 2050 ms give 2.0, the double nearest to 2.05 being below it. *)
Example retry_message_2050 :
  @retry_message Sample.engine (2050 # 1)%Q 0
  = str "API is busy. Retrying in 2.0s... (Attempt 2/3)".
Proof. vm_compute. reflexivity. Qed.

(** ** Decimal digits *)

Lemma digits_le_bound (fuel : nat) (n : N) :
  Forall (fun d => (d < 10)%N) (digits_le fuel n).
Proof.
  revert n. induction fuel as [|fuel IH]; intros n; simpl; [constructor|].
  destruct (N.ltb_spec n 10).
  - constructor; [assumption|constructor].
  - constructor; [|apply IH]. apply N.mod_lt. discriminate.
Qed.

Lemma digits_le_length (fuel : nat) (n : N) (k : nat) :
  (n < 10 ^ N.of_nat (S k))%N -> (List.length (digits_le fuel n) <= S k)%nat.
Proof.
  revert n k. induction fuel as [|fuel IH]; intros n k Hn; simpl; [lia|].
  destruct (N.ltb_spec n 10); simpl; [lia|].
  destruct k as [|k].
  - change (10 ^ N.of_nat 1)%N with 10%N in Hn. lia.
  - apply le_n_S, IH.
    rewrite Nat2N.inj_succ, N.pow_succ_r' in Hn.
    apply N.Div0.div_lt_upper_bound. exact Hn.
Qed.

Lemma digits_le_not_nil (fuel : nat) (n : N) : digits_le (S fuel) n <> [].
Proof. simpl. destruct (n <? 10)%N; discriminate. Qed.

(** The number a list of digits, least significant first, stands for. *)
Lemma digits_le_value (fuel : nat) (n : N) :
  (n < 2 ^ N.of_nat fuel)%N ->
  fold_right (fun d acc => (d + 10 * acc)%N) 0%N (digits_le fuel n) = n.
Proof.
  revert n. induction fuel as [|fuel IH]; intros n Hn; cbn [digits_le].
  - change (2 ^ N.of_nat 0)%N with 1%N in Hn. cbn [fold_right]. lia.
  - destruct (N.ltb_spec n 10); cbn [fold_right]; [lia|].
    rewrite IH.
    + pose proof (N.div_mod n 10 ltac:(discriminate)). lia.
    + rewrite Nat2N.inj_succ, N.pow_succ_r' in Hn.
      apply N.Div0.div_lt_upper_bound. lia.
Qed.

Lemma N_to_string_fuel (n : N) : (n < 2 ^ N.of_nat (S (N.to_nat (N.log2 n))))%N.
Proof.
  rewrite Nat2N.inj_succ, N2Nat.id.
  destruct n as [|p]; [reflexivity|].
  apply N.log2_spec. reflexivity.
Qed.

Lemma N_to_string_inj (n m : N) : N_to_string n = N_to_string m -> n = m.
Proof.
  unfold N_to_string. intros H.
  assert (Hinj : forall a b : list N, map digit_char a = map digit_char b -> a = b).
  { induction a as [|x a IH]; intros [|y b] Hab; simpl in Hab;
      try discriminate; [reflexivity|].
    injection Hab as Hxy Hab. unfold digit_char in Hxy.
    f_equal; [lia|auto]. }
  apply Hinj in H. apply (f_equal (@rev N)) in H. rewrite !rev_involutive in H.
  rewrite <- (@digits_le_value _ _ (N_to_string_fuel n)),
          <- (@digits_le_value _ _ (N_to_string_fuel m)), H.
  reflexivity.
Qed.

Lemma N_to_string_digits (n : N) : forallb is_digit (N_to_string n) = true.
Proof.
  unfold N_to_string. apply forallb_forall. intros c Hc.
  apply in_map_iff in Hc as (d & <- & Hd). apply in_rev in Hd.
  pose proof (digits_le_bound (S (N.to_nat (N.log2 n))) n) as Hall.
  rewrite Forall_forall in Hall. specialize (Hall d Hd).
  unfold is_digit, digit_char. apply andb_true_iff.
  split; apply N.leb_le; lia.
Qed.

Lemma N_to_string_length (n : N) (k : nat) :
  (n < 10 ^ N.of_nat (S k))%N ->
  (1 <= List.length (N_to_string n) <= S k)%nat.
Proof.
  intros Hn. unfold N_to_string. rewrite length_map, length_rev. split.
  - pose proof (@digits_le_not_nil (N.to_nat (N.log2 n)) n).
    destruct (digits_le _ n); [contradiction|simpl; lia].
  - now apply digits_le_length.
Qed.

Lemma nat_to_string_inj (i j : nat) : nat_to_string i = nat_to_string j -> i = j.
Proof. intros H. apply N_to_string_inj in H. lia. Qed.

Lemma digits_no_char (c : code_unit) (s : jsstring) :
  forallb is_digit s = true -> is_digit c = false -> ~ In c s.
Proof.
  intros Hs Hc Hin. rewrite forallb_forall in Hs. apply Hs in Hin. congruence.
Qed.

(** ** Dates *)

Lemma civil_from_days_range (z : Z) :
  let '(y, m, d) := civil_from_days z in
  (1 <= m <= 12 /\ 1 <= d <= 31)%Z.
Proof.
  unfold civil_from_days.
  set (z' := (z + 719468)%Z).
  set (era := (z' / 146097)%Z).
  set (doe := (z' - era * 146097)%Z).
  assert (Hdoe : (0 <= doe <= 146096)%Z).
  { subst doe era. pose proof (Z.div_mod z' 146097 ltac:(lia)).
    pose proof (Z.mod_pos_bound z' 146097 ltac:(lia)). lia. }
  clearbody doe. clear z z' era.
  set (yoe := ((doe - doe / 1460 + doe / 36524 - doe / 146096) / 365)%Z).
  set (doy := (doe - (365 * yoe + yoe / 4 - yoe / 100))%Z).
  assert (Hdoy : (0 <= doy <= 365)%Z).
  { subst doy yoe. Z.div_mod_to_equations; lia. }
  clearbody doy.
  set (mp := ((5 * doy + 2) / 153)%Z).
  assert (Hmp : (0 <= mp <= 11)%Z) by (subst mp; Z.div_mod_to_equations; lia).
  destruct (Z.ltb_spec mp 10).
  - split; [lia|]. subst mp. Z.div_mod_to_equations. lia.
  - split; [lia|]. subst mp. Z.div_mod_to_equations. lia.
Qed.

Lemma pad_digits (k : nat) (z : Z) : forallb is_digit (pad k z) = true.
Proof.
  unfold pad, padStart. rewrite forallb_app, N_to_string_digits, andb_true_r.
  apply forallb_forall. intros c Hc. apply repeat_spec in Hc. now subst c.
Qed.

Lemma pad_length (k : nat) (z : Z) :
  (0 <= z < 10 ^ Z.of_nat (S k))%Z -> List.length (pad (S k) z) = S k.
Proof.
  intros Hz. unfold pad, padStart.
  assert (Hn : (Z.to_N z < 10 ^ N.of_nat (S k))%N).
  { apply N2Z.inj_lt. rewrite N2Z.inj_pow, Z2N.id, nat_N_Z by lia. simpl. lia. }
  pose proof (N_to_string_length Hn).
  rewrite length_app, repeat_length. lia.
Qed.

Lemma replaceAll_absent (c : code_unit) (r s : jsstring) :
  ~ In c s -> replaceAll c r s = s.
Proof.
  unfold replaceAll. induction s as [|x s IH]; simpl; intros Hc; [reflexivity|].
  destruct (N.eqb_spec x c) as [->|_]; [tauto|].
  simpl. f_equal. apply IH. tauto.
Qed.

Lemma replaceAll_app (c : code_unit) (r a b : jsstring) :
  replaceAll c r (a ++ b) = replaceAll c r a ++ replaceAll c r b.
Proof. unfold replaceAll. apply flat_map_app. Qed.

Lemma firstn_exact {A} (n : nat) (a b : list A) :
  List.length a = n -> firstn n (a ++ b) = a.
Proof.
  intros <-. rewrite firstn_app, Nat.sub_diag, firstn_all. simpl.
  apply app_nil_r.
Qed.

(** Between the years 0 and 9999 the compact date is the canonical one. *)
Lemma compact_date_canonical (t : Z) :
  (0 <= utc_year t <= 9999)%Z ->
  compact_date t = YYYYMMDD_of t /\ is_YYYYMMDD (compact_date t) = true.
Proof.
  unfold utc_year, YYYYMMDD_of, compact_date, toISOString, utc_day.
  pose proof (civil_from_days_range (t / msPerDay)) as Hrange.
  destruct (civil_from_days (t / msPerDay)) as [[y m] d]. simpl fst.
  destruct Hrange as [Hm Hd]. intros Hy. unfold iso_year.
  replace ((0 <=? y)%Z && (y <=? 9999)%Z) with true
    by (symmetry; apply andb_true_iff; split; apply Z.leb_le; lia).
  assert (Ly : List.length (pad 4 y) = 4%nat) by (apply pad_length; simpl; lia).
  assert (Lm : List.length (pad 2 m) = 2%nat) by (apply pad_length; simpl; lia).
  assert (Ld : List.length (pad 2 d) = 2%nat) by (apply pad_length; simpl; lia).
  assert (Hfree : forall k z, ~ In 45%N (pad k z)).
  { intros k z. apply digits_no_char; [apply pad_digits|reflexivity]. }
  set (rest := str "T" ++ _).
  replace (pad 4 y ++ str "-" ++ pad 2 m ++ str "-" ++ pad 2 d ++ rest)
    with ((pad 4 y ++ str "-" ++ pad 2 m ++ str "-" ++ pad 2 d) ++ rest)
    by (now rewrite <- !app_assoc).
  unfold slice0. rewrite firstn_exact
    by (rewrite !length_app, Ly, Lm, Ld; reflexivity).
  rewrite !replaceAll_app.
  rewrite (@replaceAll_absent 45%N [] _ (Hfree 4%nat y)),
    (@replaceAll_absent 45%N [] _ (Hfree 2%nat m)),
    (@replaceAll_absent 45%N [] _ (Hfree 2%nat d)).
  change (replaceAll 45%N [] (str "-")) with (@nil code_unit). simpl app.
  split; [reflexivity|].
  unfold is_YYYYMMDD. rewrite !length_app, Ly, Lm, Ld, !forallb_app, !pad_digits.
  reflexivity.
Qed.

(** ** Validation of the records *)

Lemma lookup_assign_same (key : jsstring) (v : json) (props : list (jsstring * json)) :
  lookup key (assign key v props) = Some v.
Proof.
  induction props as [|[k w] props IH]; simpl.
  - now rewrite eqb_refl.
  - destruct (JSString.eqb k key) eqn:Hk; simpl; rewrite Hk; auto.
Qed.

Lemma lookup_assign_other (key k : jsstring) (v : json) (props : list (jsstring * json)) :
  key <> k -> lookup key (assign k v props) = lookup key props.
Proof.
  intros Hne. induction props as [|[k' w] props IH]; simpl.
  - destruct (JSString.eqb k key) eqn:Hk; [|reflexivity].
    apply eqb_eq in Hk. congruence.
  - destruct (JSString.eqb k' k) eqn:Hk'; simpl.
    + apply eqb_eq in Hk'. subst k'.
      destruct (JSString.eqb k key) eqn:Hk; [|reflexivity].
      apply eqb_eq in Hk. congruence.
    + destruct (JSString.eqb k' key); auto.
Qed.

(** An induction over JSON values that reaches the elements of arrays. *)
Lemma json_elements_ind (P : json -> Prop) :
  P JNull -> (forall b, P (JBool b)) -> (forall n, P (JNum n)) ->
  (forall s, P (JStr s)) ->
  (forall items, Forall P items -> P (JArr items)) ->
  (forall props, P (JObj props)) ->
  forall v, P v.
Proof.
  intros Hnull Hbool Hnum Hstr Harr Hobj.
  fix IH 1. intros [|b|n|s|items|props].
  - exact Hnull.
  - apply Hbool.
  - apply Hnum.
  - apply Hstr.
  - apply Harr. induction items as [|e items IHitems]; constructor.
    + apply IH.
    + exact IHitems.
  - apply Hobj.
Qed.

Section Validation.
Context `{E : Engine}.


(** ToString throws exactly on the values without a primitive value. *)
Lemma ToString_unconvertible (v : json) :
  if unconvertible v then ToString v = inl ToPrimitive_message
  else exists s, ToString v = inr s.
Proof.
  induction v as [|b|n|s|items IH|props] using json_elements_ind;
    cbn [unconvertible ToString]; eauto.
  - match goal with
    | |- context [match ?elements items with _ => _ end] =>
        assert (Helements :
                  if existsb unconvertible items
                  then elements items = inl ToPrimitive_message
                  else exists ss, elements items = inr ss)
    end.
    { induction IH as [|e items He _ IHitems]; cbn [existsb]; [eauto|].
      destruct (unconvertible e) eqn:Hunc; cbn [orb].
      - destruct e; try discriminate; now rewrite He.
      - assert (Hs : exists s, match e with
                               | JNull => inr []
                               | _ => ToString e
                               end = inr s)
          by (destruct e; eauto).
        destruct Hs as [s ->].
        destruct (existsb unconvertible items).
        + now rewrite IHitems.
        + destruct IHitems as [ss ->]. eauto. }
    destruct (existsb unconvertible items).
    + now rewrite Helements.
    + destruct Helements as [ss ->]. eauto.
  - destruct (lookup (str "toString") props); eauto.
Qed.

(** [new Date(v)] throws exactly on the values without a primitive
    value. *)
Lemma new_Date_unconvertible (v : json) :
  if unconvertible v then new_Date v = inl ToPrimitive_message
  else exists t, new_Date v = inr t.
Proof.
  pose proof (ToString_unconvertible v) as Hv.
  destruct v as [|b|n|s|items|props]; cbn [unconvertible new_Date] in *; eauto.
  - destruct (existsb unconvertible items).
    + now rewrite Hv.
    + destruct Hv as [s ->]. eauto.
  - destruct (lookup (str "toString") props).
    + now rewrite Hv.
    + destruct Hv as [s ->]. eauto.
Qed.

(** What the validation of one entry throws. *)
Lemma validateTransaction_thrown (tx : json) :
  match thrown tx with
  | Some message => validateTransaction tx = inl message
  | None => exists r, validateTransaction tx = inr r
  end.
Proof.
  destruct tx as [|b|n|s|items|props]; cbn [thrown].
  1: reflexivity.
  1-4: eexists; reflexivity.
  unfold validateTransaction. cbn [get own_properties].
  destruct (lookup (str "date") props) as [d|]; [|eexists; reflexivity].
  pose proof (new_Date_unconvertible d) as Hd.
  destruct (truthy_opt (lookup (str "description") props)); cbn [andb negb];
    [|destruct (negb (truthy_opt (Some d))); eauto].
  destruct (lookup (str "amount") props) as [a|]; cbn [andb];
    [|destruct (negb (truthy_opt (Some d))); eauto].
  destruct (unconvertible d) eqn:Hunc.
  - assert (Htruthy : truthy_opt (Some d) = true)
      by (destruct d; try discriminate; reflexivity).
    rewrite Htruthy, Hd. reflexivity.
  - destruct Hd as [t ->].
    destruct (negb (truthy_opt (Some d))); [eauto|]. destruct t; eauto.
Qed.


End Validation.



(** C10 at the failing input: the record dated +010000-01-01 survives the
    validation with a date of nine characters, the first one a sign. *)
Lemma validateTransaction_year_10000 :
  @validateTransaction Sample.engine
     (Sample.record (str "+010000-01-01") (str "Deposit") (Finite (100 # 1)))
  = inr (Some (Sample.record (str "+01000001") (str "Deposit") (Finite (100 # 1))))
  /\ is_YYYYMMDD (str "+01000001") = false
  /\ @new_Date Sample.engine (JStr (str "+010000-01-01"))
     = inr (Some 253402300800000%Z).
Proof. repeat split. Qed.

(** ** The response of the model *)

Lemma indexOf_nil (c : code_unit) : indexOf c [] = (-1)%Z.
Proof. reflexivity. Qed.

Section Response.
Context `{E : Engine} `{O : Oracle}.

(** C8: when the text of the response holds, from its first opening brace
    to its last closing brace, a JSON object that parses but has no array
    under [transactions], the client returns the empty sequence: the
    response parses to no record, and a chunk extraction answered with it
    succeeds at once with no record. *)
Theorem parseResponse_without_transactions_array
        (text : jsstring) (props : list (jsstring * json)) :
  let jsonStartIndex := indexOf 123%N text in
  let jsonEndIndex := lastIndexOf 125%N text in
  (0 <= jsonStartIndex <= jsonEndIndex)%Z ->
  JSON_parse (substring jsonStartIndex (jsonEndIndex + 1) text) = inr (JObj props) ->
  (forall items, lookup (str "transactions") props <> Some (JArr items)) ->
  parseResponse (Some text) = inr []
  /\ forall statementChunk fileName chunkNumber totalChunks w,
      generateContent (api_calls w)
                      (prompt_of statementChunk fileName chunkNumber totalChunks)
      = Response (Some text) ->
      let run := extractTransactionsFromChunk statementChunk fileName
                                              chunkNumber totalChunks w in
      snd run = inr [] /\ api_calls (fst run) = S (api_calls w).
Proof.
  intros i j Hij Hparse Harray.
  assert (Hresp : parseResponse (Some text) = inr []).
  { unfold parseResponse. destruct text as [|c text'].
    - subst i. rewrite indexOf_nil in Hij. lia.
    - cbv beta iota zeta. fold i j.
      replace ((i =? -1)%Z || (j =? -1)%Z || (j <? i)%Z) with false.
      2: { symmetry. apply orb_false_iff. split; [apply orb_false_iff; split|].
           - apply Z.eqb_neq. lia.
           - apply Z.eqb_neq. lia.
           - apply Z.ltb_ge. lia. }
      rewrite Hparse. cbn [get].
      destruct (lookup (str "transactions") props) as [v|] eqn:Hv; [|reflexivity].
      destruct v; cbn [truthy_opt Array_isArray negb orb];
        try rewrite orb_true_r; try reflexivity.
      exfalso. eapply Harray. reflexivity. }
  split; [exact Hresp|].
  intros statementChunk fileName chunkNumber totalChunks w Hcall run.
  pose proof (extractTransactionsFromChunk_cases statementChunk fileName
                chunkNumber totalChunks w) as Hcases.
  cbv zeta in Hcases. fold run in Hcases.
  unfold attempt_outcome in Hcases at 1. rewrite Nat.add_0_r, Hcall, Hresp in Hcases.
  destruct Hcases as (Hcalls & _ & Hresult). split; [exact Hresult|lia].
Qed.

End Response.

Lemma parseResponse_without_transactions_array_witness :
  let text := str "Here is the JSON: {} (no rows found)" in
  (0 <= indexOf 123%N text <= lastIndexOf 125%N text)%Z
  /\ @JSON_parse Sample.engine
        (substring (indexOf 123%N text) (lastIndexOf 125%N text + 1) text)
      = inr (JObj [])
  /\ @parseResponse Sample.engine (Some text) = inr [].
Proof.
  intros text.
  assert (Hbraces : (0 <= indexOf 123%N text <= lastIndexOf 125%N text)%Z)
    by (vm_compute; split; discriminate).
  assert (Hparse : @JSON_parse Sample.engine
                     (substring (indexOf 123%N text) (lastIndexOf 125%N text + 1) text)
                   = inr (JObj [])) by reflexivity.
  split; [exact Hbraces|]. split; [exact Hparse|].
  refine (proj1 (@parseResponse_without_transactions_array
                   Sample.engine Sample.refusing text [] Hbraces Hparse _)).
  intros items. discriminate.
Defined.

(** ** Comparison of strings *)

Lemma compare_refl (a : jsstring) : JSString.compare a a = Eq.
Proof. induction a as [|x a IH]; simpl; [reflexivity|]. now rewrite N.compare_refl. Qed.

Lemma compare_eq (a b : jsstring) : JSString.compare a b = Eq -> a = b.
Proof.
  revert b. induction a as [|x a IH]; intros [|y b]; simpl; try discriminate; auto.
  destruct (N.compare_spec x y) as [Hxy| |]; try discriminate.
  intros Hab. subst y. f_equal. auto.
Qed.

Lemma compare_antisym (a b : jsstring) :
  JSString.compare b a = CompOpp (JSString.compare a b).
Proof.
  revert b. induction a as [|x a IH]; intros [|y b]; simpl; auto.
  rewrite (N.compare_antisym x y).
  destruct (x ?= y)%N; simpl; auto.
Qed.

Lemma compare_le_trans (a b c : jsstring) :
  JSString.compare a b <> Gt -> JSString.compare b c <> Gt ->
  JSString.compare a c <> Gt.
Proof.
  revert b c. induction a as [|x a IH]; intros [|y b] [|z c]; simpl;
    try congruence.
  destruct (N.compare_spec x y) as [Hxy|Hxy|Hxy],
           (N.compare_spec y z) as [Hyz|Hyz|Hyz]; try congruence; subst.
  - rewrite N.compare_refl. apply IH.
  - intros _ _. apply N.compare_lt_iff in Hyz. rewrite Hyz. discriminate.
  - intros _ _. apply N.compare_lt_iff in Hxy. rewrite Hxy. discriminate.
  - intros _ _. assert (Hxz : (x < z)%N) by lia.
    apply N.compare_lt_iff in Hxz. rewrite Hxz. discriminate.
Qed.

Lemma date_le_trans (a b c : Transaction) : date_le a b -> date_le b c -> date_le a c.
Proof. unfold date_le. apply compare_le_trans. Qed.

(** ** The sort of the serializer *)

Section Sorting.
Context `{E : Engine}.

Lemma insert_by_date_perm (t : Transaction) (l : list Transaction) :
  Permutation (t :: l) (insert_by_date t l).
Proof.
  induction l as [|u l IH]; simpl; [reflexivity|].
  destruct (_ <=? 0)%Z; [reflexivity|].
  rewrite perm_swap. now constructor.
Qed.

Lemma sort_by_date_perm (l : list Transaction) : Permutation l (sort_by_date l).
Proof.
  induction l as [|t l IH]; simpl; [constructor|].
  rewrite <- insert_by_date_perm. now constructor.
Qed.

Hypothesis collation : collates_dates E.

Lemma localeCompare_le (t u : Transaction) :
  canonical t -> canonical u ->
  (localeCompare (date t) (date u) <=? 0)%Z = true <-> date_le t u.
Proof.
  intros Ht Hu. unfold date_le. rewrite <- (collation _ _ Ht Hu).
  rewrite Z.leb_le. unfold Z.le. tauto.
Qed.

Lemma insert_by_date_sorted (t : Transaction) (l : list Transaction) :
  canonical t -> Forall canonical l ->
  StronglySorted date_le l -> StronglySorted date_le (insert_by_date t l).
Proof.
  intros Ht Hl Hs. induction Hs as [|u l Hs IH Hu]; simpl.
  - repeat constructor.
  - inversion Hl as [|? ? Hcu Hcl]; subst.
    destruct (localeCompare (date t) (date u) <=? 0)%Z eqn:Hle.
    + apply localeCompare_le in Hle; auto.
      constructor; [now constructor|].
      constructor; [exact Hle|].
      rewrite Forall_forall in *. intros v Hv.
      eapply date_le_trans; eauto.
    + constructor; [auto|].
      assert (Hut : date_le u t).
      { unfold date_le. rewrite compare_antisym.
        destruct (JSString.compare (date t) (date u)) eqn:Hc; try discriminate;
          exfalso; apply Bool.not_true_iff_false in Hle; apply Hle;
          apply localeCompare_le; auto; unfold date_le; congruence. }
      rewrite Forall_forall in *. intros v Hv.
      apply (Permutation_in _ (Permutation_sym (insert_by_date_perm t l))) in Hv.
      destruct Hv as [<-|Hv]; auto.
Qed.

Lemma sort_by_date_sorted (l : list Transaction) :
  Forall canonical l -> StronglySorted date_le (sort_by_date l).
Proof.
  induction 1 as [|t l Ht Hl IH]; simpl; [constructor|].
  apply insert_by_date_sorted; auto.
  rewrite Forall_forall in *. intros u Hu. apply Hl.
  now apply (Permutation_in _ (Permutation_sym (sort_by_date_perm l))).
Qed.

Lemma insert_by_date_stable (d : jsstring) (t : Transaction) (l : list Transaction) :
  canonical t -> Forall canonical l ->
  filter (fun x => JSString.eqb (date x) d) (insert_by_date t l)
  = filter (fun x => JSString.eqb (date x) d) (t :: l).
Proof.
  intros Ht Hl. induction Hl as [|u l Hu Hl IH]; [reflexivity|].
  cbn [insert_by_date].
  destruct (localeCompare (date t) (date u) <=? 0)%Z eqn:Hle; [reflexivity|].
  cbn [filter] in *. rewrite IH.
  destruct (JSString.eqb (date t) d) eqn:Htd; [|reflexivity].
  destruct (JSString.eqb (date u) d) eqn:Hud; [|reflexivity].
  apply eqb_eq in Htd, Hud. exfalso.
  apply Bool.not_true_iff_false in Hle. apply Hle.
  apply localeCompare_le; auto. unfold date_le.
  rewrite Htd, Hud, compare_refl. discriminate.
Qed.

Lemma sort_by_date_stable (d : jsstring) (l : list Transaction) :
  Forall canonical l ->
  filter (fun x => JSString.eqb (date x) d) (sort_by_date l)
  = filter (fun x => JSString.eqb (date x) d) l.
Proof.
  induction 1 as [|t l Ht Hl IH]; [reflexivity|].
  cbn [sort_by_date fold_right]. fold (sort_by_date l).
  rewrite insert_by_date_stable; auto.
  - cbn [filter]. now rewrite IH.
  - rewrite Forall_forall in *. intros u Hu. apply Hl.
    now apply (Permutation_in _ (Permutation_sym (sort_by_date_perm l))).
Qed.

End Sorting.

(** ** The document *)

Lemma trimStart_content (c : code_unit) (s : jsstring) :
  is_whitespace c = false -> trimStart (c :: s) = c :: s.
Proof. intros Hc. simpl. now rewrite Hc. Qed.

Lemma trimEnd_newline (c w : code_unit) (s : jsstring) :
  is_whitespace c = false -> is_whitespace w = true ->
  trimEnd (s ++ [c; w]) = s ++ [c].
Proof.
  intros Hc Hw. unfold trimEnd. rewrite rev_app_distr. simpl.
  rewrite Hw, Hc. simpl. now rewrite rev_involutive.
Qed.

Lemma document_head_first (dateCreated : jsstring) :
  exists rest, document_head dateCreated = 79%N :: rest.
Proof. eexists. unfold document_head. simpl. reflexivity. Qed.

Lemma document_tail_last (dateCreated : jsstring) :
  exists body, document_tail dateCreated = body ++ [62%N; 10%N]
               /\ removelast (document_tail dateCreated) = body ++ [62%N].
Proof.
  exists (str "
</BANKTRANLIST>
<LEDGERBAL>
<BALAMT>0.00</BALAMT>
<DTASOF>" ++ dateCreated ++ str "</DTASOF>
</LEDGERBAL>
</STMTRS>
</STMTTRNRS>
</BANKMSGSRSV1>
</OFX").
  assert (Htail : document_tail dateCreated = (str "
</BANKTRANLIST>
<LEDGERBAL>
<BALAMT>0.00</BALAMT>
<DTASOF>" ++ dateCreated ++ str "</DTASOF>
</LEDGERBAL>
</STMTRS>
</STMTTRNRS>
</BANKMSGSRSV1>
</OFX") ++ [62%N; 10%N]).
  { unfold document_tail. rewrite <- !app_assoc. reflexivity. }
  split; [exact Htail|].
  rewrite Htail. set (body := _ ++ _ ++ _).
  change [62%N; 10%N] with ([62%N] ++ [10%N]). rewrite app_assoc.
  apply removelast_last.
Qed.

(** The [trim] of the template only removes its final newline. *)
Lemma trim_document (dateCreated middle : jsstring) :
  trim (document_head dateCreated ++ middle ++ document_tail dateCreated)
  = document_head dateCreated ++ middle ++ removelast (document_tail dateCreated).
Proof.
  destruct (document_head_first dateCreated) as (rest & Hhead).
  destruct (document_tail_last dateCreated) as (body & Htail & Hcut).
  rewrite Hcut, Hhead, Htail. unfold trim.
  cbn [app]. rewrite trimStart_content by reflexivity.
  rewrite (app_assoc middle), (app_assoc rest), app_comm_cons.
  rewrite trimEnd_newline by reflexivity.
  cbn [app]. now rewrite <- !app_assoc.
Qed.

Lemma last_date (dateCreated : jsstring) (sorted : list Transaction) :
  (if (0 <? List.length sorted)%nat
   then match nth_error sorted (List.length sorted - 1) with
        | Some last => date last
        | None => dateCreated
        end
   else dateCreated)
  = last (map date sorted) dateCreated.
Proof.
  induction sorted as [|t sorted IH]; [reflexivity|].
  destruct sorted as [|u sorted]; [reflexivity|].
  cbn [map last] in *. rewrite <- IH.
  cbn [List.length Nat.ltb Nat.leb Nat.sub nth_error]. 
  now rewrite Nat.sub_0_r.
Qed.

Lemma createOfxContent_layout `{E : Engine} (now : LocalTime)
      (transactions : list Transaction) :
  let dateCreated := dateCreated_of now in
  let sorted := sort_by_date transactions in
  createOfxContent now transactions
  = document_head dateCreated
      ++ (hd dateCreated (map date sorted) ++ str "</DTSTART>
<DTEND>" ++ last (map date sorted) dateCreated ++ str "</DTEND>"
          ++ List.concat (map_indexed render_transaction 0 sorted))
      ++ removelast (document_tail dateCreated).
Proof.
  intros dateCreated sorted. unfold createOfxContent.
  fold dateCreated sorted. rewrite last_date.
  replace (match sorted with
           | [] => dateCreated
           | first :: _ => date first
           end) with (hd dateCreated (map date sorted))
    by (destruct sorted; reflexivity).
  rewrite <- trim_document. f_equal. now rewrite <- !app_assoc.
Qed.

Section Serializer.
Context `{E : Engine}.

(** C6: on transactions with canonical dates the serializer renders the
    records in ascending order of their dates, compared as strings, records
    of one date keeping their input order; DTSTART is the first and DTEND
    the last date of that order, and both are the current date when there
    is no transaction. *)
Theorem createOfxContent_sorted_by_date (now : LocalTime)
        (transactions : list Transaction) :
  collates_dates E ->
  Forall canonical transactions ->
  let dateCreated := dateCreated_of now in
  let sorted := sort_by_date transactions in
  let dates := map date sorted in
  Permutation transactions sorted
  /\ StronglySorted date_le sorted
  /\ (forall d, filter (fun t => JSString.eqb (date t) d) sorted
                = filter (fun t => JSString.eqb (date t) d) transactions)
  /\ createOfxContent now transactions
     = document_head dateCreated
         ++ (hd dateCreated dates ++ str "</DTSTART>
<DTEND>" ++ last dates dateCreated ++ str "</DTEND>"
             ++ List.concat (map_indexed render_transaction 0 sorted))
         ++ removelast (document_tail dateCreated)
  /\ (transactions = [] ->
      hd dateCreated dates = dateCreated /\ last dates dateCreated = dateCreated).
Proof.
  intros Hcollation Hcanonical dateCreated sorted dates.
  split; [apply sort_by_date_perm|].
  split; [now apply sort_by_date_sorted|].
  split; [intros d; now apply sort_by_date_stable|].
  split; [apply createOfxContent_layout|].
  intros ->. split; reflexivity.
Qed.

(** C9, as the code has it: the document depends on the transactions and
    on the local calendar day of the clock only, so two invocations on the
    same input on the same day yield the same string. *)
Theorem createOfxContent_same_day (now1 now2 : LocalTime)
        (transactions : list Transaction) :
  getFullYear now1 = getFullYear now2 ->
  getMonth now1 = getMonth now2 ->
  getDate now1 = getDate now2 ->
  createOfxContent now1 transactions = createOfxContent now2 transactions.
Proof.
  intros Hy Hm Hd. unfold createOfxContent, dateCreated_of.
  now rewrite Hy, Hm, Hd.
Qed.

End Serializer.

Lemma sample_engine_collates : collates_dates Sample.engine.
Proof.
  intros a b _ _. simpl. destruct (JSString.compare a b); reflexivity.
Qed.

Lemma createOfxContent_sorted_by_date_witness :
  let transactions := [Sample.march_10; Sample.january_5; Sample.january_5_coffee] in
  collates_dates Sample.engine
  /\ Forall canonical transactions
  /\ StronglySorted date_le (@sort_by_date Sample.engine transactions)
  /\ @sort_by_date Sample.engine transactions
     = [Sample.january_5; Sample.january_5_coffee; Sample.march_10].
Proof.
  intros transactions.
  assert (Hcanonical : Forall canonical transactions)
    by (repeat constructor).
  split; [exact sample_engine_collates|]. split; [exact Hcanonical|].
  split; [|reflexivity].
  exact (proj1 (proj2 (@createOfxContent_sorted_by_date Sample.engine Sample.clock
                         transactions sample_engine_collates Hcanonical))).
Defined.

(** C9, as the claim states it, fails: the same transactions serialized on
    two days give two different documents, with or without transactions. *)
Lemma createOfxContent_depends_on_the_day :
  JSString.eqb (@createOfxContent Sample.engine Sample.clock [Sample.january_5])
               (@createOfxContent Sample.engine Sample.next_day [Sample.january_5])
  = false
  /\ JSString.eqb (@createOfxContent Sample.engine Sample.clock [])
                  (@createOfxContent Sample.engine Sample.next_day [])
     = false.
Proof. split; vm_compute; reflexivity. Qed.

Lemma createOfxContent_same_day_witness :
  @createOfxContent Sample.engine Sample.clock [Sample.march_10; Sample.january_5]
  = @createOfxContent Sample.engine Sample.later_that_day
                      [Sample.march_10; Sample.january_5].
Proof.
  apply (@createOfxContent_same_day Sample.engine); reflexivity.
Defined.

(** ** The identifiers *)

Lemma last_separator (c : code_unit) (l1 l2 r1 r2 : jsstring) :
  ~ In c r1 -> ~ In c r2 -> l1 ++ c :: r1 = l2 ++ c :: r2 -> r1 = r2.
Proof.
  revert l2. induction l1 as [|x l1 IH]; intros [|y l2] H1 H2 Heq;
    simpl in Heq.
  - now injection Heq.
  - exfalso. apply H1. injection Heq as _ ->. apply in_or_app. right. now left.
  - exfalso. apply H2. injection Heq as _ <-. apply in_or_app. right. now left.
  - injection Heq as _ Htail. eauto.
Qed.

Lemma map_indexed_nth {A B} (f : A -> nat -> B) (l : list A) (start i : nat) (x : A) :
  nth_error l i = Some x ->
  nth_error (map_indexed f start l) i = Some (f x (start + i)%nat).
Proof.
  revert start i. induction l as [|y l IH]; intros start [|i] Hx;
    simpl in *; try discriminate.
  - injection Hx as ->. now rewrite Nat.add_0_r.
  - rewrite (IH (S start) i Hx). f_equal. f_equal. lia.
Qed.

Lemma compact_date_length (t : Z) : (List.length (compact_date t) <= 10)%nat.
Proof.
  unfold compact_date, replaceAll, slice0.
  assert (Hshrink : forall s : jsstring,
             (List.length (flat_map (fun x => if N.eqb x 45 then [] else [x]) s)
              <= List.length s)%nat).
  { induction s as [|x s IH]; simpl; [lia|].
    destruct (N.eqb x 45); simpl; lia. }
  etransitivity; [apply Hshrink|]. rewrite length_firstn. lia.
Qed.

Section Identifiers.
Context `{E : Engine}.

(** Below 10^21 [toFixed(2)] writes a sign for a negative number, the
    digits of the whole part, a point and exactly two more digits. *)
Lemma toFixed_two_decimals (q : Q) :
  (Z.abs (Qnum q) < 10 ^ 21 * Zpos (Qden q))%Z ->
  exists whole fraction : jsstring,
    toFixed 2 (Finite q)
    = (if (Qnum q <? 0)%Z then str "-" else []) ++ whole ++ str "." ++ fraction
    /\ whole <> [] /\ List.length fraction = 2%nat
    /\ forallb is_digit whole = true /\ forallb is_digit fraction = true
    /\ (List.length whole <= 22)%nat.
Proof.
  intros Hsmall. unfold toFixed.
  replace (10 ^ 21 * Z.pos (Qden q) <=? Z.abs (Qnum q))%Z with false
    by (symmetry; apply Z.leb_gt; exact Hsmall).
  set (n := Z.to_N _). set (m := repeat 48%N (3 - List.length (N_to_string n)) ++ N_to_string n).
  assert (Hn : (n < 10 ^ N.of_nat 24)%N).
  { subst n. change (10 ^ 21)%Z with 1000000000000000000000%Z in Hsmall.
    change (10 ^ Z.of_nat 2)%Z with 100%Z.
    apply N2Z.inj_lt. rewrite Z2N.id.
    - change (Z.of_N (10 ^ N.of_nat 24)) with 1000000000000000000000000%Z.
      apply Z.div_lt_upper_bound; lia.
    - apply Z.div_pos; lia. }
  pose proof (N_to_string_length Hn) as Hlen.
  assert (Hm : (3 <= List.length m <= 24)%nat).
  { subst m. rewrite length_app, repeat_length. lia. }
  assert (Hdigits : forallb is_digit m = true).
  { subst m. rewrite forallb_app, N_to_string_digits, andb_true_r.
    apply forallb_forall. intros c Hc. apply repeat_spec in Hc. now subst c. }
  exists (firstn (List.length m - 2) m), (skipn (List.length m - 2) m).
  split; [reflexivity|].
  rewrite <- (firstn_skipn (List.length m - 2) m), forallb_app in Hdigits.
  apply andb_true_iff in Hdigits as [Hw Hf].
  repeat split; auto.
  - intros Hnil. apply (f_equal (@List.length _)) in Hnil.
    rewrite length_firstn in Hnil. simpl in Hnil. lia.
  - rewrite length_skipn. lia.
  - rewrite length_firstn. lia.
Qed.

Lemma toFixed_length (x : number) :
  short_numbers E -> (List.length (toFixed 2 x) <= 26)%nat.
Proof.
  intros Hshort. destruct x as [|negative|q].
  - simpl. lia.
  - destruct negative; simpl; lia.
  - destruct (Z.ltb_spec (Z.abs (Qnum q)) (10 ^ 21 * Zpos (Qden q))) as [Hsmall|Hlarge].
    + destruct (toFixed_two_decimals q Hsmall)
        as (whole & fraction & -> & _ & Hf & _ & _ & Hw).
      rewrite !length_app, Hf. destruct (Qnum q <? 0)%Z; simpl; lia.
    + unfold toFixed.
      replace (10 ^ 21 * Z.pos (Qden q) <=? Z.abs (Qnum q))%Z with true
        by (symmetry; apply Z.leb_le; exact Hlarge).
      rewrite length_app. pose proof (Hshort (Qabs q)).
      destruct (Qnum q <? 0)%Z; simpl; lia.
Qed.

End Identifiers.

Section UniqueIdentifiers.
Context `{E : Engine}.

Lemma index_length (i : nat) :
  (N.of_nat i < 2 ^ 32)%N -> (List.length (nat_to_string i) <= 10)%nat.
Proof.
  intros Hi. unfold nat_to_string.
  apply (@N_to_string_length (N.of_nat i) 9).
  change (10 ^ N.of_nat 10)%N with 10000000000%N.
  change (2 ^ 32)%N with 4294967296%N in Hi. lia.
Qed.

(** An identifier that the limit of 255 characters does not cut. *)
Lemma generateUniqueId_whole (t : Transaction) (i : nat) :
  short_numbers E ->
  (List.length (date t) <= 10)%nat -> (N.of_nat i < 2 ^ 32)%N ->
  generateUniqueId t i
  = (date t ++ str "-" ++ toFixed 2 (amount t) ++ str "-"
       ++ firstn 50 (filter is_alnum (description t)))
      ++ 45%N :: nat_to_string i.
Proof.
  intros Hshort Hdate Hi. unfold generateUniqueId, slice0, strip_non_alnum.
  rewrite <- !app_assoc. apply firstn_all2.
  pose proof (toFixed_length (amount t) Hshort).
  pose proof (index_length i Hi).
  pose proof (firstn_le_length 50 (filter is_alnum (description t))).
  rewrite !length_app. change (List.length (str "-")) with 1%nat. cbn [List.length]. clear Hi. lia.
Qed.

(** Below 10^21, and for what is not finite, [toFixed(2)] is short. *)
Lemma toFixed_short (x : number) :
  (forall q, x = Finite q -> (Z.abs (Qnum q) < 10 ^ 21 * Zpos (Qden q))%Z) ->
  (List.length (toFixed 2 x) <= 26)%nat.
Proof.
  intros Hsmall. destruct x as [|negative|q].
  - simpl. lia.
  - destruct negative; simpl; lia.
  - destruct (toFixed_two_decimals q (Hsmall q eq_refl))
      as (whole & fraction & -> & _ & Hf & _ & _ & Hw).
    rewrite !length_app, Hf. destruct (Qnum q <? 0)%Z; simpl; lia.
Qed.

(** C7, as the code has it: in the document the record at position [i] of
    the sorted sequence is written with, as its FITID, the first 255
    characters of: its date, its amount as [toFixed(2)] writes it (a sign,
    digits, a point and exactly two digits below 10^21 in absolute value),
    its description without the characters that are not alphanumeric cut to
    50 characters, and [i], joined by hyphens.  So no FITID exceeds 255
    characters.  Nothing is cut when the date has at most ten characters
    (the canonical date has eight), the amount is not a finite number of
    10^21 or more in absolute value, and the position is below 2^32.  The
    FITIDs of two positions at which nothing is cut differ. *)
Theorem generateUniqueId_spec (now : LocalTime) (transactions : list Transaction) :
  let sorted := sort_by_date transactions in
  let dateCreated := dateCreated_of now in
  let joined (t : Transaction) (i : nat) :=
    date t ++ str "-" ++ toFixed 2 (amount t) ++ str "-"
    ++ firstn 50 (filter is_alnum (description t)) ++ str "-" ++ nat_to_string i in
  let FITID (t : Transaction) (i : nat) := firstn 255 (joined t i) in
  createOfxContent now transactions
  = document_head dateCreated
      ++ (hd dateCreated (map date sorted) ++ str "</DTSTART>
<DTEND>" ++ last (map date sorted) dateCreated ++ str "</DTEND>"
          ++ List.concat (map_indexed render_transaction 0 sorted))
      ++ removelast (document_tail dateCreated)
  /\ (forall i t, nth_error sorted i = Some t ->
      nth_error (map_indexed render_transaction 0 sorted) i
      = Some (str "
<STMTTRN>
<TRNTYPE>" ++ (if gt0 (amount t) then str "CREDIT" else str "DEBIT") ++ str "</TRNTYPE>
<DTPOSTED>" ++ date t ++ str "</DTPOSTED>
<TRNAMT>" ++ toFixed 2 (amount t) ++ str "</TRNAMT>
<FITID>" ++ FITID t i ++ str "</FITID>
<MEMO>" ++ escape_markup (description t) ++ str "</MEMO>
</STMTTRN>")
      /\ (List.length (FITID t i) <= 255)%nat
      /\ (forall q, amount t = Finite q ->
            (Z.abs (Qnum q) < 10 ^ 21 * Zpos (Qden q))%Z ->
            exists whole fraction : jsstring,
              toFixed 2 (amount t)
              = (if (Qnum q <? 0)%Z then str "-" else []) ++ whole ++ str "." ++ fraction
              /\ List.length fraction = 2%nat
              /\ forallb is_digit whole = true /\ forallb is_digit fraction = true)
      /\ ((List.length (date t) <= 10)%nat ->
          (forall q, amount t = Finite q ->
             (Z.abs (Qnum q) < 10 ^ 21 * Zpos (Qden q))%Z) ->
          (N.of_nat i < 2 ^ 32)%N ->
          FITID t i = joined t i))
  /\ (forall i j t u,
        nth_error sorted i = Some t -> nth_error sorted j = Some u -> i <> j ->
        FITID t i = joined t i -> FITID u j = joined u j ->
        FITID t i <> FITID u j).
Proof.
  intros sorted dateCreated joined FITID.
  split; [apply createOfxContent_layout|]. split.
  - intros i t Ht. split; [|split; [|split]].
    + rewrite (map_indexed_nth render_transaction sorted 0 i Ht). reflexivity.
    + unfold FITID. rewrite length_firstn. lia.
    + intros q Hq Hsmall. rewrite Hq.
      destruct (toFixed_two_decimals q Hsmall)
        as (whole & fraction & Heq & _ & Hf & Hw & Hd & _).
      exists whole, fraction. auto.
    + intros Hdate Hamount Hi. unfold FITID, joined. apply firstn_all2.
      pose proof (toFixed_short Hamount).
      pose proof (index_length i Hi).
      pose proof (firstn_le_length 50 (filter is_alnum (description t))).
      rewrite !length_app. change (List.length (str "-")) with 1%nat.
      clear Hi. lia.
  - intros i j t u _ _ Hij Ht Hu Heq. rewrite Ht, Hu in Heq.
    assert (Hlast : forall (v : Transaction) (k : nat),
               joined v k
               = (date v ++ str "-" ++ toFixed 2 (amount v) ++ str "-"
                    ++ firstn 50 (filter is_alnum (description v)))
                   ++ 45%N :: nat_to_string k)
      by (intros v k; unfold joined; rewrite <- !app_assoc; reflexivity).
    rewrite !Hlast in Heq. apply last_separator in Heq.
    + apply nat_to_string_inj in Heq. contradiction.
    + apply digits_no_char; [apply N_to_string_digits|reflexivity].
    + apply digits_no_char; [apply N_to_string_digits|reflexivity].
Qed.

End UniqueIdentifiers.

Lemma sample_engine_short_numbers : short_numbers Sample.engine.
Proof. intros q. simpl. lia. Qed.

Lemma generateUniqueId_spec_witness :
  (List.length (@generateUniqueId Sample.engine Sample.long_credit 0) <= 255)%nat
  /\ @generateUniqueId Sample.engine Sample.january_5 0
     <> @generateUniqueId Sample.engine Sample.january_5_coffee 1
  /\ @generateUniqueId Sample.engine Sample.january_5_coffee 1
     = str "20240105--4.50-Coffee-1".
Proof.
  split; [|split; [|reflexivity]].
  - exact (proj1 (proj2 (proj1 (proj2 (@generateUniqueId_spec Sample.engine
             Sample.clock [Sample.long_credit; Sample.long_debit]))
             0%nat Sample.long_credit eq_refl))).
  - exact (proj2 (proj2 (@generateUniqueId_spec Sample.engine Sample.clock
             [Sample.march_10; Sample.january_5; Sample.january_5_coffee]))
             0%nat 1%nat Sample.january_5 Sample.january_5_coffee
             eq_refl eq_refl ltac:(discriminate) eq_refl eq_refl).
Defined.

(** C7, as the claim states it, fails: two records whose date fills the 255
    characters get the same FITID; the FITID is not the bare concatenation
    of its four parts; and an amount of 10^21 is not written with two
    decimal places. *)
Lemma generateUniqueId_collision :
  let sorted := @sort_by_date Sample.engine [Sample.long_credit; Sample.long_debit] in
  (nth_error sorted 0 = Some Sample.long_credit
   /\ nth_error sorted 1 = Some Sample.long_debit
   /\ @generateUniqueId Sample.engine Sample.long_credit 0
      = @generateUniqueId Sample.engine Sample.long_debit 1)
  /\ (@generateUniqueId Sample.engine Sample.january_5_coffee 1
      = str "20240105--4.50-Coffee-1"
      /\ date Sample.january_5_coffee
           ++ @toFixed Sample.engine 2 (amount Sample.january_5_coffee)
           ++ firstn 50 (filter is_alnum (description Sample.january_5_coffee))
           ++ nat_to_string 1
         = str "20240105-4.50Coffee1")
  /\ @generateUniqueId Sample.engine Sample.huge_salary 0
     = str "20240105-1e+21-Salary-0".
Proof. repeat split. Qed.

(** ** The orchestrator *)

Section Orchestrator.
Context `{E : Engine} `{O : Oracle}.

(** A run over the chunks that returns has one result per chunk, and
    returns them joined in the order of the chunks: one failure fails the
    run. *)
Lemma process_chunks_all (rest : list jsstring) (i total : nat)
      (fileName : jsstring) (allTransactions : list json) (w : World)
      (all : list json) :
  snd (process_chunks rest i total fileName allTransactions w) = inr all ->
  exists results : list (list json),
    List.length results = List.length rest
    /\ all = allTransactions ++ List.concat results.
Proof.
  revert i allTransactions w.
  induction rest as [|chunk rest IH]; intros i allTransactions w Hall.
  - simpl in Hall. injection Hall as <-. exists []. simpl.
    now rewrite app_nil_r.
  - cbn [process_chunks] in Hall.
    destruct (1 <? total)%nat;
      cbv [bind onProgress sleep log ret try_catch throw] in Hall;
      match type of Hall with
      | context [extractTransactionsFromChunk ?c ?f ?n ?t ?w1] =>
          destruct (extractTransactionsFromChunk c f n t w1)
            as [w2 [e|transactions]]
      end;
      try discriminate;
      apply IH in Hall as (results & Hlen & ->);
      exists (transactions :: results); simpl; rewrite Hlen;
      (split; [reflexivity|]); now rewrite app_assoc.
Qed.

Lemma extractTransactionsFromStatement_all (statementContent fileName : jsstring)
      (w : World) (all : list json) :
  snd (extractTransactionsFromStatement statementContent fileName w) = inr all ->
  exists results : list (list json),
    List.length results
    = List.length (createChunks statementContent MAX_CHUNK_SIZE)
    /\ all = List.concat results.
Proof.
  unfold extractTransactionsFromStatement. intros Hall.
  set (chunks := createChunks statementContent MAX_CHUNK_SIZE) in *.
  destruct (1 <? List.length chunks)%nat;
    cbv [bind onProgress sleep log ret] in Hall;
    match type of Hall with
    | context [process_chunks ?r ?i ?t ?f ?a ?w1] =>
        destruct (process_chunks r i t f a w1) as [w3 [e|found]] eqn:Hrun
    end;
    try discriminate;
    simpl in Hall; injection Hall as <-;
    match type of Hrun with
    | process_chunks ?r ?i ?t ?f ?a ?w1 = _ =>
        apply (process_chunks_all r i t f a w1); now rewrite Hrun
    end.
Qed.

End Orchestrator.

(** ** The pipeline *)

Lemma call_readFileContent_read (selectedFile : File) (fileContent : jsstring)
      (w : World) :
  readFileContent selectedFile = inr fileContent ->
  call_readFileContent selectedFile w = (w, inr fileContent).
Proof. unfold call_readFileContent. now intros ->. Qed.

Section Pipeline.
Context `{E : Engine} `{O : Oracle}.

(** C5: when the text read from the file, once trimmed, begins with
    OFXHEADER:, the text becomes the artifact as it was read, and the run
    ends in success without a call of the model: the world is untouched. *)
Theorem handleFileSelect_already_ofx (selectedFile : File) (fileContent : jsstring)
        (w : World) :
  readFileContent selectedFile = inr fileContent ->
  startsWith (trim fileContent) (str "OFXHEADER:") = true ->
  let run := handleFileSelect selectedFile w in
  ofxContent (snd run) = Some fileContent
  /\ status (snd run) = Success
  /\ errorMessage (snd run) = None
  /\ fst run = w
  /\ api_calls (fst run) = api_calls w
  /\ requests (new_events w (fst run)) = [].
Proof.
  intros Hread Hheader run. subst run.
  unfold handleFileSelect, bind, lift.
  rewrite (@call_readFileContent_read _ _ _ Hread), Hheader.
  unfold ret. cbn [fst snd ofxContent status errorMessage].
  repeat split. unfold new_events. now rewrite skipn_all.
Qed.

(** C4: when the extraction succeeds and the transactions gathered are
    none (every chunk then came back with no transaction), the run ends in
    the error state with the message that no transactions could be found,
    and no document is produced. *)
Theorem handleFileSelect_no_transactions (selectedFile : File)
        (fileContent : jsstring) (w : World) :
  readFileContent selectedFile = inr fileContent ->
  startsWith (trim fileContent) (str "OFXHEADER:") = false ->
  snd (extractTransactionsFromStatement fileContent (name selectedFile) w) = inr [] ->
  let run := handleFileSelect selectedFile w in
  status (snd run) = Error
  /\ errorMessage (snd run)
     = Some (str "No transactions could be found in the document. Please check the file content and try again.")
  /\ ofxContent (snd run) = None
  /\ exists results : list (list json),
      List.length results = List.length (createChunks fileContent MAX_CHUNK_SIZE)
      /\ Forall (fun transactions => transactions = []) results.
Proof.
  intros Hread Hheader Hnone run. subst run.
  assert (Hchunks : exists results : list (list json),
             List.length results
             = List.length (createChunks fileContent MAX_CHUNK_SIZE)
             /\ Forall (fun transactions => transactions = []) results).
  { destruct (extractTransactionsFromStatement_all _ _ _ Hnone)
      as (results & Hlen & Hempty).
    exists results. split; [exact Hlen|].
    clear Hlen. induction results as [|r results IH]; [constructor|].
    simpl in Hempty. symmetry in Hempty.
    apply app_eq_nil in Hempty as [-> Hrest].
    constructor; [reflexivity|]. apply IH. now rewrite Hrest. }
  unfold handleFileSelect, bind, lift.
  rewrite (@call_readFileContent_read _ _ _ Hread), Hheader.
  destruct (extractTransactionsFromStatement fileContent (name selectedFile) w)
    as [w' result].
  simpl in Hnone. subst result. cbn [List.length Nat.eqb]. unfold throw.
  split; [reflexivity|]. split; [reflexivity|]. split; [reflexivity|].
  exact Hchunks.
Qed.

End Pipeline.

Lemma handleFileSelect_already_ofx_witness :
  let content := str "
OFXHEADER:100
DATA:OFXSGML
<OFX></OFX>
" in
  readFileContent (Sample.text_file content) = inr content
  /\ startsWith (trim content) (str "OFXHEADER:") = true
  /\ ofxContent (snd (@handleFileSelect Sample.engine Sample.refusing
                        (Sample.text_file content) initial_world))
     = Some content.
Proof.
  intros content.
  assert (Hread : readFileContent (Sample.text_file content) = inr content)
    by reflexivity.
  assert (Hheader : startsWith (trim content) (str "OFXHEADER:") = true)
    by reflexivity.
  split; [exact Hread|]. split; [exact Hheader|].
  exact (proj1 (@handleFileSelect_already_ofx Sample.engine Sample.refusing
                  (Sample.text_file content) content initial_world Hread Hheader)).
Defined.

Lemma handleFileSelect_no_transactions_witness :
  let content := str "05/03 Coffee 4,50" in
  readFileContent (Sample.text_file content) = inr content
  /\ startsWith (trim content) (str "OFXHEADER:") = false
  /\ snd (@extractTransactionsFromStatement Sample.engine Sample.throttled_twice
            content (name (Sample.text_file content)) initial_world) = inr []
  /\ status (snd (@handleFileSelect Sample.engine Sample.throttled_twice
                    (Sample.text_file content) initial_world)) = Error.
Proof.
  intros content.
  assert (Hread : readFileContent (Sample.text_file content) = inr content)
    by reflexivity.
  assert (Hheader : startsWith (trim content) (str "OFXHEADER:") = false)
    by reflexivity.
  assert (Hnone : snd (@extractTransactionsFromStatement Sample.engine
                         Sample.throttled_twice content
                         (name (Sample.text_file content)) initial_world) = inr [])
    by reflexivity.
  split; [exact Hread|]. split; [exact Hheader|]. split; [exact Hnone|].
  exact (proj1 (@handleFileSelect_no_transactions Sample.engine Sample.throttled_twice
                  (Sample.text_file content) content initial_world
                  Hread Hheader Hnone)).
Defined.

(** ** The chunker, in full *)

Lemma length_app_Z (a b : jsstring) :
  JSString.length (a ++ b) = (JSString.length a + JSString.length b)%Z.
Proof. unfold JSString.length. rewrite length_app. lia. Qed.

Lemma push_if_content_parts (chunks : list jsstring) (parts : list (list jsstring))
      (current : list jsstring) :
  chunks = map unlines (filter kept parts) ->
  push_if_content chunks (unlines current)
  = map unlines (filter kept (parts ++ [current])).
Proof.
  intros ->. unfold push_if_content. rewrite has_content_blank.
  rewrite filter_app, map_app. cbn [filter].
  change (kept current) with (negb (blank (unlines current))).
  destruct (negb (blank (unlines current))); simpl; [reflexivity|].
  now rewrite app_nil_r.
Qed.

Lemma push_if_content_within (chunkSize : Z) (chunks : list jsstring)
      (current : list jsstring) :
  Forall (within chunkSize) chunks ->
  current = [] \/ within chunkSize (unlines current) ->
  Forall (within chunkSize) (push_if_content chunks (unlines current)).
Proof.
  intros Hchunks Hcurrent. unfold push_if_content. rewrite has_content_blank.
  destruct (blank (unlines current)) eqn:Hblank; simpl; [exact Hchunks|].
  apply Forall_app. split; [exact Hchunks|].
  constructor; [|constructor].
  destruct Hcurrent as [->|Hin]; [discriminate|exact Hin].
Qed.

Lemma chunk_step_parts (chunkSize : Z) (seen : list jsstring)
      (st : list jsstring * jsstring) (line : jsstring) :
  free line -> parts_inv chunkSize seen st ->
  parts_inv chunkSize (seen ++ [line]) (chunk_step chunkSize st line).
Proof.
  intros Hline (parts & current & Hseen & Hchunks & Hcur & Hin & Hopen).
  destruct st as [chunks currentChunk]. simpl in Hchunks, Hcur, Hin, Hopen.
  subst currentChunk. unfold chunk_step.
  destruct (Z.gtb_spec (JSString.length (unlines current) + JSString.length line + 1)
                       chunkSize) as [Hover|Hfits].
  - exists (parts ++ [current]), [line]. simpl. repeat split.
    + rewrite concat_app. simpl. rewrite app_nil_r. now rewrite Hseen.
    + now apply push_if_content_parts.
    + unfold unlines. simpl. now rewrite app_nil_r.
    + now apply push_if_content_within.
    + right. right. exists line. split; [exact Hline|reflexivity].
  - exists parts, (current ++ [line]). simpl. repeat split.
    + now rewrite app_assoc, Hseen.
    + exact Hchunks.
    + rewrite unlines_app. unfold unlines at 3. simpl. now rewrite app_nil_r.
    + exact Hin.
    + right. left. rewrite !length_app_Z.
      change (JSString.length [newline]) with 1%Z. lia.
Qed.

Lemma chunk_fold_parts (chunkSize : Z) (lines seen : list jsstring)
      (st : list jsstring * jsstring) :
  Forall free lines -> parts_inv chunkSize seen st ->
  parts_inv chunkSize (seen ++ lines) (fold_left (chunk_step chunkSize) lines st).
Proof.
  intros Hlines. revert seen st.
  induction Hlines as [|line lines Hline _ IH]; intros seen st Hinv; simpl.
  - now rewrite app_nil_r.
  - replace (seen ++ line :: lines) with ((seen ++ [line]) ++ lines)
      by (now rewrite <- app_assoc).
    apply IH. now apply chunk_step_parts.
Qed.

(** The chunks of a text longer than the size: the runs with content of a
    cut of its lines, each within the size or a single line. *)
Lemma createChunks_parts (text : jsstring) (chunkSize : Z) :
  (chunkSize < JSString.length text)%Z ->
  exists parts : list (list jsstring),
    List.concat parts = split newline text
    /\ createChunks text chunkSize = map unlines (filter kept parts)
    /\ Forall (within chunkSize) (createChunks text chunkSize).
Proof.
  intros Hlong. unfold createChunks.
  replace (JSString.length text <=? chunkSize)%Z with false
    by (symmetry; apply Z.leb_gt; exact Hlong).
  assert (Hinv : parts_inv chunkSize ([] ++ split newline text)
                   (fold_left (chunk_step chunkSize) (split newline text) ([], []))).
  { apply chunk_fold_parts; [apply split_free|].
    exists [], []. simpl. repeat split; auto. }
  destruct (fold_left _ _ _) as [chunks currentChunk].
  destruct Hinv as (parts & current & Hseen & Hchunks & Hcur & Hin & Hopen).
  simpl in *. subst currentChunk.
  exists (parts ++ [current]). repeat split.
  - rewrite concat_app. simpl. now rewrite app_nil_r.
  - now apply push_if_content_parts.
  - now apply push_if_content_within.
Qed.

Lemma blank_unlines_all (group : list jsstring) :
  blank (unlines group) = forallb blank group.
Proof.
  induction group as [|line group IH]; [reflexivity|].
  unfold unlines in *. simpl. rewrite !blank_app, IH. simpl.
  now rewrite andb_true_r.
Qed.

Lemma blank_split (text : jsstring) :
  forallb blank (split newline text) = blank text.
Proof.
  induction text as [|c text IH]; [reflexivity|].
  cbn [split]. destruct (N.eqb_spec c newline) as [->|Hc].
  - cbn [forallb]. rewrite IH. reflexivity.
  - destruct (split newline text) as [|line lines]; simpl in *.
    + rewrite <- IH. now rewrite !andb_true_r.
    + rewrite <- IH. now rewrite andb_assoc.
Qed.

Lemma filter_kept_nil (parts : list (list jsstring)) :
  filter kept parts = [] <-> forallb blank (List.concat parts) = true.
Proof.
  induction parts as [|group parts IH]; simpl; [tauto|].
  rewrite forallb_app. unfold kept at 1. rewrite blank_unlines_all.
  destruct (forallb blank group); simpl; [exact IH|].
  split; discriminate.
Qed.

(** X1: a text longer than the chunk size is cut between lines only: its
    lines fall into consecutive runs, and the chunks are the runs that are
    not blank, in order, each line closed by a newline; so every chunk has
    content. *)
Theorem createChunks_whole_lines (text : jsstring) (chunkSize : Z) :
  (chunkSize < JSString.length text)%Z ->
  exists parts : list (list jsstring),
    List.concat parts = split newline text
    /\ createChunks text chunkSize = map unlines (filter kept parts)
    /\ Forall (fun chunk => has_content chunk = true) (createChunks text chunkSize).
Proof.
  intros Hlong.
  destruct (createChunks_parts text Hlong) as (parts & Hlines & Hchunks & _).
  exists parts. split; [exact Hlines|]. split; [exact Hchunks|].
  rewrite Hchunks. apply Forall_forall. intros chunk Hin.
  apply in_map_iff in Hin as (group & <- & Hgroup).
  apply filter_In in Hgroup as [_ Hkept].
  rewrite has_content_blank. exact Hkept.
Qed.

Lemma createChunks_whole_lines_witness :
  (3 < JSString.length Sample.two_lines)%Z
  /\ Forall (fun chunk => has_content chunk = true) (createChunks Sample.two_lines 3)
  /\ createChunks Sample.two_lines 3 = [str "ab
"; str "cd
"].
Proof.
  assert (Hlong : (3 < JSString.length Sample.two_lines)%Z) by reflexivity.
  split; [exact Hlong|]. split; [|reflexivity].
  destruct (createChunks_whole_lines Sample.two_lines Hlong) as (_ & _ & _ & Hall).
  exact Hall.
Defined.

(** X2: the size is a soft bound: every chunk has at most [chunkSize]
    characters, unless it is one single line with its newline. *)
Theorem createChunks_soft_bound (text : jsstring) (chunkSize : Z) :
  Forall (within chunkSize) (createChunks text chunkSize).
Proof.
  destruct (Z.leb_spec (JSString.length text) chunkSize) as [Hshort|Hlong].
  - unfold createChunks.
    replace (JSString.length text <=? chunkSize)%Z with true
      by (symmetry; apply Z.leb_le; exact Hshort).
    constructor; [|constructor]. left. exact Hshort.
  - destruct (createChunks_parts text Hlong) as (_ & _ & _ & Hin). exact Hin.
Qed.

(** X3: the chunker returns no chunk at all exactly for a text of
    whitespace only that is longer than the chunk size. *)
Theorem createChunks_nil (text : jsstring) (chunkSize : Z) :
  createChunks text chunkSize = []
  <-> (chunkSize < JSString.length text)%Z /\ blank text = true.
Proof.
  destruct (Z.leb_spec (JSString.length text) chunkSize) as [Hshort|Hlong].
  - unfold createChunks.
    replace (JSString.length text <=? chunkSize)%Z with true
      by (symmetry; apply Z.leb_le; exact Hshort).
    split; [discriminate|]. intros [Hlong _]. lia.
  - destruct (createChunks_parts text Hlong) as (parts & Hlines & -> & _).
    rewrite <- blank_split, <- Hlines, <- filter_kept_nil.
    split.
    + intros Hnil. split; [exact Hlong|].
      destruct (filter kept parts); [reflexivity|discriminate].
    + intros [_ ->]. reflexivity.
Qed.

(** ** The classification of error messages *)

Lemma startsWith_ci_iff (s pattern : jsstring) :
  startsWith_ci s pattern = true
  <-> exists found rest, s = found ++ rest
                         /\ map canonicalize found = map canonicalize pattern.
Proof.
  revert s. induction pattern as [|p pattern IH]; intros s.
  - split; [intros _; exists [], s; auto|intros _; destruct s; reflexivity].
  - destruct s as [|c s]; cbn [startsWith_ci].
    + split; [discriminate|]. intros (found & rest & Hs & Hfound).
      destruct found; discriminate.
    + rewrite andb_true_iff, N.eqb_eq, IH. split.
      * intros (Hc & found & rest & -> & Hfound).
        exists (c :: found), rest. simpl. split; [reflexivity|congruence].
      * intros (found & rest & Hs & Hfound).
        destruct found as [|c' found]; [discriminate|].
        simpl in Hs, Hfound. injection Hs as -> ->. injection Hfound as Hc Hfound.
        split; [exact Hc|]. exists found, rest. auto.
Qed.

Lemma test_ci_iff (pattern s : jsstring) :
  test_ci pattern s = true
  <-> exists before found after,
      s = before ++ found ++ after
      /\ map canonicalize found = map canonicalize pattern.
Proof.
  induction s as [|c s IH]; cbn [test_ci]; rewrite orb_true_iff, startsWith_ci_iff.
  - split.
    + intros [(found & rest & Hs & Hfound)|Hfalse]; [|discriminate].
      exists [], found, rest. auto.
    + intros (before & found & after & Hs & Hfound). left.
      destruct before; [|discriminate]. exists found, after. auto.
  - rewrite IH. split.
    + intros [(found & rest & Hs & Hfound)|(before & found & after & -> & Hfound)].
      * exists [], found, rest. auto.
      * exists (c :: before), found, after. auto.
    + intros (before & found & after & Hs & Hfound).
      destruct before as [|c' before].
      * left. exists found, after. auto.
      * right. simpl in Hs. injection Hs as -> ->. exists before, found, after. auto.
Qed.

(** X4: an error message is classified as a rate limit exactly when it
    contains the digits 429 or, in any mix of upper and lower case ASCII
    letters, the words rate limit separated by one space. *)
Theorem isRateLimitError_iff (errorMessage : jsstring) :
  isRateLimitError errorMessage = true
  <-> exists before found after,
      errorMessage = before ++ found ++ after
      /\ (map canonicalize found = str "RATE LIMIT" \/ found = str "429").
Proof.
  unfold isRateLimitError. rewrite orb_true_iff, !test_ci_iff. split.
  - intros [(before & found & after & Hs & Hfound)
           |(before & found & after & Hs & Hfound)];
      exists before, found, after; (split; [exact Hs|]).
    + left. exact Hfound.
    + right. change (map canonicalize (str "429")) with (str "429") in Hfound.
      destruct found as [|a [|b [|c [|d found]]]]; try discriminate.
      simpl in Hfound. injection Hfound as Ha Hb Hc.
      assert (Hdigit : forall x y, canonicalize x = y -> is_digit y = true -> x = y).
      { intros x y Hxy Hy. unfold canonicalize in Hxy.
        destruct (is_lower x) eqn:Hx; [|exact Hxy].
        unfold is_lower, is_digit in *.
        apply andb_true_iff in Hx as [Hx1 Hx2]. apply andb_true_iff in Hy as [Hy1 Hy2].
        apply N.leb_le in Hx1, Hx2, Hy1, Hy2. lia. }
      apply Hdigit in Ha, Hb, Hc; try reflexivity. now subst.
  - intros (before & found & after & Hs & [Hfound| ->]).
    + left. exists before, found, after. auto.
    + right. exists before, (str "429"), after. auto.
Qed.

(** ** The cost of a chunk *)

Section ChunkCost.
Context `{E : Engine} `{O : Oracle}.



End ChunkCost.


Section Malformed.
Context `{E : Engine} `{O : Oracle}.

(** X6: a response without text, or whose text has no opening brace
    followed by a closing brace, fails the chunk at once: one call, no wait,
    no retry, and one of the two fixed messages as the error. *)
Theorem malformed_response_is_permanent (statementChunk fileName : jsstring)
        (chunkNumber totalChunks : nat) (w : World) (text : option jsstring) :
  generateContent (api_calls w)
                  (prompt_of statementChunk fileName chunkNumber totalChunks)
  = Response text ->
  no_json_object text = true ->
  let run := extractTransactionsFromChunk statementChunk fileName
                                          chunkNumber totalChunks w in
  api_calls (fst run) = S (api_calls w)
  /\ waits (new_events w (fst run)) = []
  /\ (snd run = inl (str "The AI model returned an empty response. This may be due to the file content or safety filters.")
      \/ snd run = inl (str "The AI returned data in an unexpected format.")).
Proof.
  intros Hcall Hmalformed run.
  pose proof (extractTransactionsFromChunk_cases statementChunk fileName
                chunkNumber totalChunks w) as Hcases.
  cbv zeta in Hcases. fold run in Hcases.
  unfold attempt_outcome in Hcases at 1. rewrite Nat.add_0_r, Hcall in Hcases.
  assert (Hparse :
            parseResponse text = inl (str "The AI model returned an empty response. This may be due to the file content or safety filters.")
            \/ parseResponse text = inl (str "The AI returned data in an unexpected format.")).
  { unfold parseResponse, no_json_object in *.
    destruct text as [[|c text]|]; auto.
    rewrite Hmalformed. auto. }
  destruct Hparse as [Hparse|Hparse]; rewrite Hparse in Hcases;
    match type of Hcases with
    | (if ?b then _ else _) => replace b with false in Hcases by (vm_compute; reflexivity)
    end;
    destruct Hcases as (Hcalls & Htrace & Hresult);
    rewrite Htrace, Hresult; (split; [lia|]);
    (split; [unfold waits; rewrite !flat_map_app;
             change (flat_map _ (attempt_log w 0 ?p)) with (waits (attempt_log w 0 p));
             now rewrite (proj1 (attempt_log_quiet w 0 _))|]); auto.
Qed.

End Malformed.

Lemma malformed_response_is_permanent_witness :
  no_json_object (Some (str "Sorry, I cannot read this statement.")) = true
  /\ snd (@extractTransactionsFromChunk Sample.engine Sample.chatty
            (str "05/03 Coffee -4,50") (str "statement.txt") 1 1 initial_world)
     = inl (str "The AI returned data in an unexpected format.").
Proof.
  assert (Hmalformed :
            no_json_object (Some (str "Sorry, I cannot read this statement.")) = true)
    by reflexivity.
  split; [exact Hmalformed|].
  destruct (@malformed_response_is_permanent Sample.engine Sample.chatty
              (str "05/03 Coffee -4,50") (str "statement.txt") 1 1 initial_world
              _ eq_refl Hmalformed) as (_ & _ & [Hempty|Hformat]).
  - discriminate Hempty.
  - exact Hformat.
Defined.

(** ** The text of a response *)

Lemma indexOf_absent (c : code_unit) (s : jsstring) :
  ~ In c s -> indexOf c s = (-1)%Z.
Proof.
  induction s as [|x s IH]; simpl; intros Hc; [reflexivity|].
  destruct (N.eqb_spec x c) as [->|_]; [tauto|].
  rewrite IH by tauto. reflexivity.
Qed.

Lemma indexOf_first (c : code_unit) (before after : jsstring) :
  ~ In c before -> indexOf c (before ++ c :: after) = Z.of_nat (List.length before).
Proof.
  induction before as [|x before IH]; intros Hc.
  - simpl. now rewrite N.eqb_refl.
  - cbn [app indexOf List.length]. destruct (N.eqb_spec x c) as [->|_].
    + exfalso. apply Hc. now left.
    + rewrite IH by (intros Hin; apply Hc; now right).
      destruct (Z.ltb_spec (Z.of_nat (List.length before)) 0); lia.
Qed.

Lemma lastIndexOf_absent (c : code_unit) (s : jsstring) :
  ~ In c s -> lastIndexOf c s = (-1)%Z.
Proof.
  induction s as [|x s IH]; simpl; intros Hc; [reflexivity|].
  rewrite IH by tauto. simpl.
  destruct (N.eqb_spec x c) as [->|_]; [tauto|reflexivity].
Qed.

Lemma lastIndexOf_last (c : code_unit) (before after : jsstring) :
  ~ In c after -> lastIndexOf c (before ++ c :: after) = Z.of_nat (List.length before).
Proof.
  intros Hc. induction before as [|x before IH].
  - simpl. rewrite lastIndexOf_absent by exact Hc. simpl. now rewrite N.eqb_refl.
  - cbn [app lastIndexOf List.length]. rewrite IH.
    destruct (Z.leb_spec 0 (Z.of_nat (List.length before))); lia.
Qed.

Lemma substring_middle (before found after : jsstring) :
  substring (Z.of_nat (List.length before))
            (Z.of_nat (List.length before + List.length found))
            (before ++ found ++ after)
  = found.
Proof.
  unfold substring, JSString.length. rewrite !length_app.
  rewrite !Z.max_l, !Z.min_l by lia. rewrite !Nat2Z.id.
  rewrite Nat.min_l, Nat.max_r by lia.
  replace (List.length before + List.length found - List.length before)%nat
    with (List.length found) by lia.
  rewrite skipn_app, skipn_all, Nat.sub_diag. simpl.
  now apply firstn_exact.
Qed.

Section Answer.
Context {E : Engine}.

(** X7: whatever the model writes before the first opening brace and after
    the last closing brace of its answer is ignored: the answer is read as
    the text between these two braces alone. *)
Theorem parseResponse_ignores_prose (before inner after : jsstring) :
  ~ In 123%N before -> ~ In 125%N after ->
  parseResponse (Some (before ++ str "{" ++ inner ++ str "}" ++ after))
  = parseResponse (Some (str "{" ++ inner ++ str "}")).
Proof.
  intros Hbefore Hafter.
  assert (Hcut : forall a b : jsstring, ~ In 123%N a -> ~ In 125%N b ->
            parseResponse (Some (a ++ str "{" ++ inner ++ str "}" ++ b))
            = match JSON_parse (str "{" ++ inner ++ str "}") with
              | inl e => inl e
              | inr parsedJson =>
                  match get parsedJson (str "transactions") with
                  | inl e => inl e
                  | inr transactions =>
                      if negb (truthy_opt transactions)
                         || negb (match transactions with
                                  | Some v => Array_isArray v
                                  | None => false
                                  end)
                      then inr []
                      else
                        match transactions with
                        | Some (JArr items) =>
                            match map_validate items with
                            | inl e => inl e
                            | inr rs => inr (filter_not_null rs)
                            end
                        | _ => inr []
                        end
                  end
              end).
  { intros a b Ha Hb.
    assert (Hstart : indexOf 123%N (a ++ str "{" ++ inner ++ str "}" ++ b)
                     = Z.of_nat (List.length a)).
    { apply (@indexOf_first 123%N a (inner ++ str "}" ++ b)), Ha. }
    assert (Hend : lastIndexOf 125%N (a ++ str "{" ++ inner ++ str "}" ++ b)
                   = Z.of_nat (List.length a + S (List.length inner))).
    { replace (a ++ str "{" ++ inner ++ str "}" ++ b)
        with ((a ++ str "{" ++ inner) ++ 125%N :: b)
        by (rewrite <- !app_assoc; reflexivity).
      rewrite lastIndexOf_last by exact Hb.
      rewrite !length_app. simpl. reflexivity. }
    remember (a ++ str "{" ++ inner ++ str "}" ++ b) as text eqn:Etext.
    unfold parseResponse. destruct text as [|c text'].
    { destruct a; discriminate. }
    cbv iota zeta. rewrite Hstart, Hend.
    replace ((Z.of_nat (List.length a) =? -1)%Z
             || (Z.of_nat (List.length a + S (List.length inner)) =? -1)%Z
             || (Z.of_nat (List.length a + S (List.length inner))
                 <? Z.of_nat (List.length a))%Z)
      with false
      by (symmetry; rewrite !orb_false_iff; repeat split;
          [apply Z.eqb_neq|apply Z.eqb_neq|apply Z.ltb_ge]; lia).
    replace (Z.of_nat (List.length a + S (List.length inner)) + 1)%Z
      with (Z.of_nat (List.length a
                      + List.length (str "{" ++ inner ++ str "}")))
      by (rewrite !length_app; simpl; lia).
    rewrite Etext.
    replace (a ++ str "{" ++ inner ++ str "}" ++ b)
      with (a ++ (str "{" ++ inner ++ str "}") ++ b)
      by (rewrite <- !app_assoc; reflexivity).
    rewrite substring_middle. reflexivity. }
  rewrite (Hcut before after Hbefore Hafter).
  specialize (Hcut [] [] (fun H => H) (fun H => H)).
  cbn [app] in Hcut. rewrite app_nil_r in Hcut. cbn [app].
  symmetry. exact Hcut.
Qed.

Lemma replaceAll_removes (c : code_unit) (s : jsstring) :
  ~ In c (replaceAll c [] s).
Proof.
  unfold replaceAll. induction s as [|x s IH]; simpl; [tauto|].
  destruct (N.eqb_spec x c) as [->|Hne]; simpl; [exact IH|].
  intros [Hx|Hin]; [congruence|tauto].
Qed.

Lemma validateTransaction_survivor (tx r : json) :
  validateTransaction tx = inr (Some r) -> survivor r.
Proof.
  unfold validateTransaction. destruct tx as [| | | | |props]; simpl;
    try discriminate.
  destruct (truthy_opt (lookup (str "date") props)) eqn:Hdate;
    simpl; [|discriminate].
  destruct (truthy_opt (lookup (str "description") props)) eqn:Hdescription;
    simpl; [|discriminate].
  destruct (lookup (str "amount") props) as [amount|] eqn:Hamount;
    [|discriminate].
  destruct (lookup (str "date") props) as [date|]; [|discriminate].
  destruct (new_Date date) as [e|[t|]]; try discriminate.
  intros Hr. injection Hr as <-.
  exists (assign (str "date") (JStr (compact_date t)) props), (compact_date t).
  split; [reflexivity|]. split; [apply lookup_assign_same|].
  split; [apply compact_date_length|].
  split; [apply replaceAll_removes|].
  rewrite !lookup_assign_other by discriminate.
  rewrite Hdescription, Hamount. split; [reflexivity|discriminate].
Qed.

Lemma map_validate_survivors (items : list json) (rs : list (option json)) :
  map_validate items = inr rs -> Forall survivor (filter_not_null rs).
Proof.
  revert rs. induction items as [|tx items IH]; intros rs; simpl.
  - intros Hrs. injection Hrs as <-. constructor.
  - destruct (validateTransaction tx) as [e|r] eqn:Htx; [discriminate|].
    destruct (map_validate items) as [e|rs']; [discriminate|].
    intros Hrs. injection Hrs as <-.
    unfold filter_not_null. cbn [flat_map].
    apply Forall_app. split; [|apply IH; reflexivity].
    destruct r as [r|]; constructor; [|constructor].
    now apply validateTransaction_survivor with tx.
Qed.

(** X8: every transaction read from an answer is an object whose date is a
    string of at most ten characters without a hyphen, whose description
    is truthy and whose amount is defined. *)
Theorem parseResponse_survivors (text : option jsstring) (transactions : list json) :
  parseResponse text = inr transactions -> Forall survivor transactions.
Proof.
  unfold parseResponse. destruct text as [[|c text]|]; try discriminate.
  cbv zeta. destruct (_ || _); [discriminate|].
  destruct (JSON_parse _) as [e|parsedJson]; [discriminate|].
  destruct (get parsedJson (str "transactions")) as [e|found]; [discriminate|].
  destruct (negb (truthy_opt found) || _).
  - intros Hr. injection Hr as <-. constructor.
  - destruct found as [[| | | |items|]|];
      try (intros Hr; injection Hr as <-; constructor).
    destruct (map_validate items) as [e|rs] eqn:Hitems; [discriminate|].
    intros Hr. injection Hr as <-. now apply map_validate_survivors with items.
Qed.

(** X9: the validation of the entries of an answer throws exactly when
    one entry is null, or is a record with a truthy description and an
    amount whose date has no primitive value (an object with an own
    property toString, or an array that holds one); what it throws is the
    TypeError of the first such entry: that of reading [date] of null, or
    that of the conversion.  Without such an entry it gives one result,
    kept or dropped, per entry. *)
Theorem map_validate_throws (items : list json) :
  (forall message,
     map_validate items = inl message <->
     exists before tx after,
       items = before ++ tx :: after
       /\ Forall (fun t => thrown t = None) before
       /\ thrown tx = Some message)
  /\ (Forall (fun tx => thrown tx = None) items ->
      exists rs : list (option json),
        map_validate items = inr rs /\ List.length rs = List.length items).
Proof.
  induction items as [|tx items [IHthrows IHsafe]].
  - split.
    + intros message. split; [discriminate|].
      intros (before & tx & after & Hitems & _). destruct before; discriminate.
    + intros _. exists []. split; reflexivity.
  - pose proof (validateTransaction_thrown tx) as Htx. cbn [map_validate].
    destruct (thrown tx) as [m|] eqn:Hthrown.
    + rewrite Htx. split.
      * intros message. split.
        -- intros Hm. injection Hm as <-. exists [], tx, items.
           repeat split; [constructor|exact Hthrown].
        -- intros (before & tx' & after & Hitems & Hbefore & Hm).
           destruct before as [|b before]; cbn [app] in Hitems;
             injection Hitems as <- _.
           ++ congruence.
           ++ inversion Hbefore; congruence.
      * intros Hall. inversion Hall; congruence.
    + destruct Htx as [r ->]. split.
      * intros message. split.
        -- destruct (map_validate items) as [e|rs] eqn:Hitems; [|discriminate].
           intros Hm. injection Hm as <-.
           destruct (proj1 (IHthrows e) eq_refl)
             as (before & tx' & after & -> & Hbefore & Hm).
           exists (tx :: before), tx', after.
           repeat split; [constructor; assumption|exact Hm].
        -- intros (before & tx' & after & Hitems & Hbefore & Hm).
           destruct before as [|b before]; cbn [app] in Hitems;
             injection Hitems as <- Hrest.
           ++ congruence.
           ++ inversion Hbefore; subst.
              rewrite (proj2 (IHthrows message)); [reflexivity|].
              exists before, tx', after. auto.
      * intros Hall. inversion Hall as [|? ? _ Hrest]; subst.
        destruct (IHsafe Hrest) as (rs & -> & Hlen).
        exists (r :: rs). split; [reflexivity|]. simpl. now rewrite Hlen.
Qed.

End Answer.

Lemma parseResponse_ignores_prose_witness :
  @parseResponse Sample.reading_engine
    (Some (str "Here you are: " ++ Sample.coffee_text ++ str " Anything else?"))
  = inr [Sample.record (str "20240305") (str "Coffee") (Finite (-45 # 10))].
Proof.
  assert (Hread : @parseResponse Sample.reading_engine (Some Sample.coffee_text)
                  = inr [Sample.record (str "20240305") (str "Coffee")
                           (Finite (-45 # 10))])
    by (vm_compute; reflexivity).
  rewrite <- Hread. unfold Sample.coffee_text. rewrite <- app_assoc.
  apply (@parseResponse_ignores_prose Sample.reading_engine
           (str "Here you are: ") Sample.coffee_members (str " Anything else?")).
  - vm_compute. intuition discriminate.
  - vm_compute. intuition discriminate.
Defined.

Lemma parseResponse_survivors_witness :
  @parseResponse Sample.reading_engine (Some Sample.coffee_text)
  = inr [Sample.record (str "20240305") (str "Coffee") (Finite (-45 # 10))]
  /\ Forall survivor [Sample.record (str "20240305") (str "Coffee") (Finite (-45 # 10))].
Proof.
  assert (Hread : @parseResponse Sample.reading_engine (Some Sample.coffee_text)
                  = inr [Sample.record (str "20240305") (str "Coffee")
                           (Finite (-45 # 10))])
    by (vm_compute; reflexivity).
  split; [exact Hread|].
  exact (@parseResponse_survivors Sample.reading_engine _ _ Hread).
Defined.

(** ** The cost of a document *)

Section DocumentCost.
Context `{E : Engine} `{O : Oracle}.

Lemma requests_app (a b : list event) : requests (a ++ b) = requests a ++ requests b.
Proof. apply flat_map_app. Qed.

Lemma attempts_extends (remaining attempt : nat) (prompt : jsstring) (w : World) :
  let run := attempts remaining attempt prompt w in
  exists (n : nat) (tr : list event),
    (n <= remaining)%nat /\ (1 <= remaining -> 1 <= n)%nat
    /\ api_calls (fst run) = (api_calls w + n)%nat
    /\ events (fst run) = events w ++ tr
    /\ requests tr = repeat prompt n.
Proof.
  revert attempt w. induction remaining as [|remaining IH]; intros attempt w.
  - exists 0%nat, []. simpl. rewrite app_nil_r. repeat split; lia.
  - cbv zeta. rewrite attempts_S.
    destruct (attempt_outcome w 0 prompt) as [e|txs].
    2: { exists 1%nat, [Request prompt]. simpl. repeat split; lia. }
    destruct (isRateLimitError e && _).
    2: { exists 1%nat, ([Request prompt] ++ attempt_log w 0 prompt ++ [ConsoleError]).
         cbn [fst snd api_calls events]. rewrite !requests_app.
         rewrite (proj1 (proj2 (attempt_log_quiet w 0 prompt))).
         repeat split; lia. }
    cbv zeta.
    match goal with
    | |- context [attempts remaining (S attempt) prompt ?w1] =>
        destruct (IH (S attempt) w1) as (n & tr & Hn & _ & Hcalls & Hevents & Hreq)
    end.
    cbv zeta in Hcalls, Hevents. cbn [api_calls events] in Hcalls, Hevents.
    eexists (S n), (_ :: _ :: _ :: tr).
    split; [lia|]. split; [lia|]. split; [rewrite Hcalls; lia|].
    split.
    + rewrite Hevents, <- app_assoc. reflexivity.
    + cbn. unfold requests in Hreq. rewrite Hreq. reflexivity.
Qed.

Lemma process_chunks_trace (rest : list jsstring) (i total : nat)
      (fileName : jsstring) (allTransactions : list json) (w : World) :
  let run := process_chunks rest i total fileName allTransactions w in
  exists (n : nat) (tr : list event),
    api_calls (fst run) = (api_calls w + n)%nat
    /\ events (fst run) = events w ++ tr
    /\ match snd run with
       | inr _ =>
           (List.length rest <= n <= 3 * List.length rest)%nat
           /\ incl (requests tr) (part_prompts fileName total i rest)
       | inl message =>
           exists (k : nat) (e : jsstring),
             (k < List.length rest)%nat
             /\ message = str "Failed to process part " ++ nat_to_string (i + k + 1)
                          ++ str " of the document. Original error: " ++ e
             /\ (S k <= n <= 3 * S k)%nat
             /\ incl (requests tr) (part_prompts fileName total i (firstn (S k) rest))
       end.
Proof.
  revert i allTransactions w.
  induction rest as [|chunk rest IH]; intros i allTransactions w.
  - exists 0%nat, []. simpl. rewrite app_nil_r.
    repeat split; try lia. apply incl_nil_l.
  - cbv zeta. cbn [process_chunks].
    set (starting := str "Processing part " ++ nat_to_string (i + 1)
                     ++ str " of " ++ nat_to_string total ++ str "...").
    set (finished := str "Processing part " ++ nat_to_string (i + 1)
                     ++ str " of " ++ nat_to_string total ++ str "... done.").
    set (prompt := prompt_of chunk fileName (i + 1) total).
    assert (Hstep : forall (w1 : World) (pre post : list event),
               events w1 = events w ++ pre -> api_calls w1 = api_calls w ->
               requests pre = [] -> requests post = [] ->
               forall run,
                 run = (match extractTransactionsFromChunk chunk fileName (i + 1) total w1 with
                        | (w2, inr transactions) =>
                            process_chunks rest (S i) total fileName
                              (allTransactions ++ transactions)
                              {| api_calls := api_calls w2;
                                 random_draws := random_draws w2;
                                 events := events w2 ++ post |}
                        | (w2, inl e) =>
                            (w2, inl (str "Failed to process part "
                                      ++ nat_to_string (i + 1)
                                      ++ str " of the document. Original error: " ++ e))
                        end) ->
               exists (n : nat) (tr : list event),
                 api_calls (fst run) = (api_calls w + n)%nat
                 /\ events (fst run) = events w ++ tr
                 /\ match snd run with
                    | inr _ =>
                        (S (List.length rest) <= n <= 3 * S (List.length rest))%nat
                        /\ incl (requests tr)
                                (prompt :: part_prompts fileName total (S i) rest)
                    | inl message =>
                        exists (k : nat) (e : jsstring),
                          (k < S (List.length rest))%nat
                          /\ message = str "Failed to process part "
                                       ++ nat_to_string (i + k + 1)
                                       ++ str " of the document. Original error: " ++ e
                          /\ (S k <= n <= 3 * S k)%nat
                          /\ incl (requests tr)
                                  (part_prompts fileName total i
                                     (firstn (S k) (chunk :: rest)))
                    end).
    { intros w1 pre post Hpre Hcalls1 Rpre Rpost run ->.
      destruct (attempts_extends MAX_RETRIES 0 prompt w1)
        as (n1 & tr1 & Hle & Hge & Hc1 & He1 & Hr1).
      specialize (Hge ltac:(unfold MAX_RETRIES; lia)).
      change MAX_RETRIES with 3%nat in Hle.
      cbv zeta in Hc1, He1.
      change (attempts MAX_RETRIES 0 prompt w1)
        with (extractTransactionsFromChunk chunk fileName (i + 1) total w1) in Hc1, He1.
      destruct (extractTransactionsFromChunk chunk fileName (i + 1) total w1)
        as [w2 [e|transactions]]; cbn [fst snd] in Hc1, He1.
      - exists n1, (pre ++ tr1). cbn [fst snd].
        split; [lia|]. split; [rewrite He1, Hpre, <- app_assoc; reflexivity|].
        exists 0%nat, e. split; [lia|].
        split; [rewrite Nat.add_0_r; reflexivity|]. split; [lia|].
        rewrite requests_app, Rpre, Hr1. cbn [app firstn part_prompts].
        fold prompt. intros p Hp. apply repeat_spec in Hp. subst p. now left.
      - match goal with
        | |- context [process_chunks rest (S i) total fileName ?acc ?w3] =>
            destruct (IH (S i) acc w3) as (n' & tr' & Hc' & He' & Hrest);
            cbv zeta in Hc', He', Hrest;
            destruct (process_chunks rest (S i) total fileName acc w3)
              as [w4 [message|all]]
        end; cbn [fst snd api_calls events] in *.
        + destruct Hrest as (k & e & Hk & -> & Hn' & Hincl).
          exists (n1 + n')%nat, (pre ++ tr1 ++ post ++ tr').
          split; [lia|].
          split; [rewrite He', He1, Hpre, <- !app_assoc; reflexivity|].
          exists (S k), e. split; [lia|].
          split; [replace (i + S k + 1)%nat with (S i + k + 1)%nat by lia;
                  reflexivity|].
          split; [lia|].
          rewrite !requests_app, Rpre, Rpost, Hr1. cbn [app].
          change (firstn (S (S k)) (chunk :: rest))
            with (chunk :: firstn (S k) rest).
          cbn [part_prompts]. fold prompt.
          apply incl_app.
          * intros p Hp. apply repeat_spec in Hp. subst p. now left.
          * now apply incl_tl.
        + destruct Hrest as (Hn' & Hincl).
          exists (n1 + n')%nat, (pre ++ tr1 ++ post ++ tr').
          split; [lia|].
          split; [rewrite He', He1, Hpre, <- !app_assoc; reflexivity|].
          split; [lia|].
          rewrite !requests_app, Rpre, Rpost, Hr1. cbn [app].
          apply incl_app.
          * intros p Hp. apply repeat_spec in Hp. subst p. now left.
          * now apply incl_tl. }
    fold prompt.
    destruct (1 <? total)%nat.
    + apply (Hstep {| api_calls := api_calls w; random_draws := random_draws w;
                      events := events w ++ [Progress starting] |}
                   [Progress starting] [Progress finished; Wait (500 # 1)]);
        try reflexivity.
      cbv [bind onProgress sleep log ret try_catch throw].
      cbn [api_calls random_draws events].
      destruct (extractTransactionsFromChunk chunk fileName (i + 1) total _)
        as [w2 [e|transactions]]; [reflexivity|].
      cbn [api_calls random_draws events]. rewrite <- app_assoc. reflexivity.
    + apply (Hstep w [] []); try reflexivity.
      * now rewrite app_nil_r.
      * cbv [bind onProgress sleep log ret try_catch throw].
        destruct (extractTransactionsFromChunk chunk fileName (i + 1) total w)
          as [[calls draws evs] [e|transactions]]; [reflexivity|].
        cbn [api_calls random_draws events]. rewrite app_nil_r. reflexivity.
Qed.

End DocumentCost.

(** ** The requests of a document, part by part *)

Section PartCounts.
Context `{E : Engine} `{O : Oracle}.



End PartCounts.

Section StatementCost.
Context `{E : Engine} `{O : Oracle}.

Lemma extractTransactionsFromStatement_trace (statementContent fileName : jsstring)
      (w : World) :
  let run := extractTransactionsFromStatement statementContent fileName w in
  let chunks := createChunks statementContent MAX_CHUNK_SIZE in
  let total := List.length chunks in
  exists (n : nat) (tr : list event),
    api_calls (fst run) = (api_calls w + n)%nat
    /\ events (fst run) = events w ++ tr
    /\ match snd run with
       | inr _ =>
           (total <= n <= 3 * total)%nat
           /\ incl (requests tr) (part_prompts fileName total 0 chunks)
       | inl message =>
           exists (k : nat) (e : jsstring),
             (k < total)%nat
             /\ message = str "Failed to process part " ++ nat_to_string (k + 1)
                          ++ str " of the document. Original error: " ++ e
             /\ (S k <= n <= 3 * S k)%nat
             /\ incl (requests tr) (part_prompts fileName total 0 (firstn (S k) chunks))
       end.
Proof.
  intros run chunks total. subst run.
  unfold extractTransactionsFromStatement. fold chunks. fold total.
  assert (Hstep : forall (w1 : World) (pre : list event),
             events w1 = events w ++ pre -> api_calls w1 = api_calls w ->
             requests pre = [] ->
             forall run,
               run = (match process_chunks chunks 0 total fileName [] w1 with
                      | (w2, inr all) =>
                          ({| api_calls := api_calls w2;
                              random_draws := random_draws w2;
                              events := events w2
                                        ++ [Progress (str "Finalizing conversion...")] |},
                           inr all)
                      | (w2, inl e) => (w2, inl e)
                      end) ->
               exists (n : nat) (tr : list event),
                 api_calls (fst run) = (api_calls w + n)%nat
                 /\ events (fst run) = events w ++ tr
                 /\ match snd run with
                    | inr _ =>
                        (total <= n <= 3 * total)%nat
                        /\ incl (requests tr) (part_prompts fileName total 0 chunks)
                    | inl message =>
                        exists (k : nat) (e : jsstring),
                          (k < total)%nat
                          /\ message = str "Failed to process part "
                                       ++ nat_to_string (k + 1)
                                       ++ str " of the document. Original error: " ++ e
                          /\ (S k <= n <= 3 * S k)%nat
                          /\ incl (requests tr)
                                  (part_prompts fileName total 0 (firstn (S k) chunks))
                    end).
  { intros w1 pre Hpre Hcalls Rpre run ->.
    destruct (process_chunks_trace chunks 0 total fileName [] w1)
      as (n & tr & Hc & He & Hrest).
    cbv zeta in Hc, He, Hrest.
    destruct (process_chunks chunks 0 total fileName [] w1) as [w2 [message|all]];
      cbn [fst snd api_calls events] in *.
    - exists n, (pre ++ tr). split; [lia|].
      split; [rewrite He, Hpre, <- app_assoc; reflexivity|].
      destruct Hrest as (k & e & Hk & -> & Hn & Hincl).
      exists k, e. repeat split; try lia.
      now rewrite requests_app, Rpre.
    - exists n, (pre ++ tr ++ [Progress (str "Finalizing conversion...")]).
      split; [lia|].
      split; [rewrite He, Hpre, <- !app_assoc; reflexivity|].
      destruct Hrest as (Hn & Hincl). split; [exact Hn|].
      rewrite !requests_app, Rpre. cbn [requests flat_map app].
      now rewrite app_nil_r. }
  destruct (1 <? total)%nat.
  - apply (Hstep {| api_calls := api_calls w; random_draws := random_draws w;
                    events := events w
                              ++ [Progress (str "Analyzing statement...");
                                  Progress (str "Large file detected. Splitting into "
                                            ++ nat_to_string total ++ str " parts.");
                                  Wait (1500 # 1)] |}
                 [Progress (str "Analyzing statement...");
                  Progress (str "Large file detected. Splitting into "
                            ++ nat_to_string total ++ str " parts.");
                  Wait (1500 # 1)]);
      try reflexivity.
    cbv [bind onProgress sleep log ret].
    cbn [api_calls random_draws events]. rewrite <- !app_assoc. cbn [app].
    destruct (process_chunks chunks 0 total fileName [] _) as [w2 [e|all]];
      reflexivity.
  - apply (Hstep {| api_calls := api_calls w; random_draws := random_draws w;
                    events := events w ++ [Progress (str "Analyzing statement...")] |}
                 [Progress (str "Analyzing statement...")]);
      reflexivity.
Qed.

(** X11: a conversion that fails says which part failed and why, and has
    asked the model nothing about the parts after it. *)
Theorem extractTransactionsFromStatement_fails_fast
        (statementContent fileName : jsstring) (w : World) (message : jsstring) :
  let run := extractTransactionsFromStatement statementContent fileName w in
  let chunks := createChunks statementContent MAX_CHUNK_SIZE in
  snd run = inl message ->
  exists (k : nat) (e : jsstring),
    (k < List.length chunks)%nat
    /\ message = str "Failed to process part " ++ nat_to_string (k + 1)
                 ++ str " of the document. Original error: " ++ e
    /\ (api_calls (fst run) - api_calls w <= MAX_RETRIES * (k + 1))%nat
    /\ incl (requests (new_events w (fst run)))
            (part_prompts fileName (List.length chunks) 0 (firstn (k + 1) chunks)).
Proof.
  intros run chunks Hfail.
  destruct (extractTransactionsFromStatement_trace statementContent fileName w)
    as (n & tr & Hc & He & Hrest).
  cbv zeta in Hc, He, Hrest. fold run chunks in Hc, He, Hrest.
  rewrite Hfail in Hrest. destruct Hrest as (k & e & Hk & -> & Hn & Hincl).
  exists k, e. split; [exact Hk|]. split; [reflexivity|].
  rewrite (@new_events_app _ _ _ He), Hc, Nat.add_1_r.
  change MAX_RETRIES with 3%nat. split; [lia|exact Hincl].
Qed.

End StatementCost.

Lemma extractTransactionsFromStatement_fails_fast_witness :
  exists (k : nat) (e : jsstring),
    (k < List.length (createChunks (str "05/03 Coffee -4.50") MAX_CHUNK_SIZE))%nat
    /\ str "Failed to process part 1 of the document. Original error: API key not valid"
       = str "Failed to process part " ++ nat_to_string (k + 1)
         ++ str " of the document. Original error: " ++ e
    /\ (api_calls
          (fst (@extractTransactionsFromStatement Sample.engine Sample.refusing
                  (str "05/03 Coffee -4.50") (str "statement.txt") initial_world))
        - api_calls initial_world <= MAX_RETRIES * (k + 1))%nat
    /\ incl (requests
               (new_events initial_world
                  (fst (@extractTransactionsFromStatement Sample.engine Sample.refusing
                          (str "05/03 Coffee -4.50") (str "statement.txt")
                          initial_world))))
            (part_prompts (str "statement.txt")
               (List.length (createChunks (str "05/03 Coffee -4.50") MAX_CHUNK_SIZE)) 0
               (firstn (k + 1) (createChunks (str "05/03 Coffee -4.50") MAX_CHUNK_SIZE))).
Proof.
  apply (@extractTransactionsFromStatement_fails_fast Sample.engine Sample.refusing
           (str "05/03 Coffee -4.50") (str "statement.txt") initial_world).
  vm_compute. reflexivity.
Defined.

(** ** The document, further *)

Lemma escape_markup_app (a b : jsstring) :
  escape_markup (a ++ b) = escape_markup a ++ escape_markup b.
Proof. unfold escape_markup. now rewrite !replaceAll_app. Qed.

Lemma escape_markup_cons (c : code_unit) (s : jsstring) :
  escape_markup (c :: s) = entity c ++ escape_markup s.
Proof.
  change (c :: s) with ([c] ++ s). rewrite escape_markup_app. f_equal.
  unfold escape_markup, replaceAll, entity. cbn [flat_map].
  destruct (N.eqb_spec c 38) as [->|H38]; [reflexivity|].
  cbn [flat_map app]. destruct (N.eqb_spec c 60) as [->|H60]; [reflexivity|].
  cbn [flat_map app]. destruct (N.eqb_spec c 62) as [->|H62]; reflexivity.
Qed.

Lemma entity_cases (c : code_unit) :
  (c = 38%N /\ entity c = str "&amp;")
  \/ (c = 60%N /\ entity c = str "&lt;")
  \/ (c = 62%N /\ entity c = str "&gt;")
  \/ (c <> 38%N /\ c <> 60%N /\ c <> 62%N /\ entity c = [c]).
Proof.
  unfold entity.
  destruct (N.eqb_spec c 38) as [->|H38]; [now left|].
  destruct (N.eqb_spec c 60) as [->|H60]; [now right; left|].
  destruct (N.eqb_spec c 62) as [->|H62]; [now right; right; left|].
  now right; right; right.
Qed.

(** X12: a description is escaped in one pass, character by character:
    the ampersands of the entities written for the angle brackets are not
    escaped again.  The escaped text holds no angle bracket, and two
    different descriptions never give the same escaped text. *)
Theorem escape_markup_one_pass (s : jsstring) :
  escape_markup s = flat_map entity s
  /\ ~ In 60%N (escape_markup s) /\ ~ In 62%N (escape_markup s)
  /\ (forall s' : jsstring, escape_markup s = escape_markup s' -> s = s').
Proof.
  split; [|split; [|split]].
  - induction s as [|c s IH]; [reflexivity|].
    rewrite escape_markup_cons, IH. reflexivity.
  - induction s as [|c s IH]; [intros []|].
    rewrite escape_markup_cons. intros Hin. apply in_app_or in Hin as [Hin|Hin]; [|tauto].
    destruct (entity_cases c) as [[_ Hc]|[[_ Hc]|[[_ Hc]|(_ & Hne & _ & Hc)]]];
      rewrite Hc in Hin; simpl in Hin; intuition (try discriminate; congruence).
  - induction s as [|c s IH]; [intros []|].
    rewrite escape_markup_cons. intros Hin. apply in_app_or in Hin as [Hin|Hin]; [|tauto].
    destruct (entity_cases c) as [[_ Hc]|[[_ Hc]|[[_ Hc]|(_ & _ & Hne & Hc)]]];
      rewrite Hc in Hin; simpl in Hin; intuition (try discriminate; congruence).
  - induction s as [|c s IH]; intros [|c' s'].
    + reflexivity.
    + rewrite escape_markup_cons. intros Heq.
      destruct (entity_cases c') as [[_ Hc]|[[_ Hc]|[[_ Hc]|(_ & _ & _ & Hc)]]];
        rewrite Hc in Heq; discriminate.
    + rewrite escape_markup_cons. intros Heq.
      destruct (entity_cases c) as [[_ Hc]|[[_ Hc]|[[_ Hc]|(_ & _ & _ & Hc)]]];
        rewrite Hc in Heq; discriminate.
    + rewrite !escape_markup_cons. intros Heq.
      destruct (entity_cases c) as [[-> Hc]|[[-> Hc]|[[-> Hc]|(H1 & H2 & H3 & Hc)]]];
        destruct (entity_cases c')
          as [[-> Hc']|[[-> Hc']|[[-> Hc']|(H1' & H2' & H3' & Hc')]]];
        rewrite Hc in Heq; rewrite ?Hc' in Heq; cbn [app] in Heq;
        try discriminate; try (injection Heq as Heq; congruence);
        try (injection Heq as Heq; f_equal; apply IH; exact Heq);
        try (injection Heq as Heq; f_equal; apply IH; congruence).
      injection Heq as -> Heq. f_equal. now apply IH.
Qed.

Section DayOrder.
Context `{E : Engine}.

Lemma date_le_antisym (t u : Transaction) :
  date_le t u -> date_le u t -> date t = date u.
Proof.
  unfold date_le. intros Htu Hut. rewrite compare_antisym in Hut.
  apply compare_eq.
  destruct (JSString.compare (date t) (date u)); simpl in Hut; congruence.
Qed.

Lemma filter_date_head (t : Transaction) (l : list Transaction) :
  filter (fun x => JSString.eqb (date x) (date t)) (t :: l)
  = t :: filter (fun x => JSString.eqb (date x) (date t)) l.
Proof. cbn [filter]. now rewrite eqb_refl. Qed.

Lemma filter_date_in (d : jsstring) (t : Transaction) (l l' : list Transaction) :
  filter (fun x => JSString.eqb (date x) d) l = t :: l' -> In t l.
Proof.
  intros Hf. assert (Hin : In t (filter (fun x => JSString.eqb (date x) d) l))
    by (rewrite Hf; now left).
  now apply filter_In in Hin.
Qed.

(** Two sorted sequences with the same records in the same order on every
    day are one sequence. *)
Lemma sorted_by_days (s1 s2 : list Transaction) :
  StronglySorted date_le s1 -> StronglySorted date_le s2 ->
  (forall d, filter (fun t => JSString.eqb (date t) d) s1
             = filter (fun t => JSString.eqb (date t) d) s2) ->
  s1 = s2.
Proof.
  intros H1. revert s2. induction H1 as [|t s1 Hs1 IH Ht]; intros s2 H2 Hdays.
  - destruct s2 as [|u s2]; [reflexivity|].
    specialize (Hdays (date u)). rewrite filter_date_head in Hdays. discriminate.
  - destruct H2 as [|u s2 Hs2 Hu].
    { specialize (Hdays (date t)). rewrite filter_date_head in Hdays. discriminate. }
    assert (Hsame : t = u).
    { pose proof (Hdays (date t)) as Hday. rewrite filter_date_head in Hday.
      cbn [filter] in Hday.
      destruct (JSString.eqb (date u) (date t)) eqn:Hut; [congruence|].
      exfalso. symmetry in Hday. apply filter_date_in in Hday.
      pose proof (Hdays (date u)) as Hday'. rewrite filter_date_head in Hday'.
      cbn [filter] in Hday'.
      destruct (JSString.eqb (date t) (date u)) eqn:Htu.
      - apply eqb_eq in Htu. rewrite Htu, eqb_refl in Hut. discriminate.
      - apply filter_date_in in Hday'.
        rewrite Forall_forall in Ht, Hu.
        pose proof (date_le_antisym (Ht u Hday') (Hu t Hday)) as Heq.
        rewrite Heq, eqb_refl in Htu. discriminate. }
    subst u. f_equal. apply IH; [exact Hs2|].
    intros d. specialize (Hdays d). cbn [filter] in Hdays.
    destruct (JSString.eqb (date t) d); congruence.
Qed.

(** X13: the document depends on the order of the input only within each
    day: two inputs that hold, for every date, the same records in the
    same order give the same document. *)
Theorem createOfxContent_order_within_days (now : LocalTime)
        (a b : list Transaction) :
  collates_dates E ->
  Forall canonical a ->
  (forall d, filter (fun t => JSString.eqb (date t) d) a
             = filter (fun t => JSString.eqb (date t) d) b) ->
  createOfxContent now a = createOfxContent now b.
Proof.
  intros Hcollation Ha Hdays.
  assert (Hb : Forall canonical b).
  { rewrite Forall_forall in *. intros u Hu. apply Ha.
    assert (Hin : In u (filter (fun t => JSString.eqb (date t) (date u)) b))
      by (apply filter_In; split; [exact Hu|apply eqb_refl]).
    rewrite <- Hdays in Hin. now apply filter_In in Hin. }
  assert (Hsorted : sort_by_date a = sort_by_date b).
  { apply sorted_by_days.
    - now apply sort_by_date_sorted.
    - now apply sort_by_date_sorted.
    - intros d. rewrite !sort_by_date_stable by assumption. apply Hdays. }
  unfold createOfxContent. now rewrite Hsorted.
Qed.

Lemma sorted_last (d : Transaction) (l : list Transaction) :
  StronglySorted date_le l -> Forall (fun t => date_le t (last l d)) l.
Proof.
  induction 1 as [|t l Hl IH Ht]; [constructor|].
  destruct l as [|u l].
  - constructor; [|constructor]. unfold date_le. simpl. rewrite compare_refl.
    discriminate.
  - change (last (t :: u :: l) d) with (last (u :: l) d).
    constructor; [|exact IH].
    rewrite Forall_forall in Ht. apply Ht.
    clear. revert u. induction l as [|v l IH]; intros u; [now left|].
    right. apply IH.
Qed.

Lemma last_map_date (l : list Transaction) (t d : Transaction) (dateCreated : jsstring) :
  last (map date (t :: l)) dateCreated = date (last (t :: l) d).
Proof.
  revert t. induction l as [|u l IH]; intros t; [reflexivity|].
  change (last (map date (t :: u :: l)) dateCreated)
    with (last (map date (u :: l)) dateCreated).
  change (last (t :: u :: l) d) with (last (u :: l) d). apply IH.
Qed.

Lemma last_in (l : list Transaction) (t d : Transaction) : In (last (t :: l) d) (t :: l).
Proof.
  revert t. induction l as [|u l IH]; intros t; [now left|].
  change (last (t :: u :: l) d) with (last (u :: l) d). right. apply IH.
Qed.

(** X14: the period of a document covers its transactions: DTSTART and
    DTEND are the dates of two of the records, and no record is dated
    before the first or after the second. *)
Theorem createOfxContent_period (now : LocalTime) (transactions : list Transaction) :
  collates_dates E ->
  Forall canonical transactions ->
  transactions <> [] ->
  exists (first final : Transaction) (body : jsstring),
    In first transactions /\ In final transactions
    /\ createOfxContent now transactions
       = document_head (dateCreated_of now)
           ++ (date first ++ str "</DTSTART>
<DTEND>" ++ date final ++ str "</DTEND>" ++ body)
           ++ removelast (document_tail (dateCreated_of now))
    /\ Forall (fun t => date_le first t /\ date_le t final) transactions.
Proof.
  intros Hcollation Hcanonical Hsome.
  pose proof (sort_by_date_perm transactions) as Hperm.
  pose proof (sort_by_date_sorted Hcollation Hcanonical) as Hsorted.
  pose proof (createOfxContent_layout now transactions) as Hlayout.
  cbv zeta in Hlayout.
  destruct (sort_by_date transactions) as [|first sorted] eqn:Es.
  { apply Permutation_sym, Permutation_nil in Hperm. contradiction. }
  exists first, (last (first :: sorted) first), (List.concat
    (map_indexed render_transaction 0 (first :: sorted))).
  split; [apply (Permutation_in _ (Permutation_sym Hperm)); now left|].
  split; [apply (Permutation_in _ (Permutation_sym Hperm)), last_in|].
  split.
  { rewrite Hlayout, (last_map_date sorted first first). reflexivity. }
  pose proof (sorted_last first Hsorted) as Hlast.
  inversion Hsorted as [|? ? _ Hfirst]; subst.
  rewrite Forall_forall in *. intros t Ht.
  apply (Permutation_in _ Hperm) in Ht. split; [|now apply Hlast].
  destruct Ht as [<-|Ht]; [|now apply Hfirst].
  unfold date_le. rewrite compare_refl. discriminate.
Qed.

End DayOrder.

Lemma createOfxContent_order_within_days_witness :
  @createOfxContent Sample.engine Sample.clock [Sample.march_10; Sample.january_5]
  = @createOfxContent Sample.engine Sample.clock [Sample.january_5; Sample.march_10].
Proof.
  apply (@createOfxContent_order_within_days Sample.engine).
  - apply sample_engine_collates.
  - repeat constructor.
  - intros d. cbn [filter].
    destruct (JSString.eqb (date Sample.march_10) d) eqn:Hmarch;
      destruct (JSString.eqb (date Sample.january_5) d) eqn:Hjanuary;
      try reflexivity.
    apply eqb_eq in Hmarch, Hjanuary. rewrite <- Hjanuary in Hmarch. discriminate.
Defined.

Lemma createOfxContent_period_witness :
  exists (first final : Transaction) (body : jsstring),
    In first [Sample.march_10; Sample.january_5]
    /\ In final [Sample.march_10; Sample.january_5]
    /\ @createOfxContent Sample.engine Sample.clock [Sample.march_10; Sample.january_5]
       = document_head (dateCreated_of Sample.clock)
           ++ (date first ++ str "</DTSTART>
<DTEND>" ++ date final ++ str "</DTEND>" ++ body)
           ++ removelast (document_tail (dateCreated_of Sample.clock))
    /\ Forall (fun t => date_le first t /\ date_le t final)
              [Sample.march_10; Sample.january_5].
Proof.
  apply (@createOfxContent_period Sample.engine).
  - apply sample_engine_collates.
  - repeat constructor.
  - discriminate.
Defined.

(** ** The date of the document *)

Lemma digits_value_lt (ds : list N) :
  Forall (fun d => (d < 10)%N) ds ->
  (fold_right (fun d acc => (d + 10 * acc)%N) 0%N ds < 10 ^ N.of_nat (List.length ds))%N.
Proof.
  induction 1 as [|d ds Hd _ IH]; [reflexivity|].
  cbn [fold_right List.length]. rewrite Nat2N.inj_succ, N.pow_succ_r'. lia.
Qed.

Lemma N_to_string_length_ge (n : N) (k : nat) :
  (10 ^ N.of_nat k <= n)%N -> (S k <= List.length (N_to_string n))%nat.
Proof.
  intros Hn. unfold N_to_string. rewrite length_map, length_rev.
  set (fuel := S (N.to_nat (N.log2 n))).
  pose proof (digits_value_lt (digits_le_bound fuel n)) as Hlt.
  rewrite (digits_le_value fuel (N_to_string_fuel n)) in Hlt.
  destruct (Nat.le_gt_cases (S k) (List.length (digits_le fuel n))) as [|Hshort];
    [assumption|].
  exfalso. assert (Hpow : (10 ^ N.of_nat (List.length (digits_le fuel n))
                           <= 10 ^ N.of_nat k)%N)
    by (apply N.pow_le_mono_r; lia).
  lia.
Qed.

Lemma padStart_Z_to_string (k : nat) (z : Z) :
  (0 <= z)%Z -> padStart k 48%N (Z_to_string z) = pad k z.
Proof.
  intros Hz. unfold Z_to_string, pad.
  now replace (z <? 0)%Z with false by (symmetry; apply Z.ltb_ge; exact Hz).
Qed.

(** X15: for a clock that reads a year of four digits the date of the
    document is canonical: the local year, month (counted from one) and
    day on four, two and two digits. *)
Theorem dateCreated_of_canonical (now : LocalTime) :
  (1000 <= getFullYear now <= 9999)%Z ->
  (0 <= getMonth now <= 11)%Z ->
  (1 <= getDate now <= 31)%Z ->
  dateCreated_of now
  = pad 4 (getFullYear now) ++ pad 2 (getMonth now + 1) ++ pad 2 (getDate now)
  /\ is_YYYYMMDD (dateCreated_of now) = true.
Proof.
  intros Hy Hm Hd.
  assert (Hlen : List.length (Z_to_string (getFullYear now)) = 4%nat).
  { unfold Z_to_string.
    replace (getFullYear now <? 0)%Z with false by (symmetry; apply Z.ltb_ge; lia).
    pose proof (@N_to_string_length (Z.to_N (getFullYear now)) 3) as Hle.
    pose proof (@N_to_string_length_ge (Z.to_N (getFullYear now)) 3) as Hge.
    change (10 ^ N.of_nat 4)%N with 10000%N in Hle.
    change (10 ^ N.of_nat 3)%N with 1000%N in Hge. lia. }
  assert (Hyear : Z_to_string (getFullYear now) = pad 4 (getFullYear now)).
  { rewrite <- padStart_Z_to_string by lia. unfold padStart.
    now rewrite Hlen. }
  assert (Heq : dateCreated_of now
                = pad 4 (getFullYear now) ++ pad 2 (getMonth now + 1)
                  ++ pad 2 (getDate now)).
  { unfold dateCreated_of. rewrite Hyear, !padStart_Z_to_string by lia.
    reflexivity. }
  split; [exact Heq|]. rewrite Heq. unfold is_YYYYMMDD.
  rewrite !length_app, !forallb_app, !pad_digits.
  rewrite (@pad_length 3), !(@pad_length 1); [reflexivity| | |].
  - change (10 ^ Z.of_nat 2)%Z with 100%Z. lia.
  - change (10 ^ Z.of_nat 2)%Z with 100%Z. lia.
  - change (10 ^ Z.of_nat 4)%Z with 10000%Z. lia.
Qed.

Lemma dateCreated_of_canonical_witness :
  dateCreated_of Sample.clock = str "20240305"
  /\ is_YYYYMMDD (dateCreated_of Sample.clock) = true.
Proof.
  assert (Hdate : pad 4 (getFullYear Sample.clock)
                  ++ pad 2 (getMonth Sample.clock + 1) ++ pad 2 (getDate Sample.clock)
                  = str "20240305") by (vm_compute; reflexivity).
  rewrite <- Hdate.
  apply (@dateCreated_of_canonical Sample.clock); simpl; lia.
Defined.

(** ** A document handed back *)

Lemma trimEnd_content (c : code_unit) (s : jsstring) :
  is_whitespace c = false -> trimEnd (s ++ [c]) = s ++ [c].
Proof.
  intros Hc. unfold trimEnd. rewrite rev_app_distr. cbn [rev app].
  rewrite trimStart_content by exact Hc.
  cbn [rev]. now rewrite rev_involutive.
Qed.

Lemma startsWith_app (prefix s : jsstring) : startsWith (prefix ++ s) prefix = true.
Proof.
  induction prefix as [|p prefix IH]; [destruct s; reflexivity|].
  cbn [app startsWith]. now rewrite N.eqb_refl.
Qed.

Lemma document_head_prefix (dateCreated : jsstring) :
  document_head dateCreated = str "OFXHEADER:" ++ skipn 10 (document_head dateCreated).
Proof. reflexivity. Qed.

Lemma document_tail_suffix (dateCreated : jsstring) :
  exists body : jsstring,
    removelast (document_tail dateCreated) = body ++ str "</OFX>".
Proof.
  unfold document_tail.
  set (a := str "
</BANKTRANLIST>
<LEDGERBAL>
<BALAMT>0.00</BALAMT>
<DTASOF>").
  change (str "</DTASOF>
</LEDGERBAL>
</STMTRS>
</STMTTRNRS>
</BANKMSGSRSV1>
</OFX>
") with (str "</DTASOF>
</LEDGERBAL>
</STMTRS>
</STMTTRNRS>
</BANKMSGSRSV1>
" ++ str "</OFX>" ++ [10%N]).
  set (b := str "</DTASOF>
</LEDGERBAL>
</STMTRS>
</STMTTRNRS>
</BANKMSGSRSV1>
").
  set (c := str "</OFX>").
  exists (a ++ dateCreated ++ b).
  rewrite (app_assoc b c [10%N]), (app_assoc dateCreated (b ++ c) [10%N]),
    (app_assoc a (dateCreated ++ b ++ c) [10%N]).
  rewrite removelast_last.
  rewrite <- (app_assoc a), <- (app_assoc dateCreated). reflexivity.
Qed.

Section HandedBack.
Context `{E : Engine} `{O : Oracle}.

(** X16: every document the serializer writes begins with [OFXHEADER:],
    ends with [</OFX>] and has no white space around it; read back from a
    file it is recognized as a document and returned as it is, without a
    request to the model. *)
Theorem createOfxContent_is_accepted (now : LocalTime)
        (transactions : list Transaction) (selectedFile : File) (w : World) :
  readFileContent selectedFile = inr (createOfxContent now transactions) ->
  let document := createOfxContent now transactions in
  let run := handleFileSelect selectedFile w in
  startsWith document (str "OFXHEADER:") = true
  /\ endsWith document (str "</OFX>") = true
  /\ trim document = document
  /\ status (snd run) = Success
  /\ ofxContent (snd run) = Some document
  /\ fst run = w.
Proof.
  intros Hread document run.
  assert (Hlayout : exists inner : jsstring,
             document = str "OFXHEADER:" ++ inner ++ str "</OFX>").
  { subst document. rewrite createOfxContent_layout. cbv zeta.
    destruct (document_tail_suffix (dateCreated_of now)) as (body & ->).
    rewrite document_head_prefix.
    set (middle := _ ++ _ ++ _ ++ _ ++ _).
    exists (skipn 10 (document_head (dateCreated_of now)) ++ middle ++ body).
    rewrite <- !app_assoc. reflexivity. }
  destruct Hlayout as (inner & Hdocument).
  assert (Hstart : startsWith document (str "OFXHEADER:") = true)
    by (rewrite Hdocument; apply startsWith_app).
  assert (Hend : endsWith document (str "</OFX>") = true).
  { rewrite Hdocument. unfold endsWith. rewrite !rev_app_distr.
    rewrite <- app_assoc. apply startsWith_app. }
  assert (Htrim : trim document = document).
  { rewrite Hdocument. unfold trim.
    change (str "OFXHEADER:" ++ inner ++ str "</OFX>")
      with (79%N :: (str "FXHEADER:" ++ inner ++ str "</OFX>")).
    rewrite trimStart_content by reflexivity.
    change (79%N :: (str "FXHEADER:" ++ inner ++ str "</OFX>"))
      with (str "OFXHEADER:" ++ inner ++ str "</OFX" ++ [62%N]).
    rewrite !app_assoc. apply trimEnd_content. reflexivity. }
  repeat split; try assumption;
    subst run; unfold handleFileSelect, bind, lift;
    rewrite (@call_readFileContent_read _ _ _ Hread);
    fold document; rewrite Htrim, Hstart; reflexivity.
Qed.

End HandedBack.

Lemma createOfxContent_is_accepted_witness :
  let document := @createOfxContent Sample.engine Sample.clock [Sample.march_10] in
  let run := @handleFileSelect Sample.engine Sample.refusing
               (Sample.text_file document) initial_world in
  startsWith document (str "OFXHEADER:") = true
  /\ endsWith document (str "</OFX>") = true
  /\ trim document = document
  /\ status (snd run) = Success
  /\ ofxContent (snd run) = Some document
  /\ fst run = initial_world.
Proof.
  apply (@createOfxContent_is_accepted Sample.engine Sample.refusing Sample.clock
           [Sample.march_10]
           (Sample.text_file (@createOfxContent Sample.engine Sample.clock
                                [Sample.march_10]))
           initial_world).
  vm_compute. reflexivity.
Defined.

(** ** Reading a file *)

Lemma readFileContent_not_nil (fileToRead : File) (content : jsstring) :
  readFileContent fileToRead = inr content -> content <> [].
Proof.
  unfold readFileContent.
  destruct (JSString.eqb (type fileToRead) (str "application/pdf")).
  - destruct (pdf fileToRead) as [pages|exception].
    + set (fullText := List.concat _).
      destruct (JSString.eqb (trim fullText) []) eqn:Hempty; [discriminate|].
      intros Hcontent. injection Hcontent as <-. intros Hnil.
      rewrite Hnil in Hempty. discriminate.
    + destruct (JSString.eqb exception (str "PasswordException")); discriminate.
  - destruct (_ || _); [|discriminate].
    destruct (reader fileToRead) as [[[|c result]|]|kind]; try discriminate.
    intros Hcontent. injection Hcontent as <-. discriminate.
Qed.

Lemma readFileContent_message (fileToRead : File) (message : jsstring) :
  readFileContent fileToRead = inl message -> message <> [].
Proof.
  unfold readFileContent.
  destruct (JSString.eqb (type fileToRead) (str "application/pdf")).
  - destruct (pdf fileToRead) as [pages|exception].
    + destruct (JSString.eqb _ []); [|discriminate].
      intros Hm. injection Hm as <-. discriminate.
    + destruct (JSString.eqb exception (str "PasswordException"));
        intros Hm; injection Hm as <-; discriminate.
  - destruct (_ || _).
    + destruct (reader fileToRead) as [[[|c result]|]|kind]; try discriminate;
        intros Hm; injection Hm as <-; discriminate.
    + intros Hm. injection Hm as <-. discriminate.
Qed.

(** X17: a file that is read never gives an empty text, and a PDF never a
    text of white space only, while a text file of white space only is
    read as it is; a file that is not read gives a message that is not
    empty. *)
Theorem readFileContent_content (fileToRead : File) :
  match readFileContent fileToRead with
  | inr content =>
      content <> []
      /\ (type fileToRead = str "application/pdf" -> blank content = false)
      /\ (type fileToRead = str "text/plain" ->
          reader fileToRead = Loaded (Some content))
  | inl message => message <> []
  end.
Proof.
  destruct (readFileContent fileToRead) as [message|content] eqn:Hread.
  - now apply readFileContent_message with fileToRead.
  - split; [now apply readFileContent_not_nil with fileToRead|].
    unfold readFileContent in Hread. split; intros Htype; rewrite Htype in Hread.
    + cbn [JSString.eqb] in Hread. rewrite eqb_refl in Hread.
      destruct (pdf fileToRead) as [pages|exception].
      * set (fullText := List.concat _) in Hread.
        destruct (JSString.eqb (trim fullText) []) eqn:Hempty; [discriminate|].
        injection Hread as <-.
        destruct (blank fullText) eqn:Hb; [|reflexivity].
        apply trim_nil in Hb. rewrite Hb in Hempty. discriminate.
      * destruct (JSString.eqb exception (str "PasswordException")); discriminate.
    + change (JSString.eqb (str "text/plain") (str "application/pdf")) with false in Hread.
      change (JSString.eqb (str "text/plain") (str "text/plain")) with true in Hread.
      rewrite orb_true_r in Hread. cbn [orb] in Hread.
      destruct (reader fileToRead) as [[[|c result]|]|kind]; try discriminate.
      now injection Hread as <-.
Qed.

Section Outcome.
Context `{E : Engine} `{O : Oracle}.

Lemma createOfxContent_not_nil (now : LocalTime) (transactions : list Transaction) :
  createOfxContent now transactions <> [].
Proof.
  rewrite createOfxContent_layout. cbv zeta.
  destruct (document_head_first (dateCreated_of now)) as (rest & ->). discriminate.
Qed.

(** X18: a conversion ends in one of two ways.  Either it succeeded: there
    is no error message, the document is not empty, the button shown is
    the one to download and a click on it saves that document.  Or it
    failed: there is no document, the message is not empty, the button
    shown is the one to try again and a download does nothing.  In both
    cases the file is the selected one and the uploader is enabled. *)
Theorem handleFileSelect_outcome (selectedFile : File) (w : World) :
  let st := snd (handleFileSelect selectedFile w) in
  file st = Some selectedFile
  /\ uploader_disabled st = false
  /\ ((status st = Success /\ errorMessage st = None
       /\ exists (document : jsstring) (saved : Download),
            ofxContent st = Some document /\ document <> []
            /\ renderStatusDisplay st
               = Some (name selectedFile, DownloadButton (statusMessage st))
            /\ handleDownload st = Some saved /\ blob saved = document)
      \/ (status st = Error /\ ofxContent st = None
          /\ exists message : jsstring,
               errorMessage st = Some message /\ message <> []
               /\ renderStatusDisplay st
                  = Some (name selectedFile, TryAgainButton (Some message))
               /\ handleDownload st = None)).
Proof.
  assert (Hfail : forall (w' : World) (message : jsstring) (progress : jsstring),
             let st := {| file := Some selectedFile; status := Error;
                          statusMessage := progress;
                          errorMessage :=
                            Some (match message with
                                  | [] => str "An unknown error occurred."
                                  | _ => message
                                  end);
                          ofxContent := None |} in
             file st = Some selectedFile
             /\ uploader_disabled st = false
             /\ ((status st = Success /\ errorMessage st = None
                  /\ exists (document : jsstring) (saved : Download),
                       ofxContent st = Some document /\ document <> []
                       /\ renderStatusDisplay st
                          = Some (name selectedFile, DownloadButton (statusMessage st))
                       /\ handleDownload st = Some saved /\ blob saved = document)
                 \/ (status st = Error /\ ofxContent st = None
                     /\ exists message : jsstring,
                          errorMessage st = Some message /\ message <> []
                          /\ renderStatusDisplay st
                             = Some (name selectedFile, TryAgainButton (Some message))
                          /\ handleDownload st = None))).
  { intros _ message progress st. split; [reflexivity|]. split; [reflexivity|].
    right. split; [reflexivity|]. split; [reflexivity|].
    eexists. split; [reflexivity|]. split; [|split; reflexivity].
    destruct message; discriminate. }
  assert (Hdone : forall (document statusMessage : jsstring),
             document <> [] ->
             let st := {| file := Some selectedFile; status := Success;
                          statusMessage := statusMessage;
                          errorMessage := None; ofxContent := Some document |} in
             file st = Some selectedFile
             /\ uploader_disabled st = false
             /\ ((status st = Success /\ errorMessage st = None
                  /\ exists (document : jsstring) (saved : Download),
                       ofxContent st = Some document /\ document <> []
                       /\ renderStatusDisplay st
                          = Some (name selectedFile, DownloadButton (App.statusMessage st))
                       /\ handleDownload st = Some saved /\ blob saved = document)
                 \/ (status st = Error /\ ofxContent st = None
                     /\ exists message : jsstring,
                          errorMessage st = Some message /\ message <> []
                          /\ renderStatusDisplay st
                             = Some (name selectedFile, TryAgainButton (Some message))
                          /\ handleDownload st = None))).
  { intros document message Hdocument st. split; [reflexivity|]. split; [reflexivity|].
    left. split; [reflexivity|]. split; [reflexivity|].
    destruct document as [|c document]; [contradiction|].
    eexists. eexists. split; [reflexivity|]. split; [discriminate|].
    split; [reflexivity|]. split; reflexivity. }
  cbv zeta. unfold handleFileSelect, call_readFileContent, bind, lift.
  destruct (readFileContent selectedFile) as [message|fileContent] eqn:Hread;
    [destruct (JSString.eqb _ _); apply Hfail; exact w|].
  unfold ret.
  destruct (startsWith (trim fileContent) (str "OFXHEADER:")).
  { apply Hdone. now apply readFileContent_not_nil with selectedFile. }
  destruct (extractTransactionsFromStatement fileContent (name selectedFile) w)
    as [w1 [message|transactions]]; [apply Hfail; exact w|].
  destruct (Nat.eqb (List.length transactions) 0); [apply Hfail; exact w|].
  unfold call_createOfxContent.
  destruct (as_Transactions transactions) as [txs|]; [|apply Hfail; exact w].
  apply Hdone. apply createOfxContent_not_nil.
Qed.

(** X19: a file that cannot be read is never sent to the model: the
    conversion fails with the message of the reading, nothing is requested
    and the status line still says that the file is being read. *)
Theorem handleFileSelect_unreadable (selectedFile : File) (message : jsstring)
        (w : World) :
  readFileContent selectedFile = inl message ->
  let run := handleFileSelect selectedFile w in
  status (snd run) = Error
  /\ errorMessage (snd run) = Some message
  /\ statusMessage (snd run) = str "Reading file..."
  /\ ofxContent (snd run) = None
  /\ api_calls (fst run) = api_calls w
  /\ requests (new_events w (fst run)) = []
  /\ waits (new_events w (fst run)) = [].
Proof.
  intros Hread run. subst run.
  pose proof (readFileContent_message _ Hread) as Hmessage.
  assert (Hevents : new_events w w = []) by (unfold new_events; apply skipn_all).
  assert (Hnew : forall tr, new_events w {| api_calls := api_calls w;
                                            random_draws := random_draws w;
                                            events := events w ++ tr |}
                            = tr) by (intros tr; now apply new_events_app).
  unfold handleFileSelect, call_readFileContent, bind, lift. rewrite Hread.
  destruct (JSString.eqb _ _);
    cbv [log throw];
    cbn [fst snd status errorMessage statusMessage ofxContent api_calls events
         random_draws];
    rewrite <- ?app_assoc, ?Hevents, ?Hnew;
    repeat split; destruct message; try contradiction; reflexivity.
Qed.

End Outcome.

Lemma handleFileSelect_unreadable_witness :
  let run := @handleFileSelect Sample.engine Sample.refusing Sample.spreadsheet
               initial_world in
  status (snd run) = Error
  /\ errorMessage (snd run)
     = Some (str "Unsupported file type: 'application/vnd.ms-excel'. Please upload a PDF, CSV, or TXT file.")
  /\ statusMessage (snd run) = str "Reading file..."
  /\ ofxContent (snd run) = None
  /\ api_calls (fst run) = api_calls initial_world
  /\ requests (new_events initial_world (fst run)) = []
  /\ waits (new_events initial_world (fst run)) = [].
Proof.
  apply (@handleFileSelect_unreadable Sample.engine Sample.refusing
           Sample.spreadsheet). reflexivity.
Defined.

(** ** The download *)

Lemma substring_prefix (base rest : jsstring) :
  substring 0 (Z.of_nat (List.length base)) (base ++ rest) = base.
Proof. apply (@substring_middle [] base rest). Qed.

Lemma substring_none (s : jsstring) : substring 0 (-1) s = [].
Proof.
  unfold substring, JSString.length.
  replace (Z.to_nat (Z.min (Z.max 0 0) (Z.of_nat (List.length s)))) with 0%nat by lia.
  replace (Z.to_nat (Z.min (Z.max (-1) 0) (Z.of_nat (List.length s)))) with 0%nat by lia.
  reflexivity.
Qed.

(** X20: the file saved holds the document, and is named after the file
    converted: what follows its last dot is replaced by [ofx].  A name
    without a dot is lost altogether: the file saved is named [.ofx]. *)
Theorem handleDownload_name (st : AppState) (converted : File) (document : jsstring) :
  file st = Some converted ->
  ofxContent st = Some document ->
  document <> [] ->
  exists saved : Download,
    handleDownload st = Some saved
    /\ blob saved = document
    /\ (forall base extension : jsstring,
          name converted = base ++ str "." ++ extension -> ~ In 46%N extension ->
          download saved = base ++ str ".ofx")
    /\ (~ In 46%N (name converted) -> download saved = str ".ofx").
Proof.
  intros Hfile Hcontent Hdocument. unfold handleDownload.
  rewrite Hfile, Hcontent. destruct document as [|c document]; [contradiction|].
  eexists. split; [reflexivity|]. split; [reflexivity|]. cbn [download]. split.
  - intros base extension Hname Hextension. rewrite Hname.
    change (str "." ++ extension) with (46%N :: extension).
    rewrite (@lastIndexOf_last 46%N base extension Hextension).
    now rewrite substring_prefix.
  - intros Hdot. rewrite lastIndexOf_absent by exact Hdot.
    now rewrite substring_none.
Qed.

Lemma handleDownload_name_witness :
  exists saved : Download,
    handleDownload {| file := Some (Sample.text_file (str "OFXHEADER:100"));
                      status := Success;
                      statusMessage := str "Success! This file is already in OFX format.";
                      errorMessage := None;
                      ofxContent := Some (str "OFXHEADER:100") |}
    = Some saved
    /\ blob saved = str "OFXHEADER:100"
    /\ (forall base extension : jsstring,
          name (Sample.text_file (str "OFXHEADER:100")) = base ++ str "." ++ extension ->
          ~ In 46%N extension -> download saved = base ++ str ".ofx")
    /\ (~ In 46%N (name (Sample.text_file (str "OFXHEADER:100"))) ->
        download saved = str ".ofx").
Proof.
  apply (@handleDownload_name _ (Sample.text_file (str "OFXHEADER:100"))
           (str "OFXHEADER:100")); [reflexivity|reflexivity|discriminate].
Defined.

(** ** The calendar *)

Section Calendar.
Local Open Scope Z_scope.

Lemma year_of_era (yoe doy : Z) :
  0 <= yoe <= 399 -> 0 <= doy <= 365 ->
  (doy = 365 -> yoe mod 4 = 3 /\ (yoe mod 100 <> 99 \/ yoe = 399)) ->
  let doe := yoe * 365 + yoe / 4 - yoe / 100 + doy in
  0 <= doe <= 146096
  /\ (doe - doe / 1460 + doe / 36524 - doe / 146096) / 365 = yoe.
Proof.
  intros Hy Hd Hleap doe. subst doe.
  split; Z.to_euclidean_division_equations; lia.
Qed.

Lemma civil_from_days_of_era (era yoe doy mp d : Z) :
  0 <= yoe <= 399 -> 0 <= doy <= 365 ->
  (doy = 365 -> yoe mod 4 = 3 /\ (yoe mod 100 <> 99 \/ yoe = 399)) ->
  (5 * doy + 2) / 153 = mp ->
  doy - (153 * mp + 2) / 5 + 1 = d ->
  civil_from_days (era * 146097 + (yoe * 365 + yoe / 4 - yoe / 100 + doy) - 719468)
  = (if (if mp <? 10 then mp + 3 else mp - 9) <=? 2
     then yoe + era * 400 + 1 else yoe + era * 400,
     if mp <? 10 then mp + 3 else mp - 9, d).
Proof.
  intros Hy Hdoy Hleap Hmp Hd.
  destruct (@year_of_era yoe doy Hy Hdoy Hleap) as [Hdoe Hyoe].
  cbv zeta in Hdoe, Hyoe.
  unfold civil_from_days. cbv zeta.
  set (doe := yoe * 365 + yoe / 4 - yoe / 100 + doy) in *.
  replace (era * 146097 + doe - 719468 + 719468) with (doe + era * 146097) by lia.
  rewrite Z.div_add, (Z.div_small doe) by lia.
  replace (doe + era * 146097 - (0 + era) * 146097) with doe by lia.
  rewrite Hyoe.
  replace (doe - (365 * yoe + yoe / 4 - yoe / 100)) with doy by (subst doe; lia).
  rewrite Hmp, Hd. reflexivity.
Qed.

Lemma civil_from_days_from_civil (y m d : Z) :
  1 <= m <= 12 -> 1 <= d <= days_in_month y m ->
  civil_from_days (days_from_civil y m d) = (y, m, d).
Proof.
  intros Hm Hd. unfold days_from_civil. cbv zeta.
  set (y' := if m <=? 2 then y - 1 else y).
  set (mp := if 2 <? m then m - 3 else m + 9).
  set (era := y' / 400).
  set (yoe := y' - era * 400).
  set (doy := (153 * mp + 2) / 5 + d - 1).
  assert (Hyoe : 0 <= yoe <= 399)
    by (subst yoe era; Z.to_euclidean_division_equations; lia).
  assert (Hmp : 0 <= mp <= 11 /\ m = (if mp <? 10 then mp + 3 else mp - 9))
    by (subst mp; destruct (Z.ltb_spec 2 m);
        [destruct (Z.ltb_spec (m - 3) 10)|destruct (Z.ltb_spec (m + 9) 10)]; lia).
  destruct Hmp as [Hmp Hmonth].
  assert (Hlen : d <= days_in_month y m) by lia.
  unfold days_in_month, is_leap in Hlen.
  assert (Hdoy : 0 <= doy <= 365
                 /\ (doy = 365 -> yoe mod 4 = 3 /\ (yoe mod 100 <> 99 \/ yoe = 399))
                 /\ (5 * doy + 2) / 153 = mp
                 /\ doy - (153 * mp + 2) / 5 + 1 = d).
  { assert (Hcases : m = 1 \/ m = 2 \/ m = 3 \/ m = 4 \/ m = 5 \/ m = 6 \/ m = 7
                     \/ m = 8 \/ m = 9 \/ m = 10 \/ m = 11 \/ m = 12) by lia.
    clear Hmonth. subst doy.
    destruct Hcases as [Hc|[Hc|[Hc|[Hc|[Hc|[Hc|[Hc|[Hc|[Hc|[Hc|[Hc|Hc]]]]]]]]]]];
      subst m; subst mp; cbn [Z.ltb Z.leb Z.eqb Z.compare Pos.compare Pos.compare_cont
                                Pos.eqb orb Z.add Z.sub Z.opp Z.pos_sub Pos.add
                                Pos.succ Pos.pred_double Z.double Z.succ_double
                                Z.pred_double Pos.add_carry] in *.
    all: try (repeat split; try (Z.to_euclidean_division_equations; lia)).
    (* February *)
    all: subst yoe era y'; cbn [Z.leb Z.compare Pos.compare Pos.compare_cont] in *.
    all: destruct (y mod 4 =? 0) eqn:H4; destruct (y mod 100 =? 0) eqn:H100;
      destruct (y mod 400 =? 0) eqn:H400; cbn [andb orb negb] in Hlen;
      rewrite ?Z.eqb_eq, ?Z.eqb_neq in *;
      Z.to_euclidean_division_equations; lia. }
  destruct Hdoy as (Hdoy & Hleap & Hmp' & Hd').
  rewrite (@civil_from_days_of_era era yoe doy mp d Hyoe Hdoy Hleap Hmp' Hd').
  rewrite <- Hmonth.
  assert (Hyear : (if m <=? 2 then yoe + era * 400 + 1 else yoe + era * 400) = y)
    by (subst yoe y'; destruct (m <=? 2); lia).
  now rewrite Hyear.
Qed.

Lemma days_from_civil_bounds (y m d : Z) :
  0 <= y <= 9999 -> 1 <= m <= 12 -> 1 <= d <= 31 ->
  -720000 <= days_from_civil y m d <= 3000000.
Proof.
  intros Hy Hm Hd. unfold days_from_civil.
  destruct (m <=? 2); destruct (2 <? m); cbv zeta;
    Z.to_euclidean_division_equations; lia.
Qed.

End Calendar.

(** ** Dates written and read *)

Lemma digits_value_app (acc : Z) (a b : jsstring) :
  digits_value acc (a ++ b)
  = match digits_value acc a with
    | Some v => digits_value v b
    | None => None
    end.
Proof.
  revert acc. induction a as [|c a IH]; intros acc; [reflexivity|].
  cbn [app digits_value]. destruct (is_digit c); [apply IH|reflexivity].
Qed.

Lemma digits_value_digits (ds : list N) :
  Forall (fun d => (d < 10)%N) ds ->
  digits_value 0 (map digit_char (rev ds))
  = Some (Z.of_N (fold_right (fun d acc => (d + 10 * acc)%N) 0%N ds)).
Proof.
  induction 1 as [|d ds Hd _ IH]; [reflexivity|].
  cbn [rev fold_right]. rewrite map_app, digits_value_app, IH.
  cbn [map digits_value]. unfold is_digit, digit_char.
  replace ((48 <=? 48 + d)%N && (48 + d <=? 57)%N) with true
    by (symmetry; apply andb_true_iff; split; apply N.leb_le; lia).
  f_equal. lia.
Qed.

Lemma digits_value_N_to_string (n : N) :
  digits_value 0 (N_to_string n) = Some (Z.of_N n).
Proof.
  unfold N_to_string. rewrite digits_value_digits by apply digits_le_bound.
  now rewrite (digits_le_value _ (N_to_string_fuel n)).
Qed.

Lemma digits_value_zeros (k : nat) (s : jsstring) :
  digits_value 0 (repeat 48%N k ++ s) = digits_value 0 s.
Proof. induction k as [|k IH]; [reflexivity|exact IH]. Qed.

Lemma fixed_digits_pad (k : nat) (z : Z) :
  (0 <= z < 10 ^ Z.of_nat (S k))%Z -> fixed_digits (S k) (pad (S k) z) = Some z.
Proof.
  intros Hz. unfold fixed_digits. rewrite (@pad_length k z Hz), Nat.eqb_refl.
  unfold pad, padStart. rewrite digits_value_zeros, digits_value_N_to_string.
  f_equal. lia.
Qed.

Lemma parse_iso_date_digit (c : code_unit) (s : jsstring) :
  is_digit c = true ->
  parse_iso_date (c :: s)
  = match fixed_digits 4 (firstn 4 (c :: s)) with
    | Some y => parse_month_day y (skipn 4 (c :: s))
    | None => None
    end.
Proof.
  intros Hc. unfold is_digit in Hc. apply andb_true_iff in Hc as [Hlo Hhi].
  apply N.leb_le in Hlo, Hhi.
  assert (Hcases : c = 48%N \/ c = 49%N \/ c = 50%N \/ c = 51%N \/ c = 52%N
                   \/ c = 53%N \/ c = 54%N \/ c = 55%N \/ c = 56%N \/ c = 57%N)
    by lia.
  destruct Hcases as [->|[->|[->|[->|[->|[->|[->|[->|[->| ->]]]]]]]]]; reflexivity.
Qed.

Lemma parse_iso_date_calendar (y m d : Z) :
  (0 <= y <= 9999)%Z -> (0 <= m <= 99)%Z -> (0 <= d <= 99)%Z ->
  parse_iso_date (pad 4 y ++ str "-" ++ pad 2 m ++ str "-" ++ pad 2 d)
  = utc_midnight y m d.
Proof.
  intros Hy Hm Hd.
  assert (Hy4 : (0 <= y < 10 ^ Z.of_nat 4)%Z)
    by (change (10 ^ Z.of_nat 4)%Z with 10000%Z; lia).
  assert (Hm2 : (0 <= m < 10 ^ Z.of_nat 2)%Z)
    by (change (10 ^ Z.of_nat 2)%Z with 100%Z; lia).
  assert (Hd2 : (0 <= d < 10 ^ Z.of_nat 2)%Z)
    by (change (10 ^ Z.of_nat 2)%Z with 100%Z; lia).
  pose proof (@fixed_digits_pad 3 y Hy4) as Fy.
  pose proof (@fixed_digits_pad 1 m Hm2) as Fm.
  pose proof (@fixed_digits_pad 1 d Hd2) as Fd.
  pose proof (@pad_length 3 y Hy4) as Ly.
  pose proof (@pad_length 1 m Hm2) as Lm.
  pose proof (@pad_length 1 d Hd2) as Ld.
  pose proof (pad_digits 4 y) as Dy.
  destruct (pad 4 y) as [|y1 [|y2 [|y3 [|y4 [|y5 ys]]]]]; try discriminate.
  destruct (pad 2 m) as [|m1 [|m2 [|m3 ms]]]; try discriminate.
  destruct (pad 2 d) as [|d1 [|d2 [|d3 ds]]]; try discriminate.
  cbn [forallb] in Dy. apply andb_true_iff in Dy as [Dy _].
  cbn [app]. rewrite parse_iso_date_digit by exact Dy.
  cbn [firstn skipn]. rewrite Fy.
  change (str "-" ++ m1 :: m2 :: str "-" ++ [d1; d2])
    with [45%N; m1; m2; 45%N; d1; d2].
  unfold parse_month_day. now rewrite Fm, Fd.
Qed.

Section IsoDates.
Context {E : Engine}.

(** X21: a record dated as the prompt asks, YYYY-MM-DD with a year from 0
    to 9999 and a day that exists in the calendar, is kept by the
    validation with the same date, the hyphens removed, whatever the
    engine: the date is read as the UTC midnight of that day and written
    back from it. *)
Theorem validateTransaction_iso_date (props : list (jsstring * json)) (y m d : Z) :
  (0 <= y <= 9999)%Z -> (1 <= m <= 12)%Z -> (1 <= d <= days_in_month y m)%Z ->
  lookup (str "date") props
  = Some (JStr (pad 4 y ++ str "-" ++ pad 2 m ++ str "-" ++ pad 2 d)) ->
  truthy_opt (lookup (str "description") props) = true ->
  lookup (str "amount") props <> None ->
  new_Date (JStr (pad 4 y ++ str "-" ++ pad 2 m ++ str "-" ++ pad 2 d))
  = inr (Some (days_from_civil y m d * msPerDay)%Z)
  /\ validateTransaction (JObj props)
     = inr (Some (JObj (assign (str "date") (JStr (pad 4 y ++ pad 2 m ++ pad 2 d))
                               props))).
Proof.
  intros Hy Hm Hd Hdate Hdescription Hamount.
  assert (Hd31 : (d <= 31)%Z).
  { unfold days_in_month in Hd.
    destruct (m =? 2)%Z; [destruct (is_leap y)|destruct (_ || _)]; lia. }
  set (t := (days_from_civil y m d * msPerDay)%Z).
  assert (Hparse : new_Date (JStr (pad 4 y ++ str "-" ++ pad 2 m ++ str "-" ++ pad 2 d))
                   = inr (Some t)).
  { cbn [new_Date]. f_equal. unfold Date_parse.
    rewrite parse_iso_date_calendar by lia. unfold utc_midnight.
    replace ((1 <=? m)%Z && (m <=? 12)%Z && (1 <=? d)%Z && (d <=? days_in_month y m)%Z)
      with true
      by (symmetry; rewrite !andb_true_iff; repeat split; apply Z.leb_le; lia).
    fold t.
    pose proof (@days_from_civil_bounds y m d Hy Hm ltac:(lia)) as Hdays.
    replace (Z.abs t <=? maxTime)%Z with true; [reflexivity|].
    symmetry. apply Z.leb_le. subst t. unfold msPerDay, maxTime. lia. }
  split; [exact Hparse|].
  assert (Hday : utc_day t = (y, m, d)).
  { unfold utc_day. subst t. rewrite Z.div_mul by (unfold msPerDay; lia).
    now apply civil_from_days_from_civil. }
  assert (Hcompact : compact_date t = pad 4 y ++ pad 2 m ++ pad 2 d).
  { destruct (@compact_date_canonical t) as [-> _].
    - unfold utc_year. rewrite Hday. simpl. lia.
    - unfold YYYYMMDD_of. now rewrite Hday. }
  unfold validateTransaction. cbn [get own_properties].
  rewrite Hdate, Hdescription. cbn [truthy_opt negb].
  assert (Htruthy : truthy (JStr (pad 4 y ++ str "-" ++ pad 2 m ++ str "-" ++ pad 2 d))
                    = true).
  { pose proof (@pad_length 3 y ltac:(change (10 ^ Z.of_nat 4)%Z with 10000%Z; lia)).
    destruct (pad 4 y); [discriminate|reflexivity]. }
  rewrite Htruthy. cbn [negb].
  destruct (lookup (str "amount") props) as [amount|]; [|contradiction].
  now rewrite Hparse, Hcompact.
Qed.

End IsoDates.

Lemma validateTransaction_iso_date_witness :
  @validateTransaction Sample.engine Sample.coffee
  = inr (Some (Sample.record (str "20240305") (str "Coffee") (Finite (-45 # 10)))).
Proof.
  exact (proj2 (@validateTransaction_iso_date Sample.engine
                  [(str "date", JStr (str "2024-03-05"));
                   (str "description", JStr (str "Coffee"));
                   (str "amount", JNum (Finite (-45 # 10)))]
                  2024 3 5
                  ltac:(lia) ltac:(lia) ltac:(vm_compute; split; discriminate)
                  eq_refl eq_refl ltac:(discriminate))).
Defined.

(** ** The uploader *)

(** X22: what the drop zone hands over is, in order, the first file of
    every drop that came while it was enabled, and one opening of the
    dialog for every click that came while it was enabled: a disabled zone
    forwards nothing.  The zone is never highlighted after a drop or after
    the pointer left, and never becomes highlighted while disabled. *)
Theorem FileUploader_forwards (isDragging : bool)
        (es : list (bool * FileUploader.zone_event)) :
  snd (FileUploader.handle_all isDragging es)
  = flat_map (fun de : bool * FileUploader.zone_event =>
                if fst de then []
                else match snd de with
                     | FileUploader.Click => [FileUploader.openDialog]
                     | FileUploader.Drop (Some (first :: _)) =>
                         [FileUploader.onFileSelect first]
                     | _ => []
                     end) es
  /\ (forall before disabled e,
        es = before ++ [(disabled, e)] ->
        match e with
        | FileUploader.Drop _ | FileUploader.DragLeave =>
            fst (FileUploader.handle_all isDragging es) = false
        | _ => True
        end)
  /\ (isDragging = false -> Forall (fun de => fst de = true) es ->
      fst (FileUploader.handle_all isDragging es) = false).
Proof.
  split; [|split].
  - revert isDragging. induction es as [|[disabled e] es IH]; intros isDragging;
      [reflexivity|].
    cbn [FileUploader.handle_all flat_map].
    destruct (FileUploader.handle disabled isDragging e) as [next done] eqn:Hstep.
    specialize (IH next).
    destruct (FileUploader.handle_all next es) as [final done']. cbn [snd] in *.
    rewrite IH. f_equal.
    destruct e as [|[[|first files]|]| | |]; destruct disabled; cbn in Hstep;
      injection Hstep as _ <-; reflexivity.
  - intros before disabled e ->. revert isDragging.
    induction before as [|[disabled' e'] before IH]; intros isDragging.
    + destruct e; try exact I; cbn; reflexivity.
    + cbn [app FileUploader.handle_all].
      destruct (FileUploader.handle disabled' isDragging e') as [next done].
      specialize (IH next).
      destruct (FileUploader.handle_all next (before ++ [(disabled, e)]))
        as [final done'].
      destruct e; try exact I; exact IH.
  - intros ->. induction 1 as [|[disabled e] es Hdisabled _ IH]; [reflexivity|].
    cbn [fst] in Hdisabled. subst disabled. cbn [FileUploader.handle_all].
    assert (Hstay : fst (FileUploader.handle true false e) = false)
      by (destruct e; reflexivity).
    destruct (FileUploader.handle true false e) as [next done].
    cbn [fst] in Hstay. subst next.
    destruct (FileUploader.handle_all false es) as [final done']. exact IH.
Qed.

(** ** A document of white space *)

Lemma createChunks_blank (text : jsstring) (chunkSize : Z) :
  (chunkSize < JSString.length text)%Z -> blank text = true ->
  createChunks text chunkSize = [].
Proof.
  intros Hlong Hblank.
  destruct (createChunks_parts text Hlong) as (parts & Hlines & -> & _).
  rewrite <- blank_split, <- Hlines, <- filter_kept_nil in Hblank.
  now rewrite Hblank.
Qed.

Section WhiteSpace.
Context `{E : Engine} `{O : Oracle}.

(** X23: a text of white space only that is longer than a part may be is
    cut into no part at all: the conversion asks the model nothing and
    fails, saying that no transactions could be found. *)
Theorem handleFileSelect_blank (selectedFile : File) (fileContent : jsstring)
        (w : World) :
  readFileContent selectedFile = inr fileContent ->
  (MAX_CHUNK_SIZE < JSString.length fileContent)%Z ->
  blank fileContent = true ->
  let run := handleFileSelect selectedFile w in
  status (snd run) = Error
  /\ errorMessage (snd run)
     = Some (str "No transactions could be found in the document. Please check the file content and try again.")
  /\ ofxContent (snd run) = None
  /\ api_calls (fst run) = api_calls w
  /\ new_events w (fst run)
     = [Progress (str "Analyzing statement..."); Progress (str "Finalizing conversion...");
        ConsoleError].
Proof.
  intros Hread Hlong Hblank run. subst run.
  unfold handleFileSelect, bind, lift.
  rewrite (@call_readFileContent_read _ _ _ Hread).
  assert (Htrim : trim fileContent = []) by (now apply trim_nil).
  rewrite Htrim. change (startsWith [] (str "OFXHEADER:")) with false. cbv iota.
  unfold extractTransactionsFromStatement.
  rewrite (@createChunks_blank _ _ Hlong Hblank).
  cbn [List.length Nat.ltb Nat.leb process_chunks].
  cbv [bind onProgress sleep log ret throw].
  cbn [fst snd status errorMessage ofxContent api_calls events random_draws
       List.length Nat.eqb].
  repeat split. apply new_events_app. rewrite <- ?app_assoc. reflexivity.
Qed.

End WhiteSpace.

Lemma handleFileSelect_blank_witness :
  let run := @handleFileSelect Sample.engine Sample.refusing
               (Sample.text_file Sample.blank_page) initial_world in
  status (snd run) = Error
  /\ errorMessage (snd run)
     = Some (str "No transactions could be found in the document. Please check the file content and try again.")
  /\ ofxContent (snd run) = None
  /\ api_calls (fst run) = api_calls initial_world
  /\ new_events initial_world (fst run)
     = [Progress (str "Analyzing statement..."); Progress (str "Finalizing conversion...");
        ConsoleError].
Proof.
  apply (@handleFileSelect_blank Sample.engine Sample.refusing
           (Sample.text_file Sample.blank_page) Sample.blank_page initial_world).
  - reflexivity.
  - unfold JSString.length, Sample.blank_page. rewrite repeat_length. reflexivity.
  - apply forallb_forall. intros c Hc. apply repeat_spec in Hc. now subst c.
Defined.
